(** * IncidentInsightHub: the ingestion pipeline and the analyzers

    A shallow embedding of [src/data_processor.py] and [src/analyzers.py],
    of the upload handler of [app.py] and of the series that two charts of
    [src/visualizations.py] plot.
    A pandas [DataFrame] is a list of labelled columns of dynamically typed
    cells; Python exceptions are the [Raise] results of an error monad; the
    processor object is a record threaded through its methods.

    Numbers are exact rationals ([Q]): the source computes in binary
    floating point, of which this is the idealisation.  Text is ASCII:
    [lower] and the case-insensitive searches fold [A-Z] only. *)

From Stdlib Require Import String Ascii Bool Arith ZArith QArith Lia List.
From Stdlib Require Import Permutation Sorted.
Import ListNotations.

Local Open Scope string_scope.
Local Open Scope list_scope.

(* ================================================================== *)
(** * Exceptions *)

Inductive exn : Type :=
| AttributeError | TypeError | ValueError | KeyError | IndexError.

Inductive result (A : Type) : Type :=
| Ok (a : A)
| Raise (e : exn).
Arguments Ok {A} a.
Arguments Raise {A} e.

Definition bind {A B : Type} (m : result A) (k : A -> result B) : result B :=
  match m with
  | Ok a => k a
  | Raise e => Raise e
  end.

Notation "x <- m ;; k" := (bind m (fun x => k))
  (at level 61, m at next level, right associativity).

Fixpoint mapM {A B : Type} (f : A -> result B) (l : list A)
  : result (list B) :=
  match l with
  | [] => Ok []
  | a :: l' => b <- f a ;; bs <- mapM f l' ;; Ok (b :: bs)
  end.

(** [try: ... except Exception: ...] around a computation. *)
Definition try_except {A : Type} (m : result A) (handler : exn -> A) : A :=
  match m with
  | Ok a => a
  | Raise e => handler e
  end.

(* ================================================================== *)
(** * Cells, labels and frames *)

(** A column label: pandas takes the header cell of the sheet as it is, a
    text or a number. *)
Inductive label : Type :=
| LStr (s : string)
| LNum (z : Z).

(** A cell.  [Null] stands for None, NaN and NaT alike; [Date t] is a
    timestamp, [t] nanoseconds after 1970-01-01T00:00. *)
Inductive cell : Type :=
| Null
| Str (s : string)
| Num (q : Q)
| Date (t : Z)
| Bool (b : bool).

(** A frame: the length of its index and its columns from left to right,
    each a label with one cell per row.  Labels may repeat.  Record [k] of
    the frame is made of the [k]-th cells of its columns. *)
Record DataFrame : Type := mkDF {
  nrows : nat;
  data : list (label * list cell)
}.

(** Every column has one cell per row. *)
Definition wf (df : DataFrame) : Prop :=
  Forall (fun c => length (snd c) = nrows df) (data df).

(** [df.columns] *)
Definition columns (df : DataFrame) : list label := map fst (data df).

(** [len(df)] *)
Definition len (df : DataFrame) : nat := nrows df.

(** [df.empty]: an axis of length 0. *)
Definition empty (df : DataFrame) : bool :=
  (len df =? 0)%nat || (length (columns df) =? 0)%nat.

(** [pd.DataFrame()] *)
Definition empty_frame : DataFrame := mkDF 0 [].

Definition label_eqb (a b : label) : bool :=
  match a, b with
  | LStr s, LStr t => String.eqb s t
  | LNum x, LNum y => Z.eqb x y
  | _, _ => false
  end.

Definition isnull (c : cell) : bool :=
  match c with Null => true | _ => false end.

Definition notnull (c : cell) : bool := negb (isnull c).

(** [l in df.columns] *)
Definition has_column (df : DataFrame) (l : label) : bool :=
  existsb (fun c => label_eqb c l) (columns df).

(** The columns labelled [l], from left to right. *)
Definition columns_named (df : DataFrame) (l : label) : list (list cell) :=
  map snd (filter (fun c => label_eqb (fst c) l) (data df)).

(** [df[l]]: a series when one column carries the label, a frame when
    several do. *)
Inductive selection : Type :=
| Series (cells : list cell)
| Frame (cols : list (list cell)).

Definition getitem (df : DataFrame) (l : label) : result selection :=
  match columns_named df l with
  | [] => Raise KeyError
  | [cells] => Ok (Series cells)
  | cols => Ok (Frame cols)
  end.

(** [df[l] = values] with one value per row: every column labelled [l]
    takes the values; without such a column a new last column does. *)
Definition setitem (df : DataFrame) (l : label) (values : list cell)
  : result DataFrame :=
  if negb (length values =? len df)%nat then Raise ValueError
  else if has_column df l then
    Ok (mkDF (nrows df)
          (map (fun c => if label_eqb (fst c) l then (fst c, values) else c)
               (data df)))
  else Ok (mkDF (nrows df) (data df ++ [(l, values)])).

(** [df[l] = scalar] *)
Definition setitem_scalar (df : DataFrame) (l : label) (v : cell)
  : result DataFrame :=
  setitem df l (repeat v (len df)).

(** [df[l] = value] where the value is a selection: a frame of two columns
    or more cannot go into one label. *)
Definition setitem_sel (df : DataFrame) (l : label) (s : selection)
  : result DataFrame :=
  match s with
  | Series values => setitem df l values
  | Frame [values] => setitem df l values
  | Frame _ => Raise ValueError
  end.

(** The cells of a column that a boolean mask keeps. *)
Fixpoint select {A : Type} (mask : list bool) (xs : list A) : list A :=
  match mask, xs with
  | b :: mask', x :: xs' =>
      if b then x :: select mask' xs' else select mask' xs'
  | _, _ => []
  end.

Definition count_true (mask : list bool) : nat :=
  length (filter (fun b => b) mask).

(** [df[mask]] with a boolean mask, one flag per row. *)
Definition boolean_index (df : DataFrame) (mask : list bool) : DataFrame :=
  mkDF (count_true mask)
       (map (fun c => (fst c, select mask (snd c))) (data df)).

Fixpoint map2 {A B C : Type} (f : A -> B -> C) (la : list A) (lb : list B)
  : list C :=
  match la, lb with
  | a :: la', b :: lb' => f a b :: map2 f la' lb'
  | _, _ => []
  end.

(* ================================================================== *)
(** * Text *)

Definition lower_ascii (a : ascii) : ascii :=
  let n := nat_of_ascii a in
  if ((65 <=? n) && (n <=? 90))%nat then ascii_of_nat (n + 32) else a.

(** [str.lower()] *)
Fixpoint lower (s : string) : string :=
  match s with
  | EmptyString => EmptyString
  | String a s' => String (lower_ascii a) (lower s')
  end.

(** [x in xs] for a list of strings. *)
Definition mem_string (x : string) (xs : list string) : bool :=
  existsb (String.eqb x) xs.

(** [sub in s] *)
Fixpoint contains (s sub : string) : bool :=
  String.prefix sub s ||
  match s with
  | EmptyString => false
  | String _ s' => contains s' sub
  end.

(** A search for a literal pattern, case ignored. *)
Definition icontains (s pat : string) : bool :=
  contains (lower s) (lower pat).

(* ================================================================== *)
(** * Calendar *)

Local Open Scope Z_scope.

Definition ns_per_day : Z := 86400 * 1000000000.
Definition ns_per_hour : Z := 3600 * 1000000000.

(** Days since 1970-01-01 to (year, month, day) of the proleptic Gregorian
    calendar. *)
Definition civil_from_days (days : Z) : Z * Z * Z :=
  let z := days + 719468 in
  let era := z / 146097 in
  let doe := z - era * 146097 in
  let yoe := (doe - doe / 1460 + doe / 36524 - doe / 146096) / 365 in
  let doy := doe - (365 * yoe + yoe / 4 - yoe / 100) in
  let mp := (5 * doy + 2) / 153 in
  let d := doy - (153 * mp + 2) / 5 + 1 in
  let m := if mp <? 10 then mp + 3 else mp - 9 in
  let y := yoe + era * 400 in
  (if m <=? 2 then y + 1 else y, m, d).

Definition days_from_civil (y m d : Z) : Z :=
  let y' := if m <=? 2 then y - 1 else y in
  let era := y' / 400 in
  let yoe := y' - era * 400 in
  let doy := (153 * (if 2 <? m then m - 3 else m + 9) + 2) / 5 + d - 1 in
  let doe := yoe * 365 + yoe / 4 - yoe / 100 + doy in
  era * 146097 + doe - 719468.

Definition digit (n : Z) : string :=
  String (ascii_of_nat (48 + Z.to_nat (n mod 10))) EmptyString.

(** A non-negative number in [k] decimal digits at least, zero-padded. *)
Fixpoint zero_padded (k : nat) (n : Z) : string :=
  match k with
  | O => EmptyString
  | S k' => (zero_padded k' (n / 10) ++ digit n)%string
  end.

(** [strftime('%Y-%m')] *)
Definition strftime_Y_m (t : Z) : string :=
  let '(y, m, _) := civil_from_days (t / ns_per_day) in
  (zero_padded 4 y ++ "-" ++ zero_padded 2 m)%string.

(** [strftime('%Y-W%U')]: [%U] numbers the weeks of the year from its first
    Sunday; the days before it are in week 00. *)
Definition strftime_Y_W_U (t : Z) : string :=
  let days := t / ns_per_day in
  let '(y, _, _) := civil_from_days days in
  let yday := days - days_from_civil y 1 1 in
  let wday := (days + 4) mod 7 in
  (zero_padded 4 y ++ "-W" ++ zero_padded 2 ((yday + 7 - wday) / 7))%string.

Local Close Scope Z_scope.

(* ================================================================== *)
(** * Series operations *)

(** The number a cell counts as in arithmetic and ordering: Python's
    booleans are the integers 0 and 1. *)
Definition cell_num (c : cell) : option Q :=
  match c with
  | Num q => Some q
  | Bool b => Some (if b then 1 else 0)%Q
  | _ => None
  end.

(** [range(lo, lo + n)] as cells. *)
Fixpoint range_cells (lo : Z) (n : nat) : list cell :=
  match n with
  | O => []
  | S n' => Num (inject_Z lo) :: range_cells (lo + 1) n'
  end.

(** [cell > k] inside a series comparison: missing values compare false,
    text and timestamps do not compare with a number. *)
Definition cell_gt (k : Q) (c : cell) : result bool :=
  match c with
  | Null => Ok false
  | Str _ | Date _ => Raise TypeError
  | _ => match cell_num c with
         | Some q => Ok (negb (Qle_bool q k))
         | None => Ok false
         end
  end.

(** [cell <= k] likewise. *)
Definition cell_le (k : Q) (c : cell) : result bool :=
  match c with
  | Null => Ok false
  | Str _ | Date _ => Raise TypeError
  | _ => match cell_num c with
         | Some q => Ok (Qle_bool q k)
         | None => Ok false
         end
  end.

(** [df[l] > k]: elementwise, on a series or on every column of a frame. *)
Definition gt_scalar (s : selection) (k : Q) : result selection :=
  match s with
  | Series cells =>
      bs <- mapM (cell_gt k) cells ;; Ok (Series (map Bool bs))
  | Frame cols =>
      bss <- mapM (mapM (cell_gt k)) cols ;; Ok (Frame (map (map Bool) bss))
  end.

(** A series of timestamps (dtype datetime64): timestamps and NaT only. *)
Definition datetime_cell (c : cell) : result (option Z) :=
  match c with
  | Date t => Ok (Some t)
  | Null => Ok None
  | _ => Raise AttributeError
  end.

Definition datetime_series (s : selection) : result (list (option Z)) :=
  match s with
  | Series cells => mapM datetime_cell cells
  | Frame _ => Raise AttributeError
  end.

(** [(a - b).dt.total_seconds() / 3600] on two series of timestamps: the
    difference in hours, missing where either side is. *)
Definition hours_between (created resolved : Z) : Q :=
  Qred (Qmake (resolved - created) (Z.to_pos ns_per_hour)).

Definition sub_hours (a b : option Z) : cell :=
  match a, b with
  | Some r, Some c => Num (hours_between c r)
  | _, _ => Null
  end.

(** [series.dt.strftime(fmt)] *)
Definition dt_strftime (fmt : Z -> string) (d : option Z) : cell :=
  match d with
  | Some t => Str (fmt t)
  | None => Null
  end.

(** Equality of cell values as Python's [==] has it on them. *)
Definition cell_eqb (a b : cell) : bool :=
  match a, b with
  | Null, Null => true
  | Str s, Str t => String.eqb s t
  | Date s, Date t => Z.eqb s t
  | _, _ => match cell_num a, cell_num b with
            | Some p, Some q => Qeq_bool p q
            | _, _ => false
            end
  end.

Definition Qsum (qs : list Q) : Q := fold_right Qplus 0%Q qs.

(** The numbers of a column, missing values skipped; text and timestamps
    are no numbers (statistics of a column of timestamps, which pandas can
    take, are not modelled). *)
Fixpoint numbers (cells : list cell) : result (list Q) :=
  match cells with
  | [] => Ok []
  | Null :: cells' => numbers cells'
  | c :: cells' =>
      match cell_num c with
      | Some q => qs <- numbers cells' ;; Ok (q :: qs)
      | None => Raise TypeError
      end
  end.

(** [series.mean()]: NaN when nothing is left to average. *)
Definition series_mean (cells : list cell) : result cell :=
  qs <- numbers cells ;;
  match qs with
  | [] => Ok Null
  | _ => Ok (Num (Qred (Qsum qs / inject_Z (Z.of_nat (length qs)))))
  end.

(** [series.sum()] *)
Definition series_sum (cells : list cell) : result cell :=
  qs <- numbers cells ;; Ok (Num (Qred (Qsum qs))).

(** [series.count()]: the cells that are not missing. *)
Definition series_count (cells : list cell) : nat :=
  length (filter notnull cells).

(** Distinct values in order of first appearance. *)
Fixpoint unique (cells : list cell) : list cell :=
  match cells with
  | [] => []
  | c :: cells' =>
      c :: filter (fun x => negb (cell_eqb x c)) (unique cells')
  end.

(** [series.nunique()] *)
Definition series_nunique (cells : list cell) : nat :=
  length (unique (filter notnull cells)).

(** [series.min()] and [series.max()] of a series of timestamps. *)
Definition series_min_date (cells : list cell) : result cell :=
  ds <- mapM datetime_cell cells ;;
  Ok (fold_right (fun d acc =>
        match d, acc with
        | Some t, Date u => Date (Z.min t u)
        | Some t, _ => Date t
        | None, _ => acc
        end) Null ds).

Definition series_max_date (cells : list cell) : result cell :=
  ds <- mapM datetime_cell cells ;;
  Ok (fold_right (fun d acc =>
        match d, acc with
        | Some t, Date u => Date (Z.max t u)
        | Some t, _ => Date t
        | None, _ => acc
        end) Null ds).

(** A reduction of [df[l]]: one value for a series, one per column for a
    frame. *)
Inductive reduced : Type :=
| Scalar (c : cell)
| PerColumn (cs : list cell).

Definition reduce (f : list cell -> result cell) (s : selection)
  : result reduced :=
  match s with
  | Series cells => c <- f cells ;; Ok (Scalar c)
  | Frame cols => cs <- mapM f cols ;; Ok (PerColumn cs)
  end.

(* ================================================================== *)
(** * data_processor.py *)

Module UploadedFile.
(** An uploaded file: its name and what [pd.read_excel] makes of it, a
    frame or an exception. *)
Record t : Type := mk {
  name : string;
  read_excel : result DataFrame
}.
End UploadedFile.

Record DataProcessor : Type := mkProcessor {
  raw_data : option DataFrame;
  processed_data : option DataFrame
}.

(** [DataProcessor.__init__] *)
Definition new_processor : DataProcessor := mkProcessor None None.

Fixpoint nodup_labels (cols : list label) : bool :=
  match cols with
  | [] => true
  | c :: cols' =>
      negb (existsb (fun x => label_eqb x c) cols') && nodup_labels cols'
  end.

(** Labels in order of first appearance. *)
Definition union_labels (acc more : list label) : list label :=
  fold_left
    (fun acc l => if existsb (fun x => label_eqb x l) acc then acc
                  else acc ++ [l])
    more acc.

(** The column [l] of a frame for the concatenation: NaN in every row
    where the frame has no such column. *)
Definition column_or_nan (df : DataFrame) (l : label) : list cell :=
  match columns_named df l with
  | cells :: _ => cells
  | [] => repeat Null (nrows df)
  end.

(** [pd.concat(frames, ignore_index=True)]: the rows of one frame after
    those of the other, on the union of the columns.  Frames in which a
    label repeats are modelled as refused (pandas cannot align them unless
    all frames carry the very same columns). *)
Definition concat (frames : list DataFrame) : result DataFrame :=
  match frames with
  | [] => Raise ValueError
  | _ =>
      if forallb (fun df => nodup_labels (columns df)) frames then
        let labels := fold_left (fun acc df => union_labels acc (columns df))
                                frames [] in
        Ok (mkDF (fold_right (fun df n => (nrows df + n)%nat) 0%nat frames)
              (map (fun l => (l, flat_map (fun df => column_or_nan df l)
                                          frames))
                   labels))
      else Raise ValueError
  end.

(** The body of the loop of [load_excel_files]: a file that raises is
    skipped. *)
Definition load_one (all_data : list DataFrame) (file : UploadedFile.t)
  : list DataFrame :=
  try_except
    (df <- UploadedFile.read_excel file ;;
     df <- setitem_scalar df (LStr "source_file")
                          (Str (UploadedFile.name file)) ;;
     Ok (all_data ++ [df]))
    (fun _ => all_data).

Definition load_excel_files (self : DataProcessor)
    (uploaded_files : list UploadedFile.t) : result (bool * DataProcessor) :=
  let all_data := fold_left load_one uploaded_files [] in
  match all_data with
  | [] => Ok (false, self)
  | _ =>
      raw <- concat all_data ;;
      Ok (true, mkProcessor (Some raw) (processed_data self))
  end.

Definition get_column_mappings : list (string * list string) :=
  [ ("incident_id",
     ["incident_id"; "id"; "ticket_id"; "case_id"; "incident_number"]);
    ("title",
     ["title"; "summary"; "description"; "issue_title"; "incident_title"]);
    ("category", ["category"; "type"; "issue_type"; "incident_type"]);
    ("priority", ["priority"; "severity"; "impact"]);
    ("status", ["status"; "state"; "current_status"]);
    ("created_date",
     ["created_date"; "create_date"; "date_created"; "incident_date";
      "created"]);
    ("resolved_date",
     ["resolved_date"; "resolution_date"; "closed_date"; "date_resolved"]);
    ("assigned_team",
     ["assigned_team"; "team"; "backend_team"; "responsible_team"]);
    ("resolution_time", ["resolution_time"; "time_to_resolve"; "sla_time"]) ].

(** [col.lower() in [v.lower() for v in variations]]; a label that is no
    text has no [lower]. *)
Definition matches (variations : list string) (col : label) : result bool :=
  match col with
  | LStr s => Ok (mem_string (lower s) (map lower variations))
  | LNum _ => Raise AttributeError
  end.

(** The inner loop of [standardize_columns]: the first column that matches,
    where the loop breaks. *)
Fixpoint first_match (variations : list string) (cols : list label)
  : result (option label) :=
  match cols with
  | [] => Ok None
  | col :: cols' =>
      b <- matches variations col ;;
      if b then Ok (Some col) else first_match variations cols'
  end.

(** A Python dict from labels to names, in insertion order. *)
Fixpoint dict_get (d : list (label * string)) (k : label) : option string :=
  match d with
  | [] => None
  | (k', v) :: d' => if label_eqb k' k then Some v else dict_get d' k
  end.

Fixpoint dict_set (d : list (label * string)) (k : label) (v : string)
  : list (label * string) :=
  match d with
  | [] => [(k, v)]
  | (k', v') :: d' =>
      if label_eqb k' k then (k', v) :: d' else (k', v') :: dict_set d' k v
  end.

(** The outer loop of [standardize_columns]. *)
Fixpoint build_mapping (mappings : list (string * list string))
    (cols : list label) (standardized_columns : list (label * string))
  : result (list (label * string)) :=
  match mappings with
  | [] => Ok standardized_columns
  | (standard_name, variations) :: mappings' =>
      m <- first_match variations cols ;;
      build_mapping mappings' cols
        (match m with
         | Some col => dict_set standardized_columns col standard_name
         | None => standardized_columns
         end)
  end.

Definition rename_label (d : list (label * string)) (c : label) : label :=
  match dict_get d c with
  | Some s => LStr s
  | None => c
  end.

(** [df.rename(columns=d)] *)
Definition rename (df : DataFrame) (d : list (label * string)) : DataFrame :=
  mkDF (nrows df)
       (map (fun c => (rename_label d (fst c), snd c)) (data df)).

Definition standardize_columns (df : DataFrame) : result DataFrame :=
  standardized_columns <-
    build_mapping get_column_mappings (columns df) [] ;;
  Ok (rename df standardized_columns).

Definition required_columns : list string :=
  ["incident_id"; "title"; "category"; "priority"; "status";
   "created_date"; "resolved_date"; "assigned_team"].

Definition text_fields : list string :=
  ["title"; "category"; "priority"; "status"; "assigned_team"].

Fixpoint foldM {A B : Type} (f : A -> B -> result A) (l : list B) (a : A)
  : result A :=
  match l with
  | [] => Ok a
  | b :: l' => a' <- f a b ;; foldM f l' a'
  end.

Section Normalization.

(** [datetime.now()] at the moment of normalization. *)
Variable now : Z.

(** What [pd.to_datetime] reads in a cell that is neither a timestamp
    nor missing, given the column it stands in (the format is guessed
    from the column); [None] where it cannot read one. *)
Variable parse_datetime : list cell -> cell -> option Z.

Definition add_missing_column (df : DataFrame) (col : string)
  : result DataFrame :=
  if negb (has_column df (LStr col)) then
    if String.eqb col "incident_id" then
      setitem df (LStr col) (range_cells 1 (len df))
    else if mem_string col text_fields then
      setitem_scalar df (LStr col) (Str "Unknown")
    else if mem_string col ["created_date"; "resolved_date"] then
      setitem_scalar df (LStr col) (Date now)
    else Ok df
  else Ok df.

Definition add_missing_columns (df : DataFrame) : result DataFrame :=
  foldM add_missing_column required_columns df.

Definition to_datetime_cell (column : list cell) (c : cell) : cell :=
  match c with
  | Null => Null
  | Date t => Date t
  | _ => match parse_datetime column c with
         | Some t => Date t
         | None => Null
         end
  end.

(** [pd.to_datetime(df[col], errors='coerce')]: what cannot be read
    becomes NaT; a frame (several columns under the label) is refused. *)
Definition to_datetime (s : selection) : result (list cell) :=
  match s with
  | Series cells => Ok (map (to_datetime_cell cells) cells)
  | Frame _ => Raise ValueError
  end.

Definition convert_date_column (df : DataFrame) (col : string)
  : result DataFrame :=
  if has_column df (LStr col) then
    s <- getitem df (LStr col) ;;
    values <- to_datetime s ;;
    setitem df (LStr col) values
  else Ok df.

Definition convert_date_columns (df : DataFrame) : result DataFrame :=
  foldM convert_date_column ["created_date"; "resolved_date"] df.

Definition calculate_derived_fields (df : DataFrame) : result DataFrame :=
  df <- (if negb (has_column df (LStr "resolution_time")) then
           resolved <- getitem df (LStr "resolved_date") ;;
           created <- getitem df (LStr "created_date") ;;
           resolved <- datetime_series resolved ;;
           created <- datetime_series created ;;
           setitem df (LStr "resolution_time")
                   (map2 sub_hours resolved created)
         else Ok df) ;;
  created <- getitem df (LStr "created_date") ;;
  created <- datetime_series created ;;
  df <- setitem df (LStr "month_year")
                (map (dt_strftime strftime_Y_m) created) ;;
  created <- getitem df (LStr "created_date") ;;
  created <- datetime_series created ;;
  df <- setitem df (LStr "week_year")
                (map (dt_strftime strftime_Y_W_U) created) ;;
  resolution_time <- getitem df (LStr "resolution_time") ;;
  is_overdue <- gt_scalar resolution_time 24 ;;
  setitem_sel df (LStr "is_overdue") is_overdue.

Definition preprocess_data (self : DataProcessor) : bool * DataProcessor :=
  match raw_data self with
  | None => (false, self)
  | Some raw =>
      try_except
        (df <- standardize_columns raw ;;
         df <- add_missing_columns df ;;
         df <- convert_date_columns df ;;
         df <- calculate_derived_fields df ;;
         Ok (true, mkProcessor (raw_data self) (Some df)))
        (fun _ => (false, self))
  end.

End Normalization.

Record DataSummary : Type := mkSummary {
  total_incidents : nat;
  avg_resolution_time : reduced;
  overdue_incidents : reduced;
  unique_teams : reduced;
  date_range_start : reduced;
  date_range_end : reduced
}.

(** [get_data_summary]; [None] is the empty dict. *)
Definition get_data_summary (self : DataProcessor)
  : result (option DataSummary) :=
  match processed_data self with
  | None => Ok None
  | Some df =>
      rt <- getitem df (LStr "resolution_time") ;;
      avg <- reduce series_mean rt ;;
      ov <- getitem df (LStr "is_overdue") ;;
      overdue <- reduce series_sum ov ;;
      teams <- getitem df (LStr "assigned_team") ;;
      nteams <- reduce (fun cells =>
                  Ok (Num (inject_Z (Z.of_nat (series_nunique cells)))))
                  teams ;;
      created <- getitem df (LStr "created_date") ;;
      start <- reduce series_min_date created ;;
      created <- getitem df (LStr "created_date") ;;
      stop <- reduce series_max_date created ;;
      Ok (Some (mkSummary (len df) avg overdue nteams start stop))
  end.

(* ================================================================== *)
(** * Grouping, ordering, aggregation *)

(** An order on cells for sorted output: numbers first, then timestamps,
    then text in lexicographic order; missing values last. *)
Definition cell_rank (c : cell) : nat :=
  match c with
  | Num _ | Bool _ => 0
  | Date _ => 1
  | Str _ => 2
  | Null => 3
  end.

Definition cell_leb (a b : cell) : bool :=
  match a, b with
  | Str s, Str t => String.leb s t
  | Date s, Date t => Z.leb s t
  | _, _ =>
      match cell_num a, cell_num b with
      | Some p, Some q => Qle_bool p q
      | _, _ => (cell_rank a <=? cell_rank b)%nat
      end
  end.

(** Group keys are tuples of cells, compared position by position. *)
Fixpoint key_eqb (a b : list cell) : bool :=
  match a, b with
  | [], [] => true
  | x :: a', y :: b' => cell_eqb x y && key_eqb a' b'
  | _, _ => false
  end.

Fixpoint key_leb (a b : list cell) : bool :=
  match a, b with
  | [], _ => true
  | _ :: _, [] => false
  | x :: a', y :: b' =>
      if cell_eqb x y then key_leb a' b' else cell_leb x y
  end.

Section Sorting.
Context {A : Type} (leb : A -> A -> bool).

Fixpoint insert_by (x : A) (l : list A) : list A :=
  match l with
  | [] => [x]
  | y :: l' => if leb x y then x :: l else y :: insert_by x l'
  end.

(** A stable sort: equal elements keep their order. *)
Fixpoint sort_by (l : list A) : list A :=
  match l with
  | [] => []
  | x :: l' => insert_by x (sort_by l')
  end.
End Sorting.

(** Distinct keys in order of first appearance. *)
Fixpoint unique_keys (ks : list (list cell)) : list (list cell) :=
  match ks with
  | [] => []
  | k :: ks' =>
      k :: filter (fun x => negb (key_eqb x k)) (unique_keys ks')
  end.

(** [df[l]] where the analyzers need one column: a label carried by
    several columns is modelled as refused. *)
Definition series (df : DataFrame) (l : string) : result (list cell) :=
  s <- getitem df (LStr l) ;;
  match s with
  | Series cells => Ok cells
  | Frame _ => Raise ValueError
  end.

(** The rows of a list of columns: row [k] holds the [k]-th cell of each. *)
Fixpoint zip_rows (n : nat) (cols : list (list cell)) : list (list cell) :=
  match cols with
  | [] => repeat [] n
  | c :: cols' => map2 cons c (zip_rows n cols')
  end.

(** [df.groupby(by)] with pandas' defaults: rows with a missing key are
    dropped, groups come sorted by key, rows keep their order inside a
    group.  A group is its key and the mask of its rows. *)
Definition groupby (df : DataFrame) (by_ : list string)
  : result (list (list cell * list bool)) :=
  key_columns <- mapM (series df) by_ ;;
  let row_keys := zip_rows (nrows df) key_columns in
  let keys :=
    sort_by key_leb (unique_keys (filter (forallb notnull) row_keys)) in
  Ok (map (fun k => (k, map (fun rk => key_eqb rk k) row_keys)) keys).

(** [series.mode()]: the most frequent values, missing ones left out, in
    sorted order. *)
Definition occurrences (v : cell) (cells : list cell) : nat :=
  length (filter (cell_eqb v) cells).

Definition series_mode (cells : list cell) : list cell :=
  let vals := filter notnull cells in
  let candidates := unique vals in
  let top :=
    fold_right Nat.max 0%nat (map (fun v => occurrences v vals) candidates) in
  sort_by cell_leb
    (filter (fun v => (occurrences v vals =? top)%nat) candidates).

(** [series.iloc[0]] *)
Definition iloc0 (cells : list cell) : result cell :=
  match cells with
  | [] => Raise IndexError
  | c :: _ => Ok c
  end.

(** [df.head(n)]: the first [n] rows, all but the last [-n] when [n] is
    negative. *)
Definition head {A : Type} (n : Z) (l : list A) : list A :=
  if (0 <=? n)%Z then firstn (Z.to_nat n) l
  else firstn (length l - Z.to_nat (- n)) l.

(** [series.median()] *)
Definition series_median (cells : list cell) : result cell :=
  qs <- numbers cells ;;
  let sorted := sort_by Qle_bool qs in
  let n := length sorted in
  match n with
  | O => Ok Null
  | _ =>
      if Nat.odd n then Ok (Num (nth (n / 2) sorted 0%Q))
      else Ok (Num (Qred ((nth (n / 2 - 1) sorted 0 + nth (n / 2) sorted 0)
                          / 2)%Q))
  end.

(** The sample variance, of which [series.std()] is the square root (the
    root itself is not a rational number): NaN below two values. *)
Definition series_var (cells : list cell) : result cell :=
  qs <- numbers cells ;;
  let n := length qs in
  if (n <? 2)%nat then Ok Null
  else
    let mean := (Qsum qs / inject_Z (Z.of_nat n))%Q in
    Ok (Num (Qred (Qsum (map (fun q => (q - mean) * (q - mean)) qs)
                   / inject_Z (Z.of_nat (n - 1)))%Q)).

(** [a / n * 100]; no finite value when [n] is 0. *)
Definition percentage (a : cell) (n : nat) : cell :=
  match cell_num a, n with
  | Some q, S _ => Num (Qred (q / inject_Z (Z.of_nat n) * 100)%Q)
  | _, _ => Null
  end.

(** The [.str] accessor: pandas grants it to a column of text.  A column
    without any text cell (numbers, booleans, timestamps, missing values)
    is modelled as refused. *)
Definition is_text (c : cell) : bool :=
  match c with Str _ => true | _ => false end.

Definition str_accessor (s : selection) : result (list cell) :=
  match s with
  | Series cells =>
      if existsb is_text cells then Ok cells else Raise AttributeError
  | Frame _ => Raise AttributeError
  end.

(** [series.str.contains(pat, case=False, na=False)] for a pattern free of
    regular-expression operators. *)
Definition str_contains (pat : string) (c : cell) : bool :=
  match c with
  | Str s => icontains s pat
  | _ => false
  end.

(** The same with the alternation [k1|k2|...] of literal patterns. *)
Definition str_contains_any (pats : list string) (c : cell) : bool :=
  match c with
  | Str s => existsb (icontains s) pats
  | _ => false
  end.

(* ================================================================== *)
(** * analyzers.py *)

Module RecurringIssuesAnalyzer.

Record row : Type := mkRow {
  category : cell;
  title : cell;
  frequency : nat;
  resolution_time : cell;
  assigned_team : cell
}.

(** [lambda x: x.mode().iloc[0] if not x.empty else 'Unknown'] *)
Definition top_team (x : list cell) : result cell :=
  match x with
  | [] => Ok (Str "Unknown")
  | _ => iloc0 (series_mode x)
  end.

Definition aggregate (ids rts teams : list cell)
    (g : list cell * list bool) : result row :=
  let '(key, members) := g in
  mean <- series_mean (select members rts) ;;
  team <- top_team (select members teams) ;;
  Ok (mkRow (nth 0 key Null) (nth 1 key Null)
            (series_count (select members ids)) mean team).

(** [sort_values('frequency', ascending=False)]; rows of equal frequency
    come in the order the sorting algorithm leaves them in, here their
    former order. *)
Definition by_frequency_desc (a b : row) : bool :=
  (frequency b <=? frequency a)%nat.

Definition get_top_recurring_issues (data : option DataFrame) (top_n : Z)
  : option (list row) :=
  match data with
  | None => None
  | Some df =>
      if empty df then None
      else
        try_except
          (groups <- groupby df ["category"; "title"] ;;
           ids <- series df "incident_id" ;;
           rts <- series df "resolution_time" ;;
           teams <- series df "assigned_team" ;;
           recurring_issues <- mapM (aggregate ids rts teams) groups ;;
           Ok (Some (head top_n
                       (sort_by by_frequency_desc recurring_issues))))
          (fun _ => None)
  end.

End RecurringIssuesAnalyzer.

Module SLAAnalyzer.

Definition sla_thresholds : list (string * Z) :=
  [("Critical", 4%Z); ("High", 8%Z); ("Medium", 24%Z); ("Low", 72%Z)].

Record row : Type := mkRow {
  Priority : string;
  Total_Incidents : nat;
  SLA_Met : nat;
  SLA_Percentage : Q;
  Avg_Resolution_Time : reduced;
  SLA_Threshold : Z
}.

(** [len(priority_data[priority_data['resolution_time'] <= threshold])]:
    a mask that is a frame blanks cells and drops no row. *)
Definition met_count (priority_data : DataFrame) (threshold : Z)
  : result nat :=
  rt <- getitem priority_data (LStr "resolution_time") ;;
  match rt with
  | Series cells =>
      mask <- mapM (cell_le (inject_Z threshold)) cells ;;
      Ok (len (boolean_index priority_data mask))
  | Frame cols =>
      _ <- mapM (mapM (cell_le (inject_Z threshold))) cols ;;
      Ok (len priority_data)
  end.

(** One turn of the loop over the thresholds. *)
Definition analyze_priority (df : DataFrame) (sla_analysis : list row)
    (entry : string * Z) : result (list row) :=
  let '(priority, threshold) := entry in
  col <- getitem df (LStr "priority") ;;
  cells <- str_accessor col ;;
  let priority_data :=
    boolean_index df (map (str_contains priority) cells) in
  if (0 <? len priority_data)%nat then
    let total_incidents := len priority_data in
    met_sla <- met_count priority_data threshold ;;
    let sla_percentage :=
      Qred (inject_Z (Z.of_nat met_sla)
            / inject_Z (Z.of_nat total_incidents) * 100)%Q in
    rt <- getitem priority_data (LStr "resolution_time") ;;
    avg_resolution_time <- reduce series_mean rt ;;
    Ok (sla_analysis ++
        [mkRow priority total_incidents met_sla sla_percentage
               avg_resolution_time threshold])
  else Ok sla_analysis.

Definition analyze_sla_performance (data : option DataFrame)
  : result (option (list row)) :=
  match data with
  | None => Ok None
  | Some df =>
      if empty df then Ok None
      else
        sla_analysis <- foldM (analyze_priority df) sla_thresholds [] ;;
        Ok (Some sla_analysis)
  end.

End SLAAnalyzer.

Module TeamAnalyzer.

Record row : Type := mkRow {
  assigned_team : cell;
  month_year : cell;
  total_incidents : nat;
  resolution_time : cell;
  overdue_incidents : cell;
  overdue_percentage : cell
}.

Definition aggregate (ids rts overdues : list cell)
    (g : list cell * list bool) : result row :=
  let '(key, members) := g in
  mean <- series_mean (select members rts) ;;
  overdue <- series_sum (select members overdues) ;;
  let total := series_count (select members ids) in
  Ok (mkRow (nth 0 key Null) (nth 1 key Null) total mean overdue
            (percentage overdue total)).

Definition analyze_team_trends (data : option DataFrame)
  : result (option (list row)) :=
  match data with
  | None => Ok None
  | Some df =>
      if empty df then Ok None
      else
        groups <- groupby df ["assigned_team"; "month_year"] ;;
        ids <- series df "incident_id" ;;
        rts <- series df "resolution_time" ;;
        overdues <- series df "is_overdue" ;;
        team_analysis <- mapM (aggregate ids rts overdues) groups ;;
        Ok (Some team_analysis)
  end.

Record summary_row : Type := mkSummaryRow {
  s_assigned_team : cell;
  s_total_incidents : nat;
  s_resolution_time : cell;
  s_overdue_incidents : cell
}.

Definition summarize (ids rts overdues : list cell)
    (g : list cell * list bool) : result summary_row :=
  let '(key, members) := g in
  mean <- series_mean (select members rts) ;;
  overdue <- series_sum (select members overdues) ;;
  Ok (mkSummaryRow (nth 0 key Null)
                   (series_count (select members ids)) mean overdue).

Definition get_team_performance_summary (data : option DataFrame)
  : result (option (list summary_row)) :=
  match data with
  | None => Ok None
  | Some df =>
      if empty df then Ok None
      else
        groups <- groupby df ["assigned_team"] ;;
        ids <- series df "incident_id" ;;
        rts <- series df "resolution_time" ;;
        overdues <- series df "is_overdue" ;;
        rows_ <- mapM (summarize ids rts overdues) groups ;;
        Ok (Some rows_)
  end.

End TeamAnalyzer.

(** [df.groupby(l).size().reset_index()]: each key with the number of its
    rows. *)
Definition group_sizes (df : DataFrame) (l : string)
  : result (list (cell * nat)) :=
  groups <- groupby df [l] ;;
  Ok (map (fun g => (nth 0 (fst g) Null, count_true (snd g))) groups).

Module TechDebtAnalyzer.

Definition tech_debt_keywords : list string :=
  ["legacy"; "outdated"; "deprecated"; "technical debt"; "refactor";
   "workaround"; "hack"; "temporary fix"; "hotfix"; "patch"].

Definition identify_tech_debt_incidents (data : option DataFrame)
  : result DataFrame :=
  match data with
  | None => Ok empty_frame
  | Some df =>
      if empty df then Ok empty_frame
      else
        col <- getitem df (LStr "title") ;;
        cells <- str_accessor col ;;
        let tech_debt_mask :=
          map (str_contains_any tech_debt_keywords) cells in
        Ok (boolean_index df tech_debt_mask)
  end.

Record indicators : Type := mkIndicators {
  total_debt_percentage : Q;
  debt_by_team : list (cell * nat);
  debt_trend : list (cell * nat);
  debt_incidents : DataFrame
}.

(** [len(self.data)]: None has no length. *)
Definition len_data (data : option DataFrame) : result nat :=
  match data with
  | None => Raise TypeError
  | Some df => Ok (len df)
  end.

Definition calculate_tech_debt_indicators (data : option DataFrame)
  : result indicators :=
  tech_debt_incidents <- identify_tech_debt_incidents data ;;
  total_incidents <- len_data data ;;
  let debt_incidents := len tech_debt_incidents in
  let debt_percentage :=
    if (0 <? total_incidents)%nat then
      Qred (inject_Z (Z.of_nat debt_incidents)
            / inject_Z (Z.of_nat total_incidents) * 100)%Q
    else 0%Q in
  debt_by_team <-
    (if negb (empty tech_debt_incidents) then
       group_sizes tech_debt_incidents "assigned_team"
     else Ok []) ;;
  debt_trend <-
    (if negb (empty tech_debt_incidents) then
       group_sizes tech_debt_incidents "month_year"
     else Ok []) ;;
  Ok (mkIndicators debt_percentage debt_by_team debt_trend
                   tech_debt_incidents).

End TechDebtAnalyzer.

Module TrendAnalyzer.

Definition get_monthly_trends (data : option DataFrame)
  : result (option (list (cell * nat))) :=
  match data with
  | None => Ok None
  | Some df =>
      if empty df then Ok None
      else monthly_data <- group_sizes df "month_year" ;;
           Ok (Some monthly_data)
  end.

(** [series.value_counts()]: distinct values with their counts, the most
    frequent first. *)
Definition value_counts (cells : list cell) : list (cell * nat) :=
  let vals := filter notnull cells in
  sort_by (fun a b => (snd b <=? snd a)%nat)
    (map (fun v => (v, occurrences v vals)) (unique vals)).

Definition get_category_distribution (data : option DataFrame)
  : result (option (list (cell * nat))) :=
  match data with
  | None => Ok None
  | Some df =>
      if empty df then Ok None
      else
        s <- getitem df (LStr "category") ;;
        match s with
        | Series cells => Ok (Some (value_counts cells))
        | Frame _ => Raise ValueError
        end
  end.

Record row : Type := mkRow {
  priority : cell;
  incident_id_count : nat;
  resolution_time_mean : cell;
  resolution_time_median : cell;
  resolution_time_var : cell
}.

Definition aggregate (ids rts : list cell)
    (g : list cell * list bool) : result row :=
  let '(key, members) := g in
  let rt := select members rts in
  mean <- series_mean rt ;;
  median <- series_median rt ;;
  var <- series_var rt ;;
  Ok (mkRow (nth 0 key Null) (series_count (select members ids))
            mean median var).

Definition get_priority_analysis (data : option DataFrame)
  : result (option (list row)) :=
  match data with
  | None => Ok None
  | Some df =>
      if empty df then Ok None
      else
        groups <- groupby df ["priority"] ;;
        ids <- series df "incident_id" ;;
        rts <- series df "resolution_time" ;;
        rows_ <- mapM (aggregate ids rts) groups ;;
        Ok (Some rows_)
  end.

End TrendAnalyzer.

(* ================================================================== *)
(** * app.py: the session and the processing of an upload *)

Module App.

(** What [st.session_state] holds: the processor, made once, and the flag
    [data_loaded], which is absent (here false) until an upload has been
    processed. *)
Record session_state : Type := mkSession {
  data_processor : DataProcessor;
  data_loaded : bool
}.

Definition new_session : session_state := mkSession new_processor false.

Section Handler.

Variable now : Z.
Variable parse_datetime : list cell -> cell -> option Z.

(** The handler of the "Process Files" button in [main]: load, then
    preprocess, and raise the flag when both succeed.  What the handler
    shows (progress, messages) has no part in the state.  An exception of
    [load_excel_files] ends the run with the session as it was. *)
Definition process_files (st : session_state)
    (uploaded_files : list UploadedFile.t) : result session_state :=
  r <- load_excel_files (data_processor st) uploaded_files ;;
  let '(loaded_ok, processor) := r in
  if loaded_ok then
    let '(ok, processor) := preprocess_data now parse_datetime processor in
    if ok then Ok (mkSession processor true)
    else Ok (mkSession processor (data_loaded st))
  else Ok (mkSession processor (data_loaded st)).

End Handler.

(** The dataset that the main content of [main] hands to the analyzers:
    none while the flag is down (the welcome screen) or when there is no
    processed data or an empty one (the error message). *)
Definition dashboard_data (st : session_state) : option DataFrame :=
  if data_loaded st then
    match processed_data (data_processor st) with
    | None => None
    | Some data => if empty data then None else Some data
    end
  else None.

End App.

(* ================================================================== *)
(** * visualizations.py: the series of two charts *)

Module ChartGenerator.

(** [series.cumsum()] *)
Fixpoint cumsum_from (acc : nat) (l : list nat) : list nat :=
  match l with
  | [] => []
  | x :: l' => (acc + x)%nat :: cumsum_from (acc + x)%nat l'
  end.

Definition cumsum (l : list nat) : list nat := cumsum_from 0%nat l.

Definition Num_of_nat (n : nat) : cell := Num (inject_Z (Z.of_nat n)).

(** The series that [create_pareto_chart] plots: the frequencies in
    descending order (the bars), the share of each in the total (their
    hover data) and the cumulative percentage (the line).  Labels, colours
    and layout are not modelled; None is the empty figure. *)
Record pareto : Type := mkPareto {
  bar_y : list nat;
  bar_customdata : list cell;
  line_y : list cell
}.

Definition create_pareto_chart (data : option (list RecurringIssuesAnalyzer.row))
  : option pareto :=
  match data with
  | None | Some [] => None
  | Some rows =>
      let sorted_data :=
        sort_by RecurringIssuesAnalyzer.by_frequency_desc rows in
      let frequency := map RecurringIssuesAnalyzer.frequency sorted_data in
      let total := list_sum frequency in
      Some (mkPareto frequency
              (map (fun f => percentage (Num_of_nat f) total) frequency)
              (map (fun c => percentage (Num_of_nat c) total)
                   (cumsum frequency)))
  end.

(** The two stacked bar series of [create_sla_performance_chart], over the
    priorities: the incidents within the threshold, and the others
    ([Total_Incidents - SLA_Met], a difference of integers). *)
Record sla_bars : Type := mkBars {
  bar_x : list string;
  sla_met : list Z;
  sla_missed : list Z
}.

Definition create_sla_performance_chart
    (sla_data : option (list SLAAnalyzer.row)) : option sla_bars :=
  match sla_data with
  | None | Some [] => None
  | Some rows =>
      Some (mkBars (map SLAAnalyzer.Priority rows)
              (map (fun r => Z.of_nat (SLAAnalyzer.SLA_Met r)) rows)
              (map (fun r => (Z.of_nat (SLAAnalyzer.Total_Incidents r)
                              - Z.of_nat (SLAAnalyzer.SLA_Met r))%Z) rows))
  end.

End ChartGenerator.

(* ================================================================== *)
(** * Vocabulary of the statements *)

(** The test of the inner loop of [standardize_columns], on the text of a
    label. *)
Definition alias (variations : list string) (s : string) : bool :=
  mem_string (lower s) (map lower variations).

Definition text_label (l : label) : Prop := exists s, l = LStr s.

Definition canonical_fields : list string := map fst get_column_mappings.

(** The records whose resolution time is a number above 24 hours. *)
Definition over_24h (c : cell) : bool :=
  match c with
  | Num q => negb (Qle_bool q 24)
  | _ => false
  end.

(** The files that parse, with their names, in upload order. *)
Definition loaded (files : list UploadedFile.t) : list (string * DataFrame) :=
  flat_map (fun f => match UploadedFile.read_excel f with
                     | Ok df => [(UploadedFile.name f, df)]
                     | Raise _ => []
                     end) files.

(** A sheet with its [source_file] column set to the file name. *)
Definition tagged (name : string) (df : DataFrame) : DataFrame :=
  match setitem_scalar df (LStr "source_file") (Str name) with
  | Ok df' => df'
  | Raise _ => df
  end.

(** A cell of a numeric column: a number (or a boolean) or a missing
    value. *)
Definition numeric_or_null (c : cell) : bool :=
  match c with
  | Str _ | Date _ => false
  | _ => true
  end.

(** A resolution time within a threshold of so many hours. *)
Definition within (threshold : Z) (c : cell) : bool :=
  match cell_num c with
  | Some q => Qle_bool q (inject_Z threshold)
  | None => false
  end.

(** The records, as pairs of priority and resolution time, whose priority
    contains the label, case ignored. *)
Definition matching_records (label : string) (pr rt : list cell)
  : list (cell * cell) :=
  filter (fun r => str_contains label (fst r)) (combine pr rt).

(** The keys among [ks] that equal the key [x]. *)
Definition representatives (x : list cell) (ks : list (list cell)) : nat :=
  length (filter (key_eqb x) ks).

(** The keys of the groups of a list of row keys. *)
Definition group_keys (row_keys : list (list cell)) : list (list cell) :=
  sort_by key_leb (unique_keys (filter (forallb notnull) row_keys)).

(** A cell of a text column. *)
Definition text_cell (c : cell) : Prop := exists s, c = Str s.

(** The test that puts a record, of category [ci] and title [ti], in the
    group of the issue [(c, t)]. *)
Definition same_issue (c t ci ti : cell) : bool :=
  cell_eqb ci c && cell_eqb ti t.

(** The mask of the records of the issue [(c, t)]. *)
Definition members (cs ts : list cell) (c t : cell) : list bool :=
  map2 (same_issue c t) cs ts.

(** What a row of the recurring-issue table says of its group: the key is
    not null and some record has it; [frequency] counts the group's
    records that have an [incident_id]; [resolution_time] is the mean over
    the group; [assigned_team] is a team of the group that no other team
    outnumbers and, among the teams as frequent, the least in sorted
    order. *)
Definition issue_group (cs ts ids rts teams : list cell)
    (row : RecurringIssuesAnalyzer.row) : Prop :=
  let m := members cs ts (RecurringIssuesAnalyzer.category row)
                   (RecurringIssuesAnalyzer.title row) in
  let group_teams := select m teams in
  let team := RecurringIssuesAnalyzer.assigned_team row in
  RecurringIssuesAnalyzer.category row <> Null /\
  RecurringIssuesAnalyzer.title row <> Null /\
  (0 < count_true m)%nat /\
  RecurringIssuesAnalyzer.frequency row = series_count (select m ids) /\
  series_mean (select m rts) =
    Ok (RecurringIssuesAnalyzer.resolution_time row) /\
  In team group_teams /\
  (forall v, In v group_teams ->
     (occurrences v group_teams <= occurrences team group_teams)%nat) /\
  (forall v, In v group_teams ->
     occurrences v group_teams = occurrences team group_teams ->
     cell_leb team v = true).

(** The tie-break as the specification words it: of the most frequent
    values, the first one met in row order. *)
Definition first_mode_encountered (x : list cell) : option cell :=
  let vals := filter notnull x in
  let top := fold_right Nat.max 0%nat
               (map (fun v => occurrences v vals) vals) in
  find (fun v => (occurrences v vals =? top)%nat) vals.

(** A cell of a column of timestamps: a timestamp or a missing value. *)
Definition timestamp_or_null (c : cell) : bool :=
  match c with
  | Null | Date _ => true
  | _ => false
  end.

(** A table that comes from another by a sequence of column assignments
    [df[l] = values]. *)
Inductive assigned : DataFrame -> DataFrame -> Prop :=
| assigned_refl (df : DataFrame) : assigned df df
| assigned_step (df df1 df' : DataFrame) (l : label) (values : list cell) :
    setitem df l values = Ok df1 -> assigned df1 df' -> assigned df df'.


(** Python's booleans as numbers. *)
Definition bool_Q (b : bool) : Q := if b then 1%Q else 0%Q.

(** A reduction that gave [v], for the one column or for each of them. *)
Definition reduced_all (v : cell) (r : reduced) : Prop :=
  match r with
  | Scalar c => c = v
  | PerColumn cs => Forall (eq v) cs
  end.

(* ================================================================== *)
(** * Basic facts *)

Local Open Scope nat_scope.

Lemma label_eqb_eq (a b : label) : label_eqb a b = true <-> a = b.
Proof.
  destruct a, b; simpl; split; intro H; try discriminate; try congruence.
  - apply String.eqb_eq in H; congruence.
  - inversion H; apply String.eqb_refl.
  - apply Z.eqb_eq in H; congruence.
  - inversion H; apply Z.eqb_refl.
Qed.

Lemma label_eqb_refl (a : label) : label_eqb a a = true.
Proof. now apply label_eqb_eq. Qed.

Lemma label_eqb_neq (a b : label) : label_eqb a b = false <-> a <> b.
Proof.
  split; intro H.
  - intro E; apply label_eqb_eq in E; congruence.
  - destruct (label_eqb a b) eqn:E; [apply label_eqb_eq in E; contradiction | reflexivity].
Qed.

Lemma label_eqb_sym (a b : label) : label_eqb a b = label_eqb b a.
Proof.
  destruct (label_eqb a b) eqn:E.
  - apply label_eqb_eq in E; subst; now rewrite label_eqb_refl.
  - symmetry; apply label_eqb_neq; apply label_eqb_neq in E; congruence.
Qed.

Lemma bind_Ok {A B : Type} (m : result A) (k : A -> result B) (b : B) :
  bind m k = Ok b -> exists a, m = Ok a /\ k a = Ok b.
Proof. destruct m; simpl; [eauto | discriminate]. Qed.

(** Inversion of a chain of binds that ended well. *)
Ltac inv_bind H :=
  let a := fresh "x" in
  let Ha := fresh "E" in
  apply bind_Ok in H; destruct H as (a & Ha & H).

Lemma mem_string_In (x : string) (xs : list string) :
  mem_string x xs = true <-> In x xs.
Proof.
  unfold mem_string; rewrite existsb_exists; split.
  - intros (y & Hy & E); apply String.eqb_eq in E; now subst.
  - intro H; exists x; split; [assumption | apply String.eqb_refl].
Qed.

(* ------------------------------------------------------------------ *)
(** ** The rename dict *)

Lemma dict_get_set (d : list (label * string)) (k k' : label) (v : string) :
  dict_get (dict_set d k v) k' =
  if label_eqb k k' then Some v else dict_get d k'.
Proof.
  induction d as [|[k0 v0] d IH]; simpl.
  - reflexivity.
  - destruct (label_eqb k0 k) eqn:E0; simpl.
    + apply label_eqb_eq in E0; subst k0.
      destruct (label_eqb k k'); reflexivity.
    + destruct (label_eqb k0 k') eqn:E1.
      * apply label_eqb_eq in E1; subst k0.
        now rewrite label_eqb_sym, E0.
      * apply IH.
Qed.

Lemma first_match_Some (variations : list string) (cols : list label)
    (k : label) :
  first_match variations cols = Ok (Some k) ->
  exists pre post s,
    cols = pre ++ k :: post /\ k = LStr s /\ alias variations s = true /\
    Forall (fun c => exists s', c = LStr s' /\ alias variations s' = false)
           pre.
Proof.
  induction cols as [|c cols IH]; simpl; intro H; [discriminate|].
  destruct c as [s|z]; simpl in H; [|discriminate].
  fold (alias variations s) in H.
  destruct (alias variations s) eqn:Ea.
  - inversion H; subst k. exists [], cols, s. repeat split; auto.
  - destruct (IH H) as (pre & post & s0 & -> & -> & Hs0 & Hpre).
    exists (LStr s :: pre), post, s0. repeat split; auto.
    constructor; eauto.
Qed.

Lemma first_match_prefix (variations : list string) (pre post : list label)
    (s : string) :
  Forall (fun c => exists s', c = LStr s' /\ alias variations s' = false) pre ->
  alias variations s = true ->
  first_match variations (pre ++ LStr s :: post) = Ok (Some (LStr s)).
Proof.
  induction 1 as [|c pre (s' & -> & Hs') _ IH]; intro Hs; simpl.
  - fold (alias variations s). now rewrite Hs.
  - fold (alias variations s'). rewrite Hs'. now apply IH.
Qed.

Lemma first_match_total (variations : list string) (cols : list label) :
  Forall text_label cols -> exists m, first_match variations cols = Ok m.
Proof.
  induction 1 as [|c cols (s & ->) _ (m & IH)]; simpl; eauto.
  destruct (mem_string _ _); eauto.
Qed.

Lemma build_mapping_total (ms : list (string * list string))
    (cols : list label) (d : list (label * string)) :
  Forall text_label cols -> exists d', build_mapping ms cols d = Ok d'.
Proof.
  intro Hcols. revert d.
  induction ms as [|[std vars] ms IH]; intro d; simpl; eauto.
  destruct (first_match_total vars cols Hcols) as (m & ->); simpl.
  apply IH.
Qed.

(** Where an entry of the final dict comes from. *)
Lemma build_mapping_sound (ms : list (string * list string))
    (cols : list label) (d d' : list (label * string)) (k : label)
    (s : string) :
  build_mapping ms cols d = Ok d' ->
  dict_get d' k = Some s ->
  dict_get d k = Some s \/
  exists vars, In (s, vars) ms /\ first_match vars cols = Ok (Some k).
Proof.
  revert d.
  induction ms as [|[std vars] ms IH]; intros d Hb Hg; simpl in Hb.
  - inversion Hb; subst; auto.
  - inv_bind Hb. destruct (IH _ Hb Hg) as [Hd | (vars' & Hin & Hf)].
    + destruct x as [col|]; [|auto].
      rewrite dict_get_set in Hd.
      destruct (label_eqb col k) eqn:Ek; [|auto].
      apply label_eqb_eq in Ek; subst col. inversion Hd; subst s.
      right; exists vars; split; [now left | assumption].
    + right; exists vars'; split; [now right | assumption].
Qed.

Lemma build_mapping_keeps (ms : list (string * list string))
    (cols : list label) (d d' : list (label * string)) (k : label) :
  build_mapping ms cols d = Ok d' ->
  (exists s, dict_get d k = Some s) -> exists s, dict_get d' k = Some s.
Proof.
  revert d.
  induction ms as [|[std vars] ms IH]; intros d Hb Hg; simpl in Hb.
  - inversion Hb; subst; auto.
  - inv_bind Hb. apply (IH _ Hb).
    destruct x as [col|]; [|assumption].
    rewrite dict_get_set. destruct (label_eqb col k); eauto.
Qed.

Lemma build_mapping_complete (ms : list (string * list string))
    (cols : list label) (d d' : list (label * string)) (k : label)
    (std : string) (vars : list string) :
  build_mapping ms cols d = Ok d' ->
  In (std, vars) ms -> first_match vars cols = Ok (Some k) ->
  exists s, dict_get d' k = Some s.
Proof.
  revert d.
  induction ms as [|[std0 vars0] ms IH]; intros d Hb Hin Hf; simpl in Hb.
  - contradiction.
  - inv_bind Hb. destruct Hin as [Heq | Hin].
    + inversion Heq; subst std0 vars0. rewrite Hf in E; inversion E; subst x.
      apply (build_mapping_keeps _ _ _ _ _ Hb).
      rewrite dict_get_set, label_eqb_refl; eauto.
    + eapply IH; eauto.
Qed.

(* ------------------------------------------------------------------ *)
(** ** The synonym table *)

Lemma alias_exists (variations : list string) (s : string) :
  alias variations s = true <->
  exists v, In v variations /\ lower s = lower v.
Proof.
  unfold alias; rewrite mem_string_In, in_map_iff; split.
  - intros (v & E & Hv); eauto.
  - intros (v & Hv & E); eauto.
Qed.

(** No text is an alias of two canonical fields. *)
Lemma aliases_disjoint (m1 m2 : string * list string) (s : string) :
  In m1 get_column_mappings -> In m2 get_column_mappings ->
  alias (snd m1) s = true -> alias (snd m2) s = true -> m1 = m2.
Proof.
  intros H1 H2 A1 A2.
  apply alias_exists in A1; destruct A1 as (v1 & Hv1 & E1).
  apply alias_exists in A2; destruct A2 as (v2 & Hv2 & E2).
  rewrite E1 in E2; clear E1 s.
  assert (Hall : forallb (fun a => forallb (fun b =>
            forallb (fun x => forallb (fun y =>
              implb (String.eqb (lower x) (lower y))
                    (String.eqb (fst a) (fst b) &&
                     (length (snd a) =? length (snd b))%nat))
              (snd b)) (snd a)) get_column_mappings) get_column_mappings
          = true) by reflexivity.
  rewrite forallb_forall in Hall. specialize (Hall _ H1).
  rewrite forallb_forall in Hall. specialize (Hall _ H2).
  rewrite forallb_forall in Hall. specialize (Hall _ Hv1).
  rewrite forallb_forall in Hall. specialize (Hall _ Hv2).
  rewrite E2, String.eqb_refl in Hall; simpl in Hall.
  apply andb_prop in Hall; destruct Hall as [Hn _].
  apply String.eqb_eq in Hn.
  clear - H1 H2 Hn.
  simpl in H1, H2.
  repeat (destruct H1 as [H1|H1]; [subst m1|]); try contradiction;
    repeat (destruct H2 as [H2|H2]; [subst m2|]); try contradiction;
    simpl in Hn; try reflexivity; discriminate.
Qed.

(** A canonical name is an alias of its own field only. *)
Lemma canonical_alias (std s : string) (vars : list string) :
  In (std, vars) get_column_mappings -> In s canonical_fields ->
  alias vars s = true -> s = std.
Proof.
  intros Hm Hs Ha.
  apply in_map_iff in Hs; destruct Hs as ([s0 vars0] & E & Hm0).
  simpl in E; subst s0.
  assert (Hown : alias vars0 s = true).
  { clear - Hm0. simpl in Hm0.
    repeat (destruct Hm0 as [Hm0|Hm0];
            [inversion Hm0; subst; reflexivity|]); contradiction. }
  pose proof (aliases_disjoint (std, vars) (s, vars0) s Hm Hm0 Ha Hown) as E.
  now inversion E.
Qed.

(* ------------------------------------------------------------------ *)
(** ** Schema mapping *)

(** C7: a table whose columns are canonical field names comes back from
    [standardize_columns] as it is: the same labels in the same order and
    the same rows. *)
Theorem standardize_columns_canonical_noop (df : DataFrame) :
  Forall (fun l => exists s, l = LStr s /\ In s canonical_fields)
         (columns df) ->
  standardize_columns df = Ok df.
Proof.
  intro Hcan. unfold standardize_columns.
  assert (Htext : Forall text_label (columns df)).
  { eapply Forall_impl; [|exact Hcan]. intros l (s & -> & _); now exists s. }
  destruct (build_mapping_total get_column_mappings (columns df) [] Htext)
    as (d & Hd).
  rewrite Hd; cbn [bind]. unfold rename. destruct df as [n cols].
  unfold columns in *; cbn [nrows data] in *.
  f_equal. f_equal.
  rewrite <- (map_id cols) at 2. apply map_ext_in. intros [c cells] Hc.
  cbn [fst snd]. f_equal.
  apply (in_map fst) in Hc; cbn [fst] in Hc.
  unfold rename_label. destruct (dict_get d c) as [s|] eqn:Hg; [|reflexivity].
  destruct (build_mapping_sound _ _ _ _ _ _ Hd Hg) as [Hnil | (vars & Hin & Hf)];
    [discriminate|].
  apply first_match_Some in Hf.
  destruct Hf as (pre & post & s0 & Hcols & -> & Ha & _).
  rewrite Forall_forall in Hcan.
  destruct (Hcan _ Hc) as (s1 & E1 & Hs1). inversion E1; subst s1.
  now rewrite (canonical_alias s s0 vars Hin Hs1 Ha).
Qed.

Lemma standardize_columns_canonical_noop_witness :
  standardize_columns
    (mkDF 1 (map (fun s => (LStr s, [Str "x"])) canonical_fields)) =
  Ok (mkDF 1 (map (fun s => (LStr s, [Str "x"])) canonical_fields)).
Proof.
  apply standardize_columns_canonical_noop.
  simpl. repeat constructor; eexists; (split; [reflexivity|]); simpl; tauto.
Defined.

(** C2, as the code has it: where several columns alias one canonical
    field (all labels being text), [standardize_columns] raises nothing and
    leaves the cells alone; the FIRST aliasing column in the table's column
    order takes the canonical name, and every other aliasing column that
    carries a different label keeps its own label. *)
Theorem standardize_columns_first_alias_wins (df : DataFrame)
    (std : string) (vars : list string) (pre post : list label) (c : string) :
  In (std, vars) get_column_mappings ->
  Forall text_label (columns df) ->
  columns df = pre ++ LStr c :: post ->
  Forall (fun l => exists s, l = LStr s /\ alias vars s = false) pre ->
  alias vars c = true ->
  exists df',
    standardize_columns df = Ok df' /\
    nrows df' = nrows df /\
    map snd (data df') = map snd (data df) /\
    nth (length pre) (columns df') (LNum 0) = LStr std /\
    forall j s, nth_error (columns df) j = Some (LStr s) ->
      alias vars s = true -> s <> c ->
      nth_error (columns df') j = Some (LStr s).
Proof.
  intros Hm Htext Hcols Hpre Hc. unfold standardize_columns.
  destruct (build_mapping_total get_column_mappings (columns df) [] Htext)
    as (d & Hd).
  rewrite Hd; cbn [bind]. eexists; split; [reflexivity|].
  assert (Hfirst : first_match vars (columns df) = Ok (Some (LStr c))).
  { rewrite Hcols. now apply first_match_prefix. }
  (* whatever the dict holds for an alias of this field comes from it *)
  assert (Hfrom : forall s s', alias vars s = true ->
            dict_get d (LStr s) = Some s' -> s' = std /\ s = c).
  { intros s s' Hs Hg.
    destruct (build_mapping_sound _ _ _ _ _ _ Hd Hg) as [Hnil | (vars' & Hin & Hf)];
      [discriminate|].
    pose proof Hf as Hf'. apply first_match_Some in Hf'.
    destruct Hf' as (_ & _ & s0 & _ & E0 & Ha & _). inversion E0; subst s0.
    pose proof (aliases_disjoint (s', vars') (std, vars) s Hin Hm Ha Hs) as E.
    inversion E; subst s' vars'. rewrite Hfirst in Hf. now inversion Hf. }
  assert (Hren : columns (rename df d) = map (rename_label d) (columns df)).
  { unfold rename, columns; cbn [data]. rewrite !map_map. reflexivity. }
  repeat split.
  - unfold rename; cbn [data]. rewrite map_map. reflexivity.
  - rewrite Hren, Hcols, map_app; simpl.
    rewrite app_nth2; rewrite length_map; [|lia].
    rewrite Nat.sub_diag; simpl. unfold rename_label.
    destruct (build_mapping_complete _ _ _ _ _ _ _ Hd Hm Hfirst) as (s' & Hg).
    rewrite Hg. now destruct (Hfrom c s' Hc Hg) as [-> _].
  - intros j s Hj Hs Hne. rewrite Hren, nth_error_map, Hj; simpl.
    unfold rename_label. destruct (dict_get d (LStr s)) as [s'|] eqn:Hg;
      [|reflexivity].
    destruct (Hfrom s s' Hs Hg) as [_ E]. contradiction.
Qed.

Lemma standardize_columns_first_alias_wins_witness :
  exists df',
    standardize_columns
      (mkDF 1 [(LStr "source_file", [Str "a.xlsx"]); (LStr "ID", [Num 1]);
               (LStr "ticket_id", [Num 2])]) = Ok df' /\
    nth 1 (columns df') (LNum 0) = LStr "incident_id" /\
    nth_error (columns df') 2 = Some (LStr "ticket_id").
Proof.
  destruct (standardize_columns_first_alias_wins
              (mkDF 1 [(LStr "source_file", [Str "a.xlsx"]);
                       (LStr "ID", [Num 1]); (LStr "ticket_id", [Num 2])])
              "incident_id"
              ["incident_id"; "id"; "ticket_id"; "case_id"; "incident_number"]
              [LStr "source_file"] [LStr "ticket_id"] "ID")
    as (df' & H & _ & _ & Hfirst & Hrest).
  - simpl; tauto.
  - simpl; repeat constructor; eexists; reflexivity.
  - reflexivity.
  - repeat constructor. eexists; split; reflexivity.
  - reflexivity.
  - exists df'. split; [exact H|]. split; [exact Hfirst|].
    apply (Hrest 2%nat "ticket_id"); [reflexivity | reflexivity | discriminate].
Defined.

(** A header cell that is no text stops the mapping: it has no [lower]. *)
Lemma standardize_columns_numeric_header_raises :
  standardize_columns (mkDF 1 [(LNum 2024, [Num 1]); (LStr "id", [Num 7])])
  = Raise AttributeError.
Proof. reflexivity. Qed.

(** C2 as the claim words it fails: with columns [id] and [ticket_id], both
    aliases of [incident_id], the canonical field holds the earlier column,
    not the later one. *)
Lemma standardize_columns_last_alias_counterexample :
  let df := mkDF 1 [(LStr "id", [Num 1]); (LStr "ticket_id", [Num 2])] in
  standardize_columns df =
    Ok (mkDF 1 [(LStr "incident_id", [Num 1]); (LStr "ticket_id", [Num 2])]) /\
  getitem df (LStr "ticket_id") = Ok (Series [Num 2]) /\
  ~ (exists df', standardize_columns df = Ok df' /\
       getitem df' (LStr "incident_id") = getitem df (LStr "ticket_id")).
Proof.
  simpl. split; [reflexivity|]. split; [reflexivity|].
  intros (df' & H & G). vm_compute in H. inversion H; subst df'.
  vm_compute in G. discriminate.
Qed.

(* ------------------------------------------------------------------ *)
(** ** Columns by label *)

Lemma has_column_named (df : DataFrame) (l : label) :
  has_column df l = negb (length (columns_named df l) =? 0)%nat.
Proof.
  unfold has_column, columns_named, columns.
  induction (data df) as [|[c cells] d IH]; simpl; [reflexivity|].
  destruct (label_eqb c l); simpl; [reflexivity | exact IH].
Qed.

Lemma has_column_false (df : DataFrame) (l : label) :
  has_column df l = false <-> columns_named df l = [].
Proof.
  rewrite has_column_named.
  destruct (columns_named df l); simpl; split; congruence.
Qed.

Lemma has_column_congr (df df' : DataFrame) (l : label) :
  columns_named df' l = columns_named df l ->
  has_column df' l = has_column df l.
Proof. intro H. now rewrite !has_column_named, H. Qed.

Lemma getitem_congr (df df' : DataFrame) (l : label) :
  columns_named df' l = columns_named df l -> getitem df' l = getitem df l.
Proof. intro H. unfold getitem. now rewrite H. Qed.

Lemma getitem_Series (df : DataFrame) (l : label) (cells : list cell) :
  getitem df l = Ok (Series cells) <-> columns_named df l = [cells].
Proof.
  unfold getitem. destruct (columns_named df l) as [|c [|c' cs]]; split;
    intro H; try discriminate; inversion H; reflexivity.
Qed.

Lemma getitem_Frame (df : DataFrame) (l : label) (cols : list (list cell)) :
  getitem df l = Ok (Frame cols) ->
  columns_named df l = cols /\ 2 <= length cols.
Proof.
  unfold getitem. destruct (columns_named df l) as [|c [|c' cs]];
    intro H; try discriminate. inversion H; subst. simpl; split; [reflexivity | lia].
Qed.

Lemma getitem_has_column (df : DataFrame) (l : label) :
  has_column df l = true -> exists s, getitem df l = Ok s.
Proof.
  rewrite has_column_named. unfold getitem.
  destruct (columns_named df l) as [|c [|c' cs]]; simpl; intro H;
    [discriminate | eauto | eauto].
Qed.

Lemma named_replace (d : list (label * list cell)) (l l' : label)
    (values : list cell) :
  map snd (filter (fun c => label_eqb (fst c) l')
             (map (fun c => if label_eqb (fst c) l then (fst c, values) else c)
                  d)) =
  if label_eqb l l'
  then repeat values (length (filter (fun c => label_eqb (fst c) l) d))
  else map snd (filter (fun c => label_eqb (fst c) l') d).
Proof.
  induction d as [|[c cells] d IH]; simpl.
  - now destruct (label_eqb l l').
  - destruct (label_eqb c l) eqn:E; simpl.
    + apply label_eqb_eq in E; subst c.
      destruct (label_eqb l l'); simpl; now rewrite IH.
    + destruct (label_eqb l l') eqn:E'.
      * apply label_eqb_eq in E'; subst l'. now rewrite E.
      * destruct (label_eqb c l'); simpl; now rewrite IH.
Qed.

(** What an assignment [df[l] = values] does to the columns of each label. *)
Lemma setitem_inv (df df' : DataFrame) (l : label) (values : list cell) :
  setitem df l values = Ok df' ->
  length values = nrows df /\ nrows df' = nrows df /\
  (forall l', l' <> l -> columns_named df' l' = columns_named df l') /\
  columns_named df' l =
    values :: repeat values (pred (length (columns_named df l))).
Proof.
  unfold setitem, len. destruct (length values =? nrows df)%nat eqn:El;
    simpl; [|discriminate].
  apply Nat.eqb_eq in El.
  destruct (has_column df l) eqn:Eh; intro H; inversion H; subst df'; clear H;
    cbn [nrows]; (split; [assumption|]); (split; [reflexivity|]);
    unfold columns_named; cbn [data]; split.
  - intros l' Hne. rewrite named_replace.
    apply label_eqb_neq in Hne. now rewrite label_eqb_sym, Hne.
  - rewrite named_replace, label_eqb_refl.
    rewrite has_column_named in Eh. unfold columns_named in Eh.
    rewrite length_map in Eh. rewrite length_map.
    destruct (length (filter _ (data df))) as [|n]; [discriminate|].
    reflexivity.
  - intros l' Hne. rewrite filter_app, map_app; simpl.
    apply label_eqb_neq in Hne. rewrite label_eqb_sym in Hne.
    rewrite Hne. simpl. now rewrite app_nil_r.
  - apply has_column_false in Eh. unfold columns_named in Eh.
    rewrite filter_app, map_app, Eh; simpl. rewrite label_eqb_refl.
    reflexivity.
Qed.

Lemma setitem_total (df : DataFrame) (l : label) (values : list cell) :
  length values = nrows df -> exists df', setitem df l values = Ok df'.
Proof.
  intro H. unfold setitem, len. rewrite H, Nat.eqb_refl; simpl.
  destruct (has_column df l); eauto.
Qed.

Lemma setitem_fresh (df df' : DataFrame) (l : label) (values : list cell) :
  setitem df l values = Ok df' -> has_column df l = false ->
  columns_named df' l = [values].
Proof.
  unfold setitem, len. destruct (negb _); [discriminate|].
  intros H Eh. rewrite Eh in H. inversion H; subst df'.
  apply has_column_false in Eh. unfold columns_named in *; cbn [data].
  rewrite filter_app, map_app, Eh; simpl. now rewrite label_eqb_refl.
Qed.

Lemma mapM_Forall2 {A B : Type} (f : A -> result B) (l : list A)
    (l' : list B) :
  mapM f l = Ok l' -> Forall2 (fun a b => f a = Ok b) l l'.
Proof.
  revert l'. induction l as [|a l IH]; simpl; intros l' H.
  - inversion H; constructor.
  - inv_bind H. inv_bind H. inversion H; subst. constructor; auto.
Qed.

Lemma mapM_total {A B : Type} (f : A -> result B) (l : list A) :
  Forall (fun a => exists b, f a = Ok b) l -> exists l', mapM f l = Ok l'.
Proof.
  induction 1 as [|a l (b & Hb) _ (l' & IH)]; simpl; eauto.
  rewrite Hb, IH; simpl; eauto.
Qed.

Lemma Forall2_nth_error {A B : Type} (R : A -> B -> Prop) (l : list A)
    (l' : list B) (k : nat) (a : A) :
  Forall2 R l l' -> nth_error l k = Some a ->
  exists b, nth_error l' k = Some b /\ R a b.
Proof.
  intro H. revert k. induction H as [|x y l l' Hxy _ IH]; intros [|k] Hk;
    simpl in *; try discriminate.
  - inversion Hk; subst; eauto.
  - eauto.
Qed.

Lemma nth_error_map2 {A B C : Type} (f : A -> B -> C) (la : list A)
    (lb : list B) (k : nat) (a : A) (b : B) :
  nth_error la k = Some a -> nth_error lb k = Some b ->
  nth_error (map2 f la lb) k = Some (f a b).
Proof.
  revert lb k. induction la as [|x la IH]; intros [|y lb] [|k] Ha Hb;
    simpl in *; try discriminate.
  - now inversion Ha; inversion Hb.
  - now apply IH.
Qed.

Lemma length_map2 {A B C : Type} (f : A -> B -> C) (la : list A)
    (lb : list B) :
  length la = length lb -> length (map2 f la lb) = length la.
Proof.
  revert lb. induction la as [|x la IH]; intros [|y lb] H; simpl in *;
    try discriminate; auto.
Qed.

(* ------------------------------------------------------------------ *)
(** ** The steps of the normalization *)

Section NormalizationFacts.

Variable now : Z.
Variable parse_datetime : list cell -> cell -> option Z.

Lemma text_fields_required (f : string) :
  In f text_fields -> In f required_columns.
Proof. simpl; intuition. Qed.

Lemma add_missing_column_inv (df df' : DataFrame) (col : string) :
  add_missing_column now df col = Ok df' ->
  nrows df' = nrows df /\
  (forall l, l <> LStr col -> columns_named df' l = columns_named df l) /\
  (has_column df (LStr col) = true -> df' = df) /\
  (has_column df (LStr col) = false -> In col text_fields ->
   columns_named df' (LStr col) = [repeat (Str "Unknown") (nrows df)]) /\
  (In col required_columns -> has_column df' (LStr col) = true).
Proof.
  unfold add_missing_column.
  destruct (has_column df (LStr col)) eqn:Eh; cbn [negb].
  - intro H; inversion H; subst df'. repeat split; auto; discriminate.
  - intro H.
    assert (Hset : (exists values, setitem df (LStr col) values = Ok df' /\
                      (In col text_fields ->
                       values = repeat (Str "Unknown") (nrows df))) \/
                   (df' = df /\ ~ In col required_columns)).
    { destruct (String.eqb col "incident_id") eqn:E1.
      - apply String.eqb_eq in E1; subst col. left; eexists; split; [exact H|].
        simpl; intuition discriminate.
      - destruct (mem_string col text_fields) eqn:E2.
        + left; eexists; split; [exact H|]. reflexivity.
        + destruct (mem_string col ["created_date"; "resolved_date"]) eqn:E3.
          * left; eexists; split; [exact H|].
            intro Hin; apply mem_string_In in Hin; congruence.
          * right. inversion H; subst df'. split; [reflexivity|].
            intro Hin. apply String.eqb_neq in E1.
            assert (Hn2 : ~ In col text_fields)
              by (intro Hc; apply mem_string_In in Hc; congruence).
            assert (Hn3 : ~ In col ["created_date"; "resolved_date"])
              by (intro Hc; apply mem_string_In in Hc; congruence).
            simpl in Hin, Hn2, Hn3. intuition congruence. }
    destruct Hset as [(values & Hs & Hv) | (-> & Hnot)].
    + pose proof (setitem_fresh _ _ _ _ Hs Eh) as Hfresh.
      destruct (setitem_inv _ _ _ _ Hs) as (_ & Hn & Hother & _).
      repeat split; auto.
      * discriminate.
      * intros _ Hin. now rewrite Hfresh, (Hv Hin).
      * intros _. rewrite has_column_named, Hfresh. reflexivity.
    + repeat split; auto; try discriminate; try tauto.
      intros _ Hin. elim Hnot. now apply text_fields_required.
Qed.

Lemma add_missing_fold_inv (cols : list string) (df df' : DataFrame) :
  foldM (add_missing_column now) cols df = Ok df' ->
  NoDup cols -> incl cols required_columns ->
  nrows df' = nrows df /\
  (forall l, (forall c, In c cols -> l <> LStr c) ->
             columns_named df' l = columns_named df l) /\
  (forall c, In c cols ->
     has_column df' (LStr c) = true /\
     (has_column df (LStr c) = true ->
      columns_named df' (LStr c) = columns_named df (LStr c)) /\
     (has_column df (LStr c) = false -> In c text_fields ->
      columns_named df' (LStr c) = [repeat (Str "Unknown") (nrows df)])).
Proof.
  revert df. induction cols as [|c0 cols IH]; intros df H Hnd Hincl;
    cbn [foldM] in H.
  - inversion H; subst df'. split; [reflexivity|]. split; [reflexivity|].
    intros c [].
  - inv_bind H. rename x into df1.
    inversion Hnd as [|? ? Hnotin Hnd']; subst.
    destruct (add_missing_column_inv _ _ _ E)
      as (Hn1 & Hother1 & Hsame1 & Hfill1 & Hhas1).
    destruct (IH df1 H Hnd' (fun c Hc => Hincl c (or_intror Hc)))
      as (Hn & Hother & Hcols).
    split; [congruence|]. split.
    + intros l Hl. rewrite Hother by (intros c Hc; apply Hl; now right).
      apply Hother1. apply Hl; now left.
    + intros c [-> | Hc].
      * assert (Hkeep : columns_named df' (LStr c) = columns_named df1 (LStr c)).
        { apply Hother. intros c' Hc' E'. inversion E'; subst c'.
          contradiction. }
        split; [|split].
        -- rewrite (has_column_congr _ _ _ Hkeep). apply Hhas1.
           apply Hincl; now left.
        -- intro Hh. rewrite Hkeep. now rewrite (Hsame1 Hh).
        -- intros Hh Hin. rewrite Hkeep. now apply Hfill1.
      * assert (Hne : LStr c <> LStr c0)
          by (intro E'; inversion E'; subst c0; contradiction).
        destruct (Hcols c Hc) as (Hhas & Hsame & Hfill).
        rewrite (has_column_congr _ _ _ (Hother1 _ Hne)) in Hsame, Hfill.
        rewrite (Hother1 _ Hne), Hn1 in *. auto.
Qed.

Lemma required_columns_NoDup : NoDup required_columns.
Proof.
  unfold required_columns.
  repeat (constructor; [simpl; intuition discriminate|]). constructor.
Qed.

Lemma convert_date_column_inv (df df' : DataFrame) (col : string) :
  convert_date_column parse_datetime df col = Ok df' ->
  nrows df' = nrows df /\
  (forall l, l <> LStr col -> columns_named df' l = columns_named df l) /\
  (has_column df (LStr col) = true ->
   exists cells,
     columns_named df (LStr col) = [cells] /\ length cells = nrows df /\
     columns_named df' (LStr col) =
       [map (to_datetime_cell parse_datetime cells) cells]).
Proof.
  unfold convert_date_column.
  destruct (has_column df (LStr col)) eqn:Eh.
  - intro H. inv_bind H. inv_bind H. rename x into s, x0 into values.
    destruct s as [cells | cols]; [|discriminate].
    cbn [to_datetime] in E0. inversion E0; subst values; clear E0.
    apply getitem_Series in E.
    destruct (setitem_inv _ _ _ _ H) as (Hl & Hn & Hother & Hsame).
    rewrite E in Hsame. cbn [length pred repeat] in Hsame.
    rewrite length_map in Hl.
    repeat split; auto. intros _. exists cells. auto.
  - intro H; inversion H; subst df'. repeat split; auto. discriminate.
Qed.

Lemma mapM_length {A B : Type} (f : A -> result B) (l : list A)
    (l' : list B) :
  mapM f l = Ok l' -> length l' = length l.
Proof.
  intro H. apply mapM_Forall2 in H. symmetry.
  induction H; simpl; congruence.
Qed.

Lemma datetime_series_inv (s : selection) (ds : list (option Z)) :
  datetime_series s = Ok ds ->
  exists cells, s = Series cells /\ mapM datetime_cell cells = Ok ds.
Proof. destruct s; simpl; [eauto | discriminate]. Qed.

(** What [calculate_derived_fields] leaves behind when it returns. *)
Lemma calculate_derived_fields_inv (df df' : DataFrame) :
  calculate_derived_fields df = Ok df' ->
  exists created cs rt bs,
    nrows df' = nrows df /\
    (forall l, l <> LStr "resolution_time" -> l <> LStr "month_year" ->
               l <> LStr "week_year" -> l <> LStr "is_overdue" ->
               columns_named df' l = columns_named df l) /\
    columns_named df (LStr "created_date") = [created] /\
    mapM datetime_cell created = Ok cs /\
    columns_named df' (LStr "resolution_time") = [rt] /\
    length rt = nrows df /\
    (has_column df (LStr "resolution_time") = true ->
     columns_named df (LStr "resolution_time") = [rt]) /\
    (has_column df (LStr "resolution_time") = false ->
     exists resolved rs,
       columns_named df (LStr "resolved_date") = [resolved] /\
       mapM datetime_cell resolved = Ok rs /\
       rt = map2 sub_hours rs cs) /\
    (exists n, columns_named df' (LStr "month_year") =
               repeat (map (dt_strftime strftime_Y_m) cs) (S n)) /\
    mapM (cell_gt 24) rt = Ok bs /\
    (exists n, columns_named df' (LStr "is_overdue") =
               repeat (map Bool bs) (S n)).
Proof.
  unfold calculate_derived_fields. intro H.
  inv_bind H. rename x into df1, E into H1.
  inv_bind H. rename x into sel_c, E into Hc.
  inv_bind H. rename x into cs, E into Hcs.
  inv_bind H. rename x into df2, E into H2.
  inv_bind H. rename x into sel_c', E into Hc'.
  inv_bind H. rename x into cs', E into Hcs'.
  inv_bind H. rename x into df3, E into H3.
  inv_bind H. rename x into sel_rt, E into Hrt.
  inv_bind H. rename x into ov, E into Hov.
  apply datetime_series_inv in Hcs. destruct Hcs as (created & -> & Hcs).
  apply getitem_Series in Hc.
  destruct (setitem_inv _ _ _ _ H2) as (_ & Hn2 & Ho2 & Hs2).
  destruct (setitem_inv _ _ _ _ H3) as (_ & Hn3 & Ho3 & Hs3).
  (* the resolution time is one column, or the last assignment fails *)
  destruct sel_rt as [rt | cols].
  2:{ exfalso. apply getitem_Frame in Hrt. destruct Hrt as (_ & Hlen).
      cbn [gt_scalar] in Hov. inv_bind Hov. inversion Hov; subst ov.
      apply mapM_length in E. cbn [setitem_sel] in H.
      destruct x as [|a [|b bss]]; simpl in E; try (rewrite <- E in Hlen; simpl in Hlen; lia);
        discriminate. }
  apply getitem_Series in Hrt.
  cbn [gt_scalar] in Hov. inv_bind Hov. rename x into bs, E into Hbs.
  inversion Hov; subst ov; clear Hov. cbn [setitem_sel] in H.
  destruct (setitem_inv _ _ _ _ H) as (Hl4 & Hn4 & Ho4 & Hs4).
  assert (Hrt1 : columns_named df1 (LStr "resolution_time") = [rt]).
  { rewrite <- Hrt. rewrite Ho3, Ho2 by discriminate. reflexivity. }
  assert (Hcreated : columns_named df (LStr "created_date") = [created] /\
                     nrows df1 = nrows df /\
                     (forall l, l <> LStr "resolution_time" ->
                        columns_named df1 l = columns_named df l) /\
                     (has_column df (LStr "resolution_time") = true ->
                      df1 = df) /\
                     (has_column df (LStr "resolution_time") = false ->
                      exists resolved rs,
                        columns_named df (LStr "resolved_date") = [resolved] /\
                        mapM datetime_cell resolved = Ok rs /\
                        rt = map2 sub_hours rs cs)).
  { destruct (has_column df (LStr "resolution_time")) eqn:Eh; cbn [negb] in H1.
    - inversion H1; subst df1. repeat split; auto; discriminate.
    - inv_bind H1. rename x into sel_r, E into Hr.
      inv_bind H1. rename x into sel_c0, E into Hc0.
      inv_bind H1. rename x into rs, E into Hrs.
      inv_bind H1. rename x into cs0, E into Hcs0.
      apply datetime_series_inv in Hrs. destruct Hrs as (resolved & -> & Hrs).
      apply datetime_series_inv in Hcs0. destruct Hcs0 as (created0 & -> & Hcs0).
      apply getitem_Series in Hr, Hc0.
      destruct (setitem_inv _ _ _ _ H1) as (_ & Hn1 & Ho1 & _).
      pose proof (setitem_fresh _ _ _ _ H1 Eh) as Hf1.
      rewrite Ho1, Hc0 in Hc by discriminate. inversion Hc; subst created0.
      rewrite Hcs in Hcs0. inversion Hcs0; subst cs0.
      rewrite Hf1 in Hrt1. inversion Hrt1; subst rt.
      repeat split; auto; try discriminate.
      intros _. exists resolved, rs. auto. }
  destruct Hcreated as (Hcr & Hn1 & Ho1 & Hsame1 & Hderived).
  exists created, cs, rt, bs.
  split; [congruence|]. split.
  { intros l N1 N2 N3 N4. now rewrite Ho4, Ho3, Ho2, Ho1. }
  split; [exact Hcr|]. split; [exact Hcs|]. split.
  { rewrite Ho4 by discriminate. exact Hrt. }
  split.
  { rewrite length_map in Hl4. apply mapM_length in Hbs. congruence. }
  split.
  { intro Hh. rewrite <- Hrt1. now rewrite (Hsame1 Hh). }
  split; [exact Hderived|]. split.
  { exists (pred (length (columns_named df1 (LStr "month_year")))).
    rewrite Ho4, Ho3 by discriminate. exact Hs2. }
  split; [exact Hbs|].
  exists (pred (length (columns_named df3 (LStr "is_overdue")))). exact Hs4.
Qed.

Lemma preprocess_data_inv (p p' : DataProcessor) :
  preprocess_data now parse_datetime p = (true, p') ->
  exists raw std df1 df2 df,
    raw_data p = Some raw /\
    standardize_columns raw = Ok std /\
    add_missing_columns now std = Ok df1 /\
    convert_date_columns parse_datetime df1 = Ok df2 /\
    calculate_derived_fields df2 = Ok df /\
    p' = mkProcessor (raw_data p) (Some df).
Proof.
  unfold preprocess_data. destruct (raw_data p) as [raw|]; [|discriminate].
  destruct (standardize_columns raw) as [std|] eqn:E1; cbn [bind try_except];
    [|discriminate].
  destruct (add_missing_columns now std) as [df1|] eqn:E2;
    cbn [bind try_except]; [|discriminate].
  destruct (convert_date_columns parse_datetime df1) as [df2|] eqn:E3;
    cbn [bind try_except]; [|discriminate].
  destruct (calculate_derived_fields df2) as [df|] eqn:E4;
    cbn [bind try_except]; [|discriminate].
  intro H; inversion H; subst p'.
  exists raw, std, df1, df2, df. auto 10.
Qed.

Lemma standardize_columns_nrows (raw std : DataFrame) :
  standardize_columns raw = Ok std -> nrows std = nrows raw.
Proof.
  unfold standardize_columns. intro H. inv_bind H.
  inversion H; subst std. reflexivity.
Qed.

Lemma text_field_not_derived (f : string) :
  In f text_fields ->
  LStr f <> LStr "created_date" /\ LStr f <> LStr "resolved_date" /\
  LStr f <> LStr "resolution_time" /\ LStr f <> LStr "month_year" /\
  LStr f <> LStr "week_year" /\ LStr f <> LStr "is_overdue".
Proof.
  simpl. intros [<-|[<-|[<-|[<-|[<-|[]]]]]]; repeat split; discriminate.
Qed.

(** The frame that reaches [calculate_derived_fields], column by
    column. *)
Lemma before_derived_fields (std df1 df2 : DataFrame) :
  add_missing_columns now std = Ok df1 ->
  convert_date_columns parse_datetime df1 = Ok df2 ->
  nrows df2 = nrows std /\
  (forall f, In f text_fields ->
     has_column df2 (LStr f) = true /\
     (has_column std (LStr f) = true ->
      columns_named df2 (LStr f) = columns_named std (LStr f)) /\
     (has_column std (LStr f) = false ->
      columns_named df2 (LStr f) = [repeat (Str "Unknown") (nrows std)])) /\
  columns_named df2 (LStr "resolution_time") =
    columns_named std (LStr "resolution_time") /\
  (exists c0, columns_named df2 (LStr "created_date") =
                [map (to_datetime_cell parse_datetime c0) c0] /\
              length c0 = nrows std) /\
  (exists r0, columns_named df2 (LStr "resolved_date") =
                [map (to_datetime_cell parse_datetime r0) r0] /\
              length r0 = nrows std).
Proof.
  intros Hadd Hconv.
  destruct (add_missing_fold_inv _ _ _ Hadd required_columns_NoDup
              (fun c Hc => Hc)) as (Hn1 & Ho1 & Hreq).
  unfold convert_date_columns in Hconv. cbn [foldM] in Hconv.
  inv_bind Hconv. rename x into dfa, E into Ha.
  inv_bind Hconv. rename x into dfb, E into Hb.
  inversion Hconv; subst dfb; clear Hconv.
  destruct (convert_date_column_inv _ _ _ Ha) as (Hna & Hoa & Hca).
  destruct (convert_date_column_inv _ _ _ Hb) as (Hnb & Hob & Hcb).
  assert (Hconv_other : forall l, l <> LStr "created_date" ->
            l <> LStr "resolved_date" ->
            columns_named df2 l = columns_named df1 l).
  { intros l N1 N2. now rewrite Hob, Hoa. }
  split; [congruence|]. split; [|split; [|split]].
  - intros f Hf.
    destruct (text_field_not_derived f Hf) as (N1 & N2 & _).
    destruct (Hreq f (text_fields_required f Hf)) as (Hhas & Hsame & Hfill).
    rewrite (has_column_congr _ _ _ (Hconv_other _ N1 N2)).
    rewrite (Hconv_other _ N1 N2). auto.
  - rewrite Hconv_other by discriminate. apply Ho1.
    intros c Hc E. inversion E; subst c. simpl in Hc.
    intuition discriminate.
  - destruct (Hreq "created_date") as (Hhas & _); [simpl; tauto|].
    destruct (Hca Hhas) as (c0 & _ & Hl & Hc0).
    exists c0. rewrite Hob by discriminate. split; [exact Hc0 | congruence].
  - destruct (Hreq "resolved_date") as (Hhas & _); [simpl; tauto|].
    rewrite <- (has_column_congr df1 dfa) in Hhas
      by (apply Hoa; discriminate).
    destruct (Hcb Hhas) as (r0 & _ & Hl & Hr0).
    exists r0. split; [exact Hr0 | congruence].
Qed.

End NormalizationFacts.

(* ------------------------------------------------------------------ *)
(** ** The normalized dataset *)

(** C1, as the code has it: after a successful [preprocess_data], each of
    [title], [category], [priority], [status], [assigned_team] that the
    schema-mapped table lacks is a column of "Unknown" (no null); a field
    whose column is present keeps the cells of the source, null cells
    included. *)
Theorem preprocess_data_text_fields (now : Z)
    (parse_datetime : list cell -> cell -> option Z) (p p' : DataProcessor) :
  preprocess_data now parse_datetime p = (true, p') ->
  exists raw std df,
    raw_data p = Some raw /\ standardize_columns raw = Ok std /\
    processed_data p' = Some df /\ nrows df = nrows raw /\
    forall f, In f text_fields ->
      (has_column std (LStr f) = false ->
       getitem df (LStr f) =
         Ok (Series (repeat (Str "Unknown") (nrows df)))) /\
      (has_column std (LStr f) = true ->
       getitem df (LStr f) = getitem std (LStr f)).
Proof.
  intro H. apply preprocess_data_inv in H.
  destruct H as (raw & std & df1 & df2 & df & Hraw & Hstd & Hadd & Hconv
                 & Hder & ->).
  destruct (before_derived_fields _ _ _ _ _ Hadd Hconv) as (Hn2 & Htext & _).
  destruct (calculate_derived_fields_inv _ _ Hder)
    as (created & cs & rt & bs & Hn & Hother & _).
  pose proof (standardize_columns_nrows _ _ Hstd) as Hn0.
  exists raw, std, df.
  split; [exact Hraw|]. split; [exact Hstd|]. split; [reflexivity|].
  split; [congruence|]. intros f Hf.
  destruct (text_field_not_derived f Hf) as (_ & _ & N3 & N4 & N5 & N6).
  destruct (Htext f Hf) as (_ & Hsame & Hfill).
  split; intro Hh.
  - apply getitem_Series. rewrite (Hother _ N3 N4 N5 N6), (Hfill Hh).
    do 2 f_equal. congruence.
  - apply getitem_congr. rewrite (Hother _ N3 N4 N5 N6). now apply Hsame.
Qed.

Lemma preprocess_data_text_fields_witness :
  exists raw std df,
    Some (mkDF 2 [(LStr "Summary", [Str "Disk full"; Null]);
                  (LStr "source_file", [Str "a.xlsx"; Str "a.xlsx"])])
      = Some raw /\
    standardize_columns raw = Ok std /\
    getitem df (LStr "priority") = Ok (Series (repeat (Str "Unknown") 2)) /\
    getitem df (LStr "title") = Ok (Series [Str "Disk full"; Null]).
Proof.
  destruct (preprocess_data_text_fields 0 (fun _ _ => None)
              (mkProcessor
                 (Some (mkDF 2 [(LStr "Summary", [Str "Disk full"; Null]);
                                (LStr "source_file",
                                 [Str "a.xlsx"; Str "a.xlsx"])])) None)
              (snd (preprocess_data 0 (fun _ _ => None)
                 (mkProcessor
                    (Some (mkDF 2 [(LStr "Summary", [Str "Disk full"; Null]);
                                   (LStr "source_file",
                                    [Str "a.xlsx"; Str "a.xlsx"])])) None)))
              eq_refl)
    as (raw & std & df & Hraw & Hstd & Hdf & Hn & Hfields).
  exists raw, std, df. split; [exact Hraw|]. split; [exact Hstd|].
  cbn [raw_data] in Hraw. inversion Hraw; subst raw.
  vm_compute in Hstd. inversion Hstd; subst std.
  vm_compute in Hdf. inversion Hdf; subst df; clear Hdf.
  split.
  - apply (Hfields "priority"); [simpl; tauto | reflexivity].
  - destruct (Hfields "title") as (_ & Hkeep); [simpl; tauto|].
    rewrite Hkeep; reflexivity.
Defined.

(** C1 as the claim words it fails: a sheet whose title column has an empty
    cell is loaded and normalized with success, and the record keeps its
    null title. *)
Lemma null_title_survives_normalization :
  let file :=
    UploadedFile.mk "a.xlsx"
      (Ok (mkDF 2 [(LStr "Title", [Str "Disk full"; Null]);
                   (LStr "Priority", [Str "High"; Str "Low"])])) in
  exists p p' df,
    load_excel_files new_processor [file] = Ok (true, p) /\
    preprocess_data 0 (fun _ _ => None) p = (true, p') /\
    processed_data p' = Some df /\
    getitem df (LStr "title") = Ok (Series [Str "Disk full"; Null]) /\
    ~ (forall cells, getitem df (LStr "title") = Ok (Series cells) ->
                     Forall (fun c => c <> Null) cells).
Proof.
  cbv zeta. eexists. eexists. eexists.
  split; [vm_compute; reflexivity|].
  split; [vm_compute; reflexivity|].
  split; [reflexivity|].
  split; [reflexivity|].
  intro H. specialize (H _ eq_refl).
  inversion H as [|? ? _ H']; subst. inversion H' as [|? ? Hnull _]; subst.
  now apply Hnull.
Qed.

Lemma hours_between_spec (c r : Z) :
  (hours_between c r == inject_Z (r - c) / inject_Z ns_per_hour)%Q.
Proof.
  unfold hours_between. rewrite Qred_correct, Qmake_Qdiv. reflexivity.
Qed.

Lemma datetime_cell_Date (col : list cell) (ds : list (option Z)) (k : nat)
    (t : Z) :
  mapM datetime_cell col = Ok ds -> nth_error col k = Some (Date t) ->
  nth_error ds k = Some (Some t).
Proof.
  intros H Hk. apply mapM_Forall2 in H.
  destruct (Forall2_nth_error _ _ _ _ _ H Hk) as (d & Hd & E).
  simpl in E. inversion E; subst d. exact Hd.
Qed.

(** C6: where no source column maps to [resolution_time], the normalized
    dataset has one column each for [created_date], [resolved_date] and
    [resolution_time], and in every record whose two dates are not null the
    resolution time is the number (resolved - created) in hours. *)
Theorem resolution_time_is_elapsed_hours (now : Z)
    (parse_datetime : list cell -> cell -> option Z) (p p' : DataProcessor)
    (raw std : DataFrame) :
  raw_data p = Some raw -> standardize_columns raw = Ok std ->
  has_column std (LStr "resolution_time") = false ->
  preprocess_data now parse_datetime p = (true, p') ->
  exists df created resolved rt,
    processed_data p' = Some df /\
    getitem df (LStr "created_date") = Ok (Series created) /\
    getitem df (LStr "resolved_date") = Ok (Series resolved) /\
    getitem df (LStr "resolution_time") = Ok (Series rt) /\
    length created = nrows df /\ length resolved = nrows df /\
    length rt = nrows df /\
    forall k c r,
      nth_error created k = Some (Date c) ->
      nth_error resolved k = Some (Date r) ->
      exists q, nth_error rt k = Some (Num q) /\
                (q == inject_Z (r - c) / inject_Z ns_per_hour)%Q.
Proof.
  intros Hraw Hstd Hno H. apply preprocess_data_inv in H.
  destruct H as (raw' & std' & df1 & df2 & df & Hraw' & Hstd' & Hadd & Hconv
                 & Hder & ->).
  rewrite Hraw in Hraw'; inversion Hraw'; subst raw'.
  rewrite Hstd in Hstd'; inversion Hstd'; subst std'.
  destruct (before_derived_fields _ _ _ _ _ Hadd Hconv)
    as (Hn2 & _ & Hrt2 & (c0 & Hc0 & Hlc0) & (r0 & Hr0 & Hlr0)).
  destruct (calculate_derived_fields_inv _ _ Hder)
    as (created & cs & rt & bs & Hn & Hother & Hcr & Hcs & Hrt & Hlrt & _
        & Hderived & _).
  assert (Hno2 : has_column df2 (LStr "resolution_time") = false)
    by (now rewrite (has_column_congr _ _ _ Hrt2)).
  destruct (Hderived Hno2) as (resolved & rs & Hres & Hrs & ->).
  exists df, created, resolved, (map2 sub_hours rs cs).
  split; [reflexivity|].
  split; [apply getitem_Series; now rewrite Hother by discriminate|].
  split; [apply getitem_Series; now rewrite Hother by discriminate|].
  split; [now apply getitem_Series|].
  rewrite Hc0 in Hcr; inversion Hcr; subst created.
  rewrite Hr0 in Hres; inversion Hres; subst resolved.
  rewrite !length_map.
  split; [congruence|]. split; [congruence|]. split; [congruence|].
  intros k c r Hc Hr.
  pose proof (datetime_cell_Date _ _ _ _ Hcs Hc) as Hck.
  pose proof (datetime_cell_Date _ _ _ _ Hrs Hr) as Hrk.
  exists (hours_between c r). split; [|apply hours_between_spec].
  now rewrite (nth_error_map2 sub_hours rs cs k (Some r) (Some c)).
Qed.

Lemma resolution_time_is_elapsed_hours_witness :
  exists df rt,
    processed_data
      (snd (preprocess_data 0 (fun _ _ => None)
         (mkProcessor
            (Some (mkDF 1 [(LStr "created", [Date 0]);
                           (LStr "closed_date", [Date (5 * ns_per_hour)])]))
            None))) = Some df /\
    getitem df (LStr "resolution_time") = Ok (Series rt) /\
    exists q, nth_error rt 0 = Some (Num q) /\ (q == 5)%Q.
Proof.
  edestruct (resolution_time_is_elapsed_hours 0 (fun _ _ => None)
              (mkProcessor
                 (Some (mkDF 1 [(LStr "created", [Date 0]);
                                (LStr "closed_date", [Date (5 * ns_per_hour)])]))
                 None))
    as (df & created & resolved & rt & Hdf & Hc & Hr & Hrt & _ & _ & _ & Hall);
    [ reflexivity | vm_compute; reflexivity | vm_compute; reflexivity
    | vm_compute; reflexivity | ].
  vm_compute in Hdf. inversion Hdf; subst df; clear Hdf.
  vm_compute in Hc. inversion Hc; subst created; clear Hc.
  vm_compute in Hr. inversion Hr; subst resolved; clear Hr.
  destruct (Hall 0%nat _ _ eq_refl eq_refl) as (q & Hq & Eq).
  eexists. exists rt. split; [vm_compute; reflexivity|]. split; [exact Hrt|].
  exists q. split; [exact Hq|]. rewrite Eq. reflexivity.
Defined.

(* ------------------------------------------------------------------ *)
(** ** The overdue flag and the summary *)

Lemma cell_gt_over_24h (c : cell) (b : bool) :
  cell_gt 24 c = Ok b -> b = over_24h c.
Proof.
  destruct c as [| |q| |[]]; simpl; intro H; try discriminate;
    inversion H; reflexivity.
Qed.

Lemma mapM_cell_gt_over_24h (rt : list cell) (bs : list bool) :
  mapM (cell_gt 24) rt = Ok bs -> bs = map over_24h rt.
Proof.
  intro H. apply mapM_Forall2 in H.
  induction H as [|c b rt bs Hc _ IH]; simpl; [reflexivity|].
  now rewrite (cell_gt_over_24h _ _ Hc), IH.
Qed.

Lemma over_24h_iff (c : cell) :
  over_24h c = true <-> exists q, c = Num q /\ (24 < q)%Q.
Proof.
  destruct c as [| |q| |]; simpl; split; try discriminate;
    try (intros (q' & E & _); discriminate).
  - intro H. exists q. split; [reflexivity|].
    apply Qnot_le_lt. intro Hle. apply Qle_bool_iff in Hle.
    rewrite Hle in H. discriminate.
  - intros (q' & E & Hlt). inversion E; subst q'.
    destruct (Qle_bool q 24) eqn:Hle; [|reflexivity].
    apply Qle_bool_iff in Hle. exfalso. now apply (Qlt_not_le _ _ Hlt).
Qed.

Lemma numbers_of_compared (k : Q) (cells : list cell) (bs : list bool) :
  mapM (cell_gt k) cells = Ok bs -> exists qs, numbers cells = Ok qs.
Proof.
  intro H. apply mapM_Forall2 in H.
  induction H as [|c b cells bs Hc _ (qs & IH)]; simpl; [eauto|].
  destruct c as [| |q| |b0]; simpl in Hc; try discriminate; simpl;
    rewrite IH; simpl; eauto.
Qed.

Lemma numbers_Bool (bs : list bool) :
  numbers (map Bool bs) = Ok (map bool_Q bs).
Proof.
  induction bs as [|b bs IH]; simpl; [reflexivity|].
  rewrite IH. reflexivity.
Qed.

Lemma Qsum_bools (bs : list bool) :
  (Qsum (map bool_Q bs) == inject_Z (Z.of_nat (count_true bs)))%Q.
Proof.
  unfold count_true.
  induction bs as [|[] bs IH]; cbn [map Qsum fold_right filter length].
  - reflexivity.
  - fold (Qsum (map bool_Q bs)). rewrite IH, Nat2Z.inj_succ.
    unfold Z.succ. rewrite inject_Z_plus. unfold bool_Q. ring.
  - fold (Qsum (map bool_Q bs)). rewrite IH. unfold bool_Q. ring.
Qed.

Lemma Qred_inject_Z (z : Z) : Qred (inject_Z z) = inject_Z z.
Proof.
  unfold Qred, inject_Z.
  pose proof (Z.ggcd_gcd z 1) as Hg.
  pose proof (Z.ggcd_correct_divisors z 1) as Hd.
  destruct (Z.ggcd z 1) as (g & a & b). cbn [fst] in Hg.
  rewrite Z.gcd_1_r in Hg. subst g. destruct Hd as (Ha & Hb).
  rewrite !Z.mul_1_l in *. subst a b. reflexivity.
Qed.

Lemma series_sum_Bool (bs : list bool) :
  series_sum (map Bool bs) = Ok (Num (inject_Z (Z.of_nat (count_true bs)))).
Proof.
  unfold series_sum. rewrite numbers_Bool. cbn [bind].
  do 2 f_equal. rewrite <- Qred_inject_Z. apply Qred_complete, Qsum_bools.
Qed.

Lemma count_true_map {A : Type} (f : A -> bool) (l : list A) :
  count_true (map f l) = length (filter f l).
Proof.
  unfold count_true. induction l as [|a l IH]; simpl; [reflexivity|].
  destruct (f a); simpl; now rewrite IH.
Qed.

Lemma mapM_repeat {A B : Type} (f : A -> result B) (a : A) (b : B) (n : nat) :
  f a = Ok b -> mapM f (repeat a n) = Ok (repeat b n).
Proof.
  intro H. induction n as [|n IH]; simpl; [reflexivity|].
  now rewrite H, IH.
Qed.

Lemma reduce_repeat (f : list cell -> result cell) (df : DataFrame)
    (l : label) (cells : list cell) (v : cell) (n : nat) :
  columns_named df l = repeat cells (S n) -> f cells = Ok v ->
  exists s r, getitem df l = Ok s /\ reduce f s = Ok r /\ reduced_all v r.
Proof.
  intros Hcols Hf. unfold getitem. rewrite Hcols.
  destruct n as [|n]; cbn [repeat]; eexists; eexists;
    (split; [reflexivity|]); cbn [reduce].
  - rewrite Hf. cbn [bind]. split; reflexivity.
  - change (cells :: cells :: repeat cells n) with (repeat cells (S (S n))).
    rewrite (mapM_repeat f cells v _ Hf). cbn [bind].
    split; [reflexivity|]. cbn [reduced_all].
    apply Forall_forall. intros x Hx. apply repeat_spec in Hx. now subst.
Qed.

Lemma reduce_total (f : list cell -> result cell) (s : selection) :
  (forall cells, exists v, f cells = Ok v) -> exists r, reduce f s = Ok r.
Proof.
  intro Hf. destruct s as [cells | cols]; simpl.
  - destruct (Hf cells) as (v & ->). simpl; eauto.
  - destruct (mapM_total f cols) as (vs & ->); simpl; eauto.
    apply Forall_forall. intros c _. apply Hf.
Qed.

Lemma series_min_max_date_total (cells : list cell) (ds : list (option Z)) :
  mapM datetime_cell cells = Ok ds ->
  (exists v, series_min_date cells = Ok v) /\
  (exists v, series_max_date cells = Ok v).
Proof.
  intro H. unfold series_min_date, series_max_date. rewrite H; simpl; eauto.
Qed.

(** C9: after a successful [preprocess_data] the flag [is_overdue] of a
    record is true exactly when its [resolution_time] is a number above 24
    (so never when it is null or negative), and [overdue_incidents] of the
    summary counts exactly those records. *)
Theorem is_overdue_iff_above_24h (now : Z)
    (parse_datetime : list cell -> cell -> option Z) (p p' : DataProcessor) :
  preprocess_data now parse_datetime p = (true, p') ->
  exists df rt ov n s,
    processed_data p' = Some df /\
    getitem df (LStr "resolution_time") = Ok (Series rt) /\
    columns_named df (LStr "is_overdue") = repeat ov (S n) /\
    length rt = nrows df /\ length ov = nrows df /\
    (forall k c, nth_error rt k = Some c ->
       exists b, nth_error ov k = Some (Bool b) /\
                 (b = true <-> exists q, c = Num q /\ (24 < q)%Q)) /\
    get_data_summary p' = Ok (Some s) /\
    reduced_all (Num (inject_Z (Z.of_nat (length (filter over_24h rt)))))
                (overdue_incidents s).
Proof.
  intro H. apply preprocess_data_inv in H.
  destruct H as (raw & std & df1 & df2 & df & Hraw & Hstd & Hadd & Hconv
                 & Hder & ->).
  destruct (before_derived_fields _ _ _ _ _ Hadd Hconv)
    as (Hn2 & Htext & _ & _ & _).
  destruct (calculate_derived_fields_inv _ _ Hder)
    as (created & cs & rt & bs & Hn & Hother & Hcr & Hcs & Hrt & Hlrt & _
        & _ & _ & Hbs & (n & Hov)).
  pose proof (mapM_cell_gt_over_24h _ _ Hbs) as Ebs. subst bs.
  (* the four reductions of the summary *)
  destruct (numbers_of_compared _ _ _ Hbs) as (qs & Hqs).
  assert (Hmean : exists v, series_mean rt = Ok v).
  { unfold series_mean. rewrite Hqs; simpl. destruct qs; eauto. }
  destruct Hmean as (avg & Havg).
  destruct (reduce_repeat series_sum df (LStr "is_overdue") _ _ n Hov
              (series_sum_Bool _)) as (sel & overdue & Hsel & Hoverdue & Hall).
  rewrite count_true_map in Hall.
  assert (Hteam : has_column df (LStr "assigned_team") = true).
  { destruct (Htext "assigned_team") as (Hh & _); [simpl; tauto|].
    rewrite (has_column_congr df2 df); [exact Hh|].
    apply Hother; discriminate. }
  destruct (getitem_has_column _ _ Hteam) as (teams & Hteams).
  destruct (reduce_total
              (fun cells =>
                 Ok (Num (inject_Z (Z.of_nat (series_nunique cells))))) teams)
    as (nteams & Hnteams); [eauto|].
  assert (Hcreated : getitem df (LStr "created_date") = Ok (Series created)).
  { apply getitem_Series. now rewrite Hother by discriminate. }
  destruct (series_min_max_date_total _ _ Hcs) as ((lo & Hlo) & (hi & Hhi)).
  exists df, rt, (map Bool (map over_24h rt)), n,
    (mkSummary (len df) (Scalar avg) overdue nteams (Scalar lo) (Scalar hi)).
  split; [reflexivity|]. split; [now apply getitem_Series|].
  split; [exact Hov|]. split; [congruence|].
  split; [rewrite !length_map; congruence|]. split.
  - intros k c Hk. exists (over_24h c). split.
    + rewrite !nth_error_map, Hk. reflexivity.
    + apply over_24h_iff.
  - split; [|exact Hall].
    unfold get_data_summary; cbn [processed_data].
    apply getitem_Series in Hrt. rewrite Hrt. cbn [bind reduce].
    rewrite Havg. cbn [bind]. rewrite Hsel. cbn [bind].
    rewrite Hoverdue. cbn [bind].
    rewrite Hteams. cbn [bind]. rewrite Hnteams. cbn [bind].
    rewrite Hcreated. cbn [bind reduce]. rewrite Hlo, Hhi. reflexivity.
Qed.

Lemma is_overdue_iff_above_24h_witness :
  exists df s,
    processed_data
      (snd (preprocess_data 0 (fun _ _ => None)
         (mkProcessor
            (Some (mkDF 3 [(LStr "sla_time", [Num 30; Null; Num (-2)])]))
            None))) = Some df /\
    getitem df (LStr "is_overdue") =
      Ok (Series [Bool true; Bool false; Bool false]) /\
    overdue_incidents s = Scalar (Num 1).
Proof.
  edestruct (is_overdue_iff_above_24h 0 (fun _ _ => None)
              (mkProcessor
                 (Some (mkDF 3 [(LStr "sla_time", [Num 30; Null; Num (-2)])]))
                 None))
    as (df & rt & ov & n & s & Hdf & Hrt & Hov & _ & _ & _ & Hs & Hall);
    [vm_compute; reflexivity|].
  exists df, s.
  vm_compute in Hdf. inversion Hdf; subst df; clear Hdf.
  vm_compute in Hs. inversion Hs; subst s; clear Hs.
  split; [vm_compute; reflexivity|].
  split; [vm_compute; reflexivity|]. reflexivity.
Defined.

(* ------------------------------------------------------------------ *)
(** ** Loading *)

Lemma nodup_labels_NoDup (cols : list label) :
  nodup_labels cols = true <-> NoDup cols.
Proof.
  induction cols as [|c cols IH]; simpl.
  - split; [constructor | reflexivity].
  - rewrite andb_true_iff, negb_true_iff, IH. split.
    + intros (Hc & Hnd). constructor; [|assumption].
      intro Hin. assert (existsb (fun x => label_eqb x c) cols = true).
      { apply existsb_exists. exists c. split; [assumption | apply label_eqb_refl]. }
      congruence.
    + intro H. inversion H as [|? ? Hnotin Hnd]; subst. split; [|assumption].
      destruct (existsb _ cols) eqn:E; [|reflexivity].
      apply existsb_exists in E. destruct E as (x & Hx & Ex).
      apply label_eqb_eq in Ex; subst x. contradiction.
Qed.

Lemma existsb_label_In (l : label) (cols : list label) :
  existsb (fun x => label_eqb x l) cols = true <-> In l cols.
Proof.
  rewrite existsb_exists. split.
  - intros (x & Hx & E). apply label_eqb_eq in E. now subst.
  - intro H. exists l. split; [assumption | apply label_eqb_refl].
Qed.

Lemma union_labels_spec (more acc : list label) :
  NoDup acc ->
  NoDup (union_labels acc more) /\
  forall l, In l (union_labels acc more) <-> In l acc \/ In l more.
Proof.
  unfold union_labels. revert acc.
  induction more as [|m more IH]; intros acc Hnd; simpl.
  - split; [assumption | intro l; tauto].
  - destruct (existsb (fun x => label_eqb x m) acc) eqn:E.
    + apply existsb_label_In in E.
      destruct (IH acc Hnd) as (Hnd' & Hin). split; [assumption|].
      intro l. rewrite Hin. intuition (subst; auto).
    + assert (Hnotin : ~ In m acc).
      { intro Hin. apply existsb_label_In in Hin. congruence. }
      assert (Hnd1 : NoDup (acc ++ [m])).
      { apply NoDup_app; [assumption | repeat constructor; intros [] |].
        intros x Hx [<- | []]. contradiction. }
      destruct (IH _ Hnd1) as (Hnd' & Hin). split; [assumption|].
      intro l. rewrite Hin, in_app_iff. simpl. tauto.
Qed.

Lemma concat_labels_spec (frames : list DataFrame) (acc : list label) :
  NoDup acc ->
  NoDup (fold_left (fun acc df => union_labels acc (columns df)) frames acc) /\
  forall l,
    In l (fold_left (fun acc df => union_labels acc (columns df)) frames acc)
    <-> In l acc \/ exists df, In df frames /\ In l (columns df).
Proof.
  revert acc. induction frames as [|df frames IH]; intros acc Hnd; simpl.
  - split; [assumption|]. intro l. split; [tauto|]. intros [H | (df & [] & _)].
    assumption.
  - destruct (union_labels_spec (columns df) acc Hnd) as (Hnd1 & Hin1).
    destruct (IH _ Hnd1) as (Hnd' & Hin). split; [assumption|].
    intro l. rewrite Hin, Hin1. split.
    + intros [[H | H] | (df' & Hdf' & H)]; eauto.
    + intros [H | (df' & [<- | Hdf'] & H)]; eauto.
Qed.

Lemma named_of_labels (labels : list label) (g : label -> list cell)
    (l : label) :
  NoDup labels -> In l labels ->
  map snd (filter (fun c => label_eqb (fst c) l)
             (map (fun l => (l, g l)) labels)) = [g l].
Proof.
  induction labels as [|c labels IH]; intros Hnd Hin; [contradiction|].
  inversion Hnd as [|? ? Hnotin Hnd']; subst. simpl.
  destruct (label_eqb c l) eqn:E.
  - apply label_eqb_eq in E; subst c. simpl. f_equal.
    assert (Hnone : forall ls, ~ In l ls ->
              filter (fun c => label_eqb (fst c) l)
                     (map (fun l => (l, g l)) ls) = []).
    { induction ls as [|x ls IHls]; intro Hx; simpl; [reflexivity|].
      destruct (label_eqb x l) eqn:Ex.
      - apply label_eqb_eq in Ex; subst x. elim Hx; now left.
      - apply IHls. intro; apply Hx; now right. }
    now rewrite (Hnone labels Hnotin).
  - destruct Hin as [-> | Hin]; [now rewrite label_eqb_refl in E|].
    now apply IH.
Qed.

Lemma setitem_scalar_total (df : DataFrame) (l : label) (v : cell) :
  exists df', setitem_scalar df l v = Ok df'.
Proof. apply setitem_total. apply repeat_length. Qed.

(** The loop of [load_excel_files] gathers the tagged sheets of the files
    that parse, in upload order. *)
Lemma load_loop (files : list UploadedFile.t) (acc : list DataFrame) :
  fold_left load_one files acc = acc ++ map (fun s => tagged (fst s) (snd s))
                                            (loaded files).
Proof.
  revert acc. induction files as [|f files IH]; intro acc; simpl.
  - now rewrite app_nil_r.
  - rewrite IH. unfold load_one, loaded. cbn [flat_map].
    fold (loaded files).
    destruct (UploadedFile.read_excel f) as [df|e]; cbn [bind try_except].
    + cbn [app map fst snd].
      destruct (setitem_scalar_total df (LStr "source_file")
                  (Str (UploadedFile.name f))) as (df' & E).
      assert (Et : tagged (UploadedFile.name f) df = df')
        by (unfold tagged; now rewrite E).
      rewrite E, Et. cbn [bind try_except]. now rewrite <- app_assoc.
    + reflexivity.
Qed.

Lemma tagged_spec (nm : string) (df : DataFrame) :
  nrows (tagged nm df) = nrows df /\
  columns_named (tagged nm df) (LStr "source_file") =
    repeat (Str nm) (nrows df)
    :: repeat (repeat (Str nm) (nrows df))
         (pred (length (columns_named df (LStr "source_file")))) /\
  (forall l, l <> LStr "source_file" ->
     columns_named (tagged nm df) l = columns_named df l) /\
  (forall l, In l (columns (tagged nm df)) <->
             l = LStr "source_file" \/ In l (columns df)) /\
  (NoDup (columns df) -> NoDup (columns (tagged nm df))).
Proof.
  unfold tagged.
  destruct (setitem_scalar_total df (LStr "source_file") (Str nm))
    as (df' & E). rewrite E.
  unfold setitem_scalar in E.
  destruct (setitem_inv _ _ _ _ E) as (_ & Hn & Ho & Hs).
  split; [exact Hn|]. split; [exact Hs|]. split; [exact Ho|].
  unfold setitem, len in E. rewrite repeat_length, Nat.eqb_refl in E.
  cbn [negb] in E.
  destruct (has_column df (LStr "source_file")) eqn:Eh; inversion E; subst df';
    unfold columns; cbn [data].
  - assert (Hcols : map fst
              (map (fun c : label * list cell =>
                      if label_eqb (fst c) (LStr "source_file")
                      then (fst c, repeat (Str nm) (nrows df)) else c)
                   (data df)) = map fst (data df)).
    { rewrite map_map. apply map_ext. intros [c cells]; simpl.
      now destruct (label_eqb c (LStr "source_file")). }
    rewrite Hcols. split; [|tauto].
    intro l. split; [tauto|]. intros [-> | H]; [|assumption].
    unfold has_column, columns in Eh. now apply existsb_label_In.
  - rewrite map_app; simpl. split.
    + intro l. rewrite in_app_iff; simpl. intuition.
    + intro Hnd. apply NoDup_app; [assumption | repeat constructor; intros [] |].
      intros x Hx [<- | []].
      assert (has_column df (LStr "source_file") = true)
        by (now apply existsb_label_In).
      congruence.
Qed.

Lemma column_or_nan_tagged (nm : string) (df : DataFrame) (l : label) :
  column_or_nan (tagged nm df) l =
  if label_eqb l (LStr "source_file") then repeat (Str nm) (nrows df)
  else column_or_nan df l.
Proof.
  destruct (tagged_spec nm df) as (Hn & Hs & Ho & _).
  unfold column_or_nan. destruct (label_eqb l (LStr "source_file")) eqn:E.
  - apply label_eqb_eq in E; subst l. now rewrite Hs.
  - apply label_eqb_neq in E. now rewrite (Ho _ E), Hn.
Qed.

Lemma flat_map_map {A B C : Type} (f : B -> list C) (g : A -> B)
    (l : list A) :
  flat_map f (map g l) = flat_map (fun a => f (g a)) l.
Proof. induction l as [|a l IH]; simpl; [reflexivity | now rewrite IH]. Qed.

Lemma concat_nodup (frames : list DataFrame) :
  frames <> [] ->
  forallb (fun df => nodup_labels (columns df)) frames = true ->
  concat frames =
    Ok (mkDF (fold_right (fun df n => nrows df + n) 0 frames)
          (map (fun l => (l, flat_map (fun df => column_or_nan df l) frames))
               (fold_left (fun acc df => union_labels acc (columns df))
                          frames []))).
Proof.
  intros Hne Hall. unfold concat. rewrite Hall.
  destruct frames; [contradiction | reflexivity].
Qed.

(** C8: [load_excel_files] skips the files that fail to parse; it returns
    false, leaving no combined dataset behind, exactly when no file
    parses; otherwise it returns true and the combined data is the
    concatenation, in upload order, of the sheets that parsed: the rows add
    up, [source_file] holds for each row the name of its file, and every
    other column holds the sheet's cells (NaN for a sheet that lacks the
    column). *)
Theorem load_excel_files_spec (self : DataProcessor)
    (uploaded_files : list UploadedFile.t) :
  Forall (fun s => NoDup (columns (snd s))) (loaded uploaded_files) ->
  exists ok p',
    load_excel_files self uploaded_files = Ok (ok, p') /\
    (ok = false <-> loaded uploaded_files = []) /\
    (ok = false -> p' = self) /\
    (ok = true ->
     exists raw,
       p' = mkProcessor (Some raw) (processed_data self) /\
       nrows raw =
         list_sum (map (fun s => nrows (snd s)) (loaded uploaded_files)) /\
       NoDup (columns raw) /\
       (forall l, In l (columns raw) <->
          l = LStr "source_file" \/
          exists s, In s (loaded uploaded_files) /\ In l (columns (snd s))) /\
       getitem raw (LStr "source_file") =
         Ok (Series (flat_map (fun s => repeat (Str (fst s)) (nrows (snd s)))
                              (loaded uploaded_files))) /\
       forall l, l <> LStr "source_file" -> In l (columns raw) ->
         getitem raw l =
           Ok (Series (flat_map (fun s => column_or_nan (snd s) l)
                                (loaded uploaded_files)))).
Proof.
  intro Hnd. unfold load_excel_files. rewrite load_loop. cbn [app].
  destruct (loaded uploaded_files) as [|s0 sheets] eqn:El.
  - exists false, self. cbn [map]. repeat split; auto; discriminate.
  - set (frames := map (fun s => tagged (fst s) (snd s)) (s0 :: sheets)).
    assert (Hframes : frames = tagged (fst s0) (snd s0)
                               :: map (fun s => tagged (fst s) (snd s)) sheets)
      by reflexivity.
    assert (Hconcat : exists raw, concat frames = Ok raw /\
              nrows raw = fold_right (fun df n => nrows df + n) 0 frames /\
              data raw =
                map (fun l => (l, flat_map (fun df => column_or_nan df l)
                                           frames))
                    (fold_left (fun acc df => union_labels acc (columns df))
                               frames [])).
    { assert (Hall : forallb (fun df => nodup_labels (columns df)) frames
                     = true).
      { apply forallb_forall. intros df Hdf. apply nodup_labels_NoDup.
        unfold frames in Hdf. apply in_map_iff in Hdf.
        destruct Hdf as (s & <- & Hs). apply tagged_spec.
        rewrite Forall_forall in Hnd. now apply Hnd. }
      eexists. split; [apply concat_nodup; [rewrite Hframes; discriminate
                                           | exact Hall] |].
      split; reflexivity. }
    destruct Hconcat as (raw & Hraw & Hn & Hdata).
    rewrite Hframes in Hraw |- *.
    rewrite Hraw. cbn [bind]. rewrite <- Hframes in *.
    exists true, (mkProcessor (Some raw) (processed_data self)).
    split; [reflexivity|]. split; [split; discriminate|].
    split; [discriminate|]. intros _. exists raw. split; [reflexivity|].
    destruct (concat_labels_spec frames [] (NoDup_nil _)) as (Hlnd & Hlin).
    set (labels := fold_left (fun acc df => union_labels acc (columns df))
                             frames []) in *.
    assert (Hcols : columns raw = labels).
    { unfold columns. rewrite Hdata, map_map. cbn [fst]. apply map_id. }
    assert (Hin : forall l, In l labels <->
              l = LStr "source_file" \/
              exists s, In s (s0 :: sheets) /\ In l (columns (snd s))).
    { intro l. rewrite Hlin. split.
      - intros [[] | (df & Hdf & Hl)]. unfold frames in Hdf.
        apply in_map_iff in Hdf. destruct Hdf as (s & <- & Hs).
        apply tagged_spec in Hl. destruct Hl as [-> | Hl]; eauto.
      - intros [-> | (s & Hs & Hl)]; right.
        + exists (tagged (fst s0) (snd s0)). split.
          * rewrite Hframes. now left.
          * apply tagged_spec. now left.
        + exists (tagged (fst s) (snd s)). split.
          * unfold frames. apply in_map_iff. eauto.
          * apply tagged_spec. now right. }
    assert (Hget : forall l, In l labels ->
              getitem raw l =
                Ok (Series (flat_map
                     (fun s => if label_eqb l (LStr "source_file")
                               then repeat (Str (fst s)) (nrows (snd s))
                               else column_or_nan (snd s) l)
                     (s0 :: sheets)))).
    { intros l Hl. apply getitem_Series. unfold columns_named.
      rewrite Hdata, (named_of_labels labels _ l Hlnd Hl).
      unfold frames. rewrite flat_map_map. f_equal.
      apply flat_map_ext. intro s. apply column_or_nan_tagged. }
    split.
    { rewrite Hn. unfold frames. clear.
      induction (s0 :: sheets) as [|s l IH]; cbn [map fold_right list_sum];
        [reflexivity|].
      rewrite IH. f_equal. apply tagged_spec. }
    split; [now rewrite Hcols|]. split; [now rewrite Hcols|]. split.
    + rewrite Hget by (apply Hin; now left). reflexivity.
    + intros l Hne Hl. rewrite Hcols in Hl. rewrite (Hget l Hl).
      apply label_eqb_neq in Hne. now rewrite Hne.
Qed.

Lemma load_excel_files_spec_witness :
  exists raw,
    load_excel_files new_processor
      [UploadedFile.mk "a.xlsx"
         (Ok (mkDF 2 [(LStr "Title", [Str "Disk full"; Str "Login failure"])]));
       UploadedFile.mk "broken.xlsx" (Raise ValueError);
       UploadedFile.mk "c.xlsx"
         (Ok (mkDF 1 [(LStr "id", [Num 7])]))]
    = Ok (true, mkProcessor (Some raw) None) /\
    getitem raw (LStr "source_file") =
      Ok (Series [Str "a.xlsx"; Str "a.xlsx"; Str "c.xlsx"]) /\
    getitem raw (LStr "id") = Ok (Series [Null; Null; Num 7]).
Proof.
  edestruct (load_excel_files_spec new_processor
      [UploadedFile.mk "a.xlsx"
         (Ok (mkDF 2 [(LStr "Title", [Str "Disk full"; Str "Login failure"])]));
       UploadedFile.mk "broken.xlsx" (Raise ValueError);
       UploadedFile.mk "c.xlsx"
         (Ok (mkDF 1 [(LStr "id", [Num 7])]))])
    as (ok & p' & Hload & _ & _ & Htrue).
  - cbn. repeat constructor; simpl; tauto.
  - vm_compute in Hload. inversion Hload; subst ok p'; clear Hload.
    destruct (Htrue eq_refl) as (raw & Hp & _ & _ & _ & Htag & Hother).
    inversion Hp; subst raw; clear Hp.
    eexists. split; [vm_compute; reflexivity|]. split.
    + exact Htag.
    + apply Hother; [discriminate | vm_compute; tauto].
Defined.

(* ================================================================== *)
(** * The analyzers without data *)

(** An absent dataset, or one with an axis of length 0. *)
Lemma analyzers_without_data (data : option DataFrame) (top_n : Z) :
  data = None \/ (exists df, data = Some df /\ empty df = true) ->
  RecurringIssuesAnalyzer.get_top_recurring_issues data top_n = None /\
  SLAAnalyzer.analyze_sla_performance data = Ok None /\
  TeamAnalyzer.analyze_team_trends data = Ok None /\
  TeamAnalyzer.get_team_performance_summary data = Ok None /\
  TechDebtAnalyzer.identify_tech_debt_incidents data = Ok empty_frame /\
  TrendAnalyzer.get_monthly_trends data = Ok None /\
  TrendAnalyzer.get_category_distribution data = Ok None /\
  TrendAnalyzer.get_priority_analysis data = Ok None.
Proof.
  intros [-> | (df & -> & He)].
  - repeat split; reflexivity.
  - unfold RecurringIssuesAnalyzer.get_top_recurring_issues,
      SLAAnalyzer.analyze_sla_performance, TeamAnalyzer.analyze_team_trends,
      TeamAnalyzer.get_team_performance_summary,
      TechDebtAnalyzer.identify_tech_debt_incidents,
      TrendAnalyzer.get_monthly_trends,
      TrendAnalyzer.get_category_distribution,
      TrendAnalyzer.get_priority_analysis.
    rewrite He. repeat split; reflexivity.
Qed.

(** On an empty dataset the indicators degrade to an empty result. *)
Lemma calculate_tech_debt_indicators_empty (df : DataFrame) :
  empty df = true ->
  TechDebtAnalyzer.calculate_tech_debt_indicators (Some df) =
    Ok (TechDebtAnalyzer.mkIndicators
          (if (0 <? len df)%nat then Qred (0 / inject_Z (Z.of_nat (len df)) * 100)
           else 0)%Q
          [] [] empty_frame).
Proof.
  intro He. unfold TechDebtAnalyzer.calculate_tech_debt_indicators,
    TechDebtAnalyzer.identify_tech_debt_incidents.
  rewrite He. reflexivity.
Qed.

(** C3, the failing case: on an absent dataset
    [calculate_tech_debt_indicators] does not degrade to an empty result;
    [len(self.data)] raises a TypeError, although
    [identify_tech_debt_incidents] just before it returned an empty
    frame. *)
Theorem calculate_tech_debt_indicators_None_raises :
  TechDebtAnalyzer.identify_tech_debt_incidents None = Ok empty_frame /\
  TechDebtAnalyzer.calculate_tech_debt_indicators None = Raise TypeError.
Proof. split; reflexivity. Qed.

(* ================================================================== *)
(** * SLA analysis *)

Lemma named_boolean_index (df : DataFrame) (mask : list bool) (l : label) :
  columns_named (boolean_index df mask) l =
  map (select mask) (columns_named df l).
Proof.
  unfold columns_named, boolean_index; cbn [data].
  induction (data df) as [|[c cells] d IH]; simpl; [reflexivity|].
  destruct (label_eqb c l); simpl; now rewrite IH.
Qed.

Lemma select_map_combine {A B : Type} (f : A -> bool) (la : list A)
    (lb : list B) :
  length la = length lb ->
  select (map f la) lb = map snd (filter (fun r => f (fst r)) (combine la lb)).
Proof.
  revert lb. induction la as [|a la IH]; intros [|b lb] H; simpl in *;
    try discriminate; [reflexivity|].
  destruct (f a); simpl; rewrite IH by lia; reflexivity.
Qed.

Lemma count_true_map_combine {A B : Type} (f : A -> bool) (la : list A)
    (lb : list B) :
  length la = length lb ->
  count_true (map f la) = length (filter (fun r => f (fst r)) (combine la lb)).
Proof.
  unfold count_true.
  revert lb. induction la as [|a la IH]; intros [|b lb] H; simpl in *;
    try discriminate; [reflexivity|].
  destruct (f a); simpl; rewrite (IH lb) by lia; reflexivity.
Qed.

Lemma cell_le_within (threshold : Z) (c : cell) :
  numeric_or_null c = true ->
  cell_le (inject_Z threshold) c = Ok (within threshold c).
Proof. destruct c; simpl; intro H; try discriminate; reflexivity. Qed.

Lemma mapM_cell_le_within (threshold : Z) (cells : list cell) :
  forallb numeric_or_null cells = true ->
  mapM (cell_le (inject_Z threshold)) cells = Ok (map (within threshold) cells).
Proof.
  induction cells as [|c cells IH]; simpl; [reflexivity|].
  intro H. apply andb_prop in H. destruct H as (Hc & Hcs).
  now rewrite (cell_le_within _ _ Hc), (IH Hcs).
Qed.

Lemma numbers_total (cells : list cell) :
  forallb numeric_or_null cells = true -> exists qs, numbers cells = Ok qs.
Proof.
  induction cells as [|c cells IH]; simpl; [eauto|].
  intro H. apply andb_prop in H. destruct H as (Hc & Hcs).
  destruct (IH Hcs) as (qs & Hqs).
  destruct c; try discriminate; simpl; rewrite Hqs; simpl; eauto.
Qed.

Lemma series_mean_total (cells : list cell) :
  forallb numeric_or_null cells = true -> exists v, series_mean cells = Ok v.
Proof.
  intro H. unfold series_mean. destruct (numbers_total _ H) as (qs & ->).
  simpl. destruct qs; eauto.
Qed.

Lemma forallb_select {A : Type} (f : A -> bool) (mask : list bool)
    (l : list A) :
  forallb f l = true -> forallb f (select mask l) = true.
Proof.
  revert mask. induction l as [|a l IH]; intros [|b mask] H; simpl in *;
    try reflexivity.
  apply andb_prop in H. destruct H as (Ha & Hl).
  destruct b; simpl; [rewrite Ha|]; now apply IH.
Qed.

Section SLA.

Variable df : DataFrame.
Variables pr rt : list cell.
Hypothesis Hpr : getitem df (LStr "priority") = Ok (Series pr).
Hypothesis Hrt : getitem df (LStr "resolution_time") = Ok (Series rt).
Hypothesis Hlen : length pr = length rt.
Hypothesis Htext : existsb is_text pr = true.
Hypothesis Hnum : forallb numeric_or_null rt = true.

Let total (label : string) : nat := length (matching_records label pr rt).

Let met (label : string) (threshold : Z) : nat :=
  length (filter (fun r => within threshold (snd r))
                 (matching_records label pr rt)).

(** One turn of the loop: a row for the label when records match, none
    otherwise. *)
Lemma analyze_priority_spec (sla_analysis : list SLAAnalyzer.row)
    (label : string) (threshold : Z) :
  exists avg,
    SLAAnalyzer.analyze_priority df sla_analysis (label, threshold) =
    Ok (sla_analysis ++
        if (0 <? total label)%nat then
          [SLAAnalyzer.mkRow label (total label) (met label threshold)
             (Qred (inject_Z (Z.of_nat (met label threshold))
                    / inject_Z (Z.of_nat (total label)) * 100)%Q)
             avg threshold]
        else []).
Proof.
  unfold SLAAnalyzer.analyze_priority. rewrite Hpr. cbn [bind str_accessor].
  rewrite Htext. cbn [bind].
  set (mask := map (str_contains label) pr).
  assert (Htotal : len (boolean_index df mask) = total label).
  { unfold len, boolean_index; cbn [nrows]. unfold mask, total.
    apply count_true_map_combine, Hlen. }
  rewrite Htotal.
  destruct (0 <? total label)%nat eqn:Epos.
  2:{ exists (Scalar Null). now rewrite app_nil_r. }
  assert (Hsel : getitem (boolean_index df mask) (LStr "resolution_time")
                 = Ok (Series (select mask rt))).
  { apply getitem_Series. rewrite named_boolean_index.
    apply getitem_Series in Hrt. now rewrite Hrt. }
  unfold SLAAnalyzer.met_count. rewrite Hsel. cbn [bind].
  rewrite (mapM_cell_le_within threshold (select mask rt))
    by (now apply forallb_select).
  cbn [bind].
  assert (Hmet : len (boolean_index (boolean_index df mask)
                        (map (within threshold) (select mask rt)))
                 = met label threshold).
  { unfold len, boolean_index; cbn [nrows]. unfold mask, met.
    rewrite select_map_combine by exact Hlen.
    rewrite count_true_map. unfold matching_records.
    induction (filter _ (combine pr rt)) as [|r l IH]; simpl;
      [reflexivity|].
    destruct (within threshold (snd r)); simpl; now rewrite IH. }
  rewrite Hmet.
  destruct (series_mean_total (select mask rt)) as (avg & Havg);
    [now apply forallb_select|].
  cbn [reduce]. rewrite Havg. cbn [bind].
  exists (Scalar avg). reflexivity.
Qed.

End SLA.

(** C5: on a non-empty dataset whose [priority] column holds text and whose
    [resolution_time] column holds numbers or nulls, the SLA analysis
    returns a table that has, for each label of the threshold table matched
    by a record, exactly one row: [Total_Incidents] the number of matching
    records, [SLA_Met] the number of those with [resolution_time <=
    threshold], [SLA_Percentage] their ratio times 100; a label that no
    record matches has no row. *)
Theorem analyze_sla_performance_spec (df : DataFrame) (pr rt : list cell) :
  empty df = false ->
  getitem df (LStr "priority") = Ok (Series pr) ->
  getitem df (LStr "resolution_time") = Ok (Series rt) ->
  length pr = length rt ->
  existsb is_text pr = true ->
  forallb numeric_or_null rt = true ->
  exists table,
    SLAAnalyzer.analyze_sla_performance (Some df) = Ok (Some table) /\
    forall label threshold,
      In (label, threshold) SLAAnalyzer.sla_thresholds ->
      let total := length (matching_records label pr rt) in
      let met := length (filter (fun r => within threshold (snd r))
                                (matching_records label pr rt)) in
      (0 < total ->
       exists row,
         filter (fun r => String.eqb (SLAAnalyzer.Priority r) label) table
           = [row] /\
         SLAAnalyzer.Total_Incidents row = total /\
         SLAAnalyzer.SLA_Met row = met /\
         SLAAnalyzer.SLA_Threshold row = threshold /\
         (SLAAnalyzer.SLA_Percentage row ==
            inject_Z (Z.of_nat met) / inject_Z (Z.of_nat total) * 100)%Q) /\
      (total = 0 ->
       filter (fun r => String.eqb (SLAAnalyzer.Priority r) label) table = []).
Proof.
  intros Hne Hpr Hrt Hlen Htext Hnum.
  unfold SLAAnalyzer.analyze_sla_performance. rewrite Hne.
  unfold SLAAnalyzer.sla_thresholds. cbn [foldM].
  destruct (analyze_priority_spec df pr rt Hpr Hrt Hlen Htext Hnum
              [] "Critical" 4) as (a1 & ->). cbn [bind app].
  match goal with |- context [SLAAnalyzer.analyze_priority df ?acc _] =>
    destruct (analyze_priority_spec df pr rt Hpr Hrt Hlen Htext Hnum
                acc "High" 8) as (a2 & ->) end. cbn [bind].
  match goal with |- context [SLAAnalyzer.analyze_priority df ?acc _] =>
    destruct (analyze_priority_spec df pr rt Hpr Hrt Hlen Htext Hnum
                acc "Medium" 24) as (a3 & ->) end. cbn [bind].
  match goal with |- context [SLAAnalyzer.analyze_priority df ?acc _] =>
    destruct (analyze_priority_spec df pr rt Hpr Hrt Hlen Htext Hnum
                acc "Low" 72) as (a4 & ->) end. cbn [bind].
  eexists. split; [reflexivity|].
  intros label threshold Hin.
  assert (Hpos : forall n, (0 <? n)%nat = true <-> 0 < n)
    by (intro n; apply Nat.ltb_lt).
  assert (Hzero : forall n, n = 0 -> (0 <? n)%nat = false)
    by (intros n ->; reflexivity).
  simpl in Hin.
  destruct Hin as [E | [E | [E | [E | []]]]]; inversion E; subst label threshold;
    clear E; split.
  all: try (intro Hgt; apply Hpos in Hgt; rewrite Hgt;
            eexists; split;
            [ rewrite !filter_app;
              repeat match goal with
                     | |- context [if ?b then _ else _] => destruct b
                     end; reflexivity
            | cbn [SLAAnalyzer.Total_Incidents SLAAnalyzer.SLA_Met
                   SLAAnalyzer.SLA_Threshold SLAAnalyzer.SLA_Percentage];
              repeat split; apply Qred_correct ]).
  all: intro Hz; rewrite (Hzero _ Hz); rewrite !filter_app;
       repeat match goal with
              | |- context [if ?b then _ else _] => destruct b
              end; reflexivity.
Qed.

(** End-to-end scenario B: one record, priority "Critical", resolution
    time 5. *)
Lemma analyze_sla_performance_spec_witness :
  exists table row,
    SLAAnalyzer.analyze_sla_performance
      (Some (mkDF 1 [(LStr "priority", [Str "Critical"]);
                     (LStr "resolution_time", [Num 5])])) = Ok (Some table) /\
    filter (fun r => String.eqb (SLAAnalyzer.Priority r) "Critical") table
      = [row] /\
    SLAAnalyzer.Total_Incidents row = 1 /\ SLAAnalyzer.SLA_Met row = 0 /\
    (SLAAnalyzer.SLA_Percentage row == 0)%Q /\
    filter (fun r => String.eqb (SLAAnalyzer.Priority r) "High") table = [].
Proof.
  destruct (analyze_sla_performance_spec
              (mkDF 1 [(LStr "priority", [Str "Critical"]);
                       (LStr "resolution_time", [Num 5])])
              [Str "Critical"] [Num 5]
              eq_refl eq_refl eq_refl eq_refl eq_refl eq_refl)
    as (table & Htable & Hrows).
  destruct (Hrows "Critical" 4%Z) as (Hrow & _); [simpl; tauto|].
  destruct Hrow as (row & Hfilter & Htotal & Hmet & _ & Hpct);
    [vm_compute; lia|].
  destruct (Hrows "High" 8%Z) as (_ & Hnone); [simpl; tauto|].
  exists table, row. split; [exact Htable|]. split; [exact Hfilter|].
  split; [exact Htotal|]. split; [exact Hmet|]. split.
  - rewrite Hpct. reflexivity.
  - apply Hnone. reflexivity.
Defined.

(* ================================================================== *)
(** * Grouping *)

Lemma cell_eqb_refl (a : cell) : cell_eqb a a = true.
Proof.
  destruct a as [|s|q|t|b]; simpl; auto using String.eqb_refl, Z.eqb_refl,
    Qeq_bool_refl.
Qed.

Lemma cell_eqb_sym (a b : cell) : cell_eqb a b = cell_eqb b a.
Proof.
  destruct a as [|s|q|t|x], b as [|s'|q'|t'|y]; simpl; try reflexivity;
    try apply String.eqb_sym; try apply Z.eqb_sym;
    match goal with
    | |- Qeq_bool ?p ?q = Qeq_bool ?q ?p =>
        destruct (Qeq_bool p q) eqn:E1, (Qeq_bool q p) eqn:E2; try reflexivity;
        [ apply Qeq_bool_sym in E1 | apply Qeq_bool_sym in E2 ]; congruence
    end.
Qed.

Lemma cell_eqb_trans (a b c : cell) :
  cell_eqb a b = true -> cell_eqb b c = true -> cell_eqb a c = true.
Proof.
  destruct a as [|s|q|t|x], b as [|s'|q'|t'|y], c as [|s''|q''|t''|z]; simpl;
    try discriminate; try reflexivity;
    try (intros H1 H2; apply String.eqb_eq in H1, H2; subst;
         apply String.eqb_refl);
    try (intros H1 H2; apply Z.eqb_eq in H1, H2; subst; apply Z.eqb_refl);
    apply Qeq_bool_trans.
Qed.

Lemma cell_eqb_notnull (a b : cell) :
  cell_eqb a b = true -> notnull a = notnull b.
Proof. destruct a, b; simpl; try discriminate; reflexivity. Qed.

Lemma key_eqb_refl (k : list cell) : key_eqb k k = true.
Proof.
  induction k as [|x k IH]; simpl; [reflexivity|].
  now rewrite cell_eqb_refl, IH.
Qed.

Lemma key_eqb_sym (a b : list cell) : key_eqb a b = key_eqb b a.
Proof.
  revert b. induction a as [|x a IH]; intros [|y b]; simpl; try reflexivity.
  now rewrite cell_eqb_sym, IH.
Qed.

Lemma key_eqb_trans (a b c : list cell) :
  key_eqb a b = true -> key_eqb b c = true -> key_eqb a c = true.
Proof.
  revert b c. induction a as [|x a IH]; intros [|y b] [|z c]; simpl;
    try discriminate; try reflexivity.
  intros H1 H2. apply andb_prop in H1, H2.
  destruct H1 as (H1 & H1'), H2 as (H2 & H2').
  now rewrite (cell_eqb_trans _ _ _ H1 H2), (IH _ _ H1' H2').
Qed.

Lemma key_eqb_notnull (a b : list cell) :
  key_eqb a b = true -> forallb notnull a = forallb notnull b.
Proof.
  revert b. induction a as [|x a IH]; intros [|y b]; simpl;
    try discriminate; try reflexivity.
  intro H. apply andb_prop in H. destruct H as (H1 & H2).
  now rewrite (cell_eqb_notnull _ _ H1), (IH _ H2).
Qed.

(** ** Sorting *)

Lemma insert_by_perm {A : Type} (leb : A -> A -> bool) (x : A) (l : list A) :
  Permutation (insert_by leb x l) (x :: l).
Proof.
  induction l as [|y l IH]; simpl; [reflexivity|].
  destruct (leb x y); [reflexivity|].
  rewrite IH. apply perm_swap.
Qed.

Lemma sort_by_perm {A : Type} (leb : A -> A -> bool) (l : list A) :
  Permutation (sort_by leb l) l.
Proof.
  induction l as [|x l IH]; simpl; [reflexivity|].
  rewrite insert_by_perm. now constructor.
Qed.

(** For a total, transitive order the result is sorted. *)
Lemma insert_by_sorted {A : Type} (leb : A -> A -> bool) (x : A)
    (l : list A) :
  (forall a b, leb a b = true \/ leb b a = true) ->
  (forall a b c, leb a b = true -> leb b c = true -> leb a c = true) ->
  StronglySorted (fun a b => leb a b = true) l ->
  StronglySorted (fun a b => leb a b = true) (insert_by leb x l).
Proof.
  intros Htot Htrans. induction 1 as [|y l Hs IH Hy]; simpl.
  - repeat constructor.
  - destruct (leb x y) eqn:E.
    + constructor; [now constructor|]. constructor; [assumption|].
      eapply Forall_impl; [|exact Hy]. intros a Ha. eauto.
    + constructor; [assumption|].
      assert (Hyx : leb y x = true) by (destruct (Htot x y); congruence).
      rewrite Forall_forall in *. intros a Ha.
      apply (Permutation_in _ (insert_by_perm leb x l)) in Ha.
      destruct Ha as [<- | Ha]; auto.
Qed.

Lemma sort_by_sorted {A : Type} (leb : A -> A -> bool) (l : list A) :
  (forall a b, leb a b = true \/ leb b a = true) ->
  (forall a b c, leb a b = true -> leb b c = true -> leb a c = true) ->
  StronglySorted (fun a b => leb a b = true) (sort_by leb l).
Proof.
  intros Htot Htrans. induction l as [|x l IH]; simpl; [constructor|].
  now apply insert_by_sorted.
Qed.

(** ** Distinct keys *)


Lemma filter_filter {A : Type} (f g : A -> bool) (l : list A) :
  filter f (filter g l) = filter (fun x => g x && f x) l.
Proof.
  induction l as [|a l IH]; simpl; [reflexivity|].
  destruct (g a); simpl; [destruct (f a)|]; now rewrite IH.
Qed.

Lemma filter_none {A : Type} (f : A -> bool) (l : list A) :
  (forall x, In x l -> f x = false) -> filter f l = [].
Proof.
  induction l as [|a l IH]; intro H; simpl; [reflexivity|].
  rewrite (H a) by now left. apply IH. intros x Hx. apply H. now right.
Qed.

Lemma unique_keys_incl (ks : list (list cell)) (k : list cell) :
  In k (unique_keys ks) -> In k ks.
Proof.
  induction ks as [|k0 ks IH]; simpl; [tauto|].
  intros [<- | H]; [now left|]. apply filter_In in H. right. tauto.
Qed.

(** Among the distinct keys each key of the list has one representative,
    and any other key none. *)
Lemma representatives_unique_keys (ks : list (list cell)) (x : list cell) :
  representatives x (unique_keys ks) =
  if existsb (key_eqb x) ks then 1 else 0.
Proof.
  unfold representatives.
  induction ks as [|k ks IH]; simpl; [reflexivity|].
  rewrite filter_filter. destruct (key_eqb x k) eqn:E; simpl.
  - rewrite filter_none; [reflexivity|]. intros y _.
    destruct (key_eqb y k) eqn:Ey; simpl; [reflexivity|].
    destruct (key_eqb x y) eqn:Exy; [|reflexivity].
    rewrite key_eqb_sym in Exy.
    now rewrite (key_eqb_trans _ _ _ Exy E) in Ey.
  - rewrite <- IH. f_equal. apply filter_ext. intro y.
    destruct (key_eqb x y) eqn:Exy; [|now rewrite andb_false_r].
    destruct (key_eqb y k) eqn:Ey; [|reflexivity].
    now rewrite (key_eqb_trans _ _ _ Exy Ey) in E.
Qed.

Lemma filter_length_perm {A : Type} (f : A -> bool) (l l' : list A) :
  Permutation l l' -> length (filter f l) = length (filter f l').
Proof.
  induction 1; simpl; try congruence.
  - destruct (f x); simpl; congruence.
  - destruct (f x), (f y); reflexivity.
Qed.

Lemma group_keys_In (row_keys : list (list cell)) (k : list cell) :
  In k (group_keys row_keys) ->
  In k row_keys /\ forallb notnull k = true.
Proof.
  intro H. apply (Permutation_in _ (sort_by_perm _ _)) in H.
  apply unique_keys_incl, filter_In in H. exact H.
Qed.

Lemma group_keys_representatives (row_keys : list (list cell))
    (rk : list cell) :
  In rk row_keys ->
  representatives rk (group_keys row_keys) =
  if forallb notnull rk then 1 else 0.
Proof.
  intro Hin. unfold representatives, group_keys.
  rewrite (filter_length_perm _ _ _ (sort_by_perm _ _)).
  fold (representatives rk (unique_keys (filter (forallb notnull) row_keys))).
  rewrite representatives_unique_keys.
  destruct (forallb notnull rk) eqn:E.
  - assert (H : existsb (key_eqb rk) (filter (forallb notnull) row_keys)
                = true).
    { apply existsb_exists. exists rk. split; [|apply key_eqb_refl].
      apply filter_In. auto. }
    now rewrite H.
  - destruct (existsb _ _) eqn:H; [|reflexivity].
    apply existsb_exists in H. destruct H as (y & Hy & Eq).
    apply filter_In in Hy. destruct Hy as (_ & Hy).
    rewrite (key_eqb_notnull _ _ Eq) in E. congruence.
Qed.

Lemma group_keys_distinct (row_keys : list (list cell)) (x : list cell) :
  representatives x (group_keys row_keys) <= 1.
Proof.
  unfold representatives, group_keys.
  rewrite (filter_length_perm _ _ _ (sort_by_perm _ _)).
  fold (representatives x (unique_keys (filter (forallb notnull) row_keys))).
  rewrite representatives_unique_keys. destruct (existsb _ _); lia.
Qed.

Lemma list_sum_map_add {A : Type} (f g : A -> nat) (l : list A) :
  list_sum (map (fun a => f a + g a) l) =
  list_sum (map f l) + list_sum (map g l).
Proof. induction l as [|a l IH]; simpl; [reflexivity | rewrite IH; lia]. Qed.

Lemma list_sum_indicator {A : Type} (f : A -> bool) (l : list A) :
  list_sum (map (fun a => if f a then 1 else 0) l) = length (filter f l).
Proof.
  induction l as [|a l IH]; simpl; [reflexivity|].
  destruct (f a); simpl; now rewrite IH.
Qed.

(** The groups partition the rows that have a key: their sizes add up to
    the number of such rows. *)
Lemma group_masks_sum (keys row_keys : list (list cell)) :
  (forall rk, In rk row_keys ->
     representatives rk keys = if forallb notnull rk then 1 else 0) ->
  list_sum (map (fun k => count_true (map (fun rk => key_eqb rk k) row_keys))
                keys) =
  count_true (map (forallb notnull) row_keys).
Proof.
  unfold count_true.
  induction row_keys as [|rk row_keys IH]; intro H; cbn [map filter length].
  - clear H. induction keys; simpl; auto.
  - rewrite (map_ext _ (fun k => (if key_eqb rk k then 1 else 0) +
               length (filter (fun b => b)
                              (map (fun rk' => key_eqb rk' k) row_keys)))).
    2:{ intro k. now destruct (key_eqb rk k). }
    rewrite list_sum_map_add, list_sum_indicator.
    fold (representatives rk keys). rewrite (H rk) by now left.
    rewrite IH by (intros rk' Hrk'; apply H; now right).
    now destruct (forallb notnull rk).
Qed.

Lemma count_true_lt_length (mask : list bool) (k : nat) :
  nth_error mask k = Some false -> count_true mask < length mask.
Proof.
  unfold count_true. revert k.
  induction mask as [|b mask IH]; intros [|k] H; simpl in *;
    try discriminate.
  - inversion H; subst b. simpl.
    pose proof (filter_length_le (fun b => b) mask). lia.
  - specialize (IH _ H). destruct b; simpl; lia.
Qed.

Lemma length_select {A : Type} (mask : list bool) (l : list A) :
  length (select mask l) <= count_true mask.
Proof.
  unfold count_true. revert l.
  induction mask as [|b mask IH]; intros [|a l]; simpl; try lia.
  specialize (IH l). destruct b; simpl; lia.
Qed.

Lemma series_count_select (mask : list bool) (cells : list cell) :
  series_count (select mask cells) <= count_true mask.
Proof.
  unfold series_count.
  pose proof (filter_length_le notnull (select mask cells)).
  pose proof (length_select mask cells). lia.
Qed.

Lemma series_count_select_le (mask : list bool) (cells : list cell) :
  series_count (select mask cells) <= series_count cells.
Proof.
  unfold series_count. revert cells.
  induction mask as [|b mask IH]; intros [|c cells]; simpl; try lia.
  specialize (IH cells). destruct b; simpl; destruct (notnull c); simpl; lia.
Qed.

Lemma series_count_lt (cells : list cell) (k : nat) :
  nth_error cells k = Some Null -> series_count cells < length cells.
Proof.
  intro H. unfold series_count.
  rewrite <- (length_map notnull cells), <- count_true_map.
  apply (count_true_lt_length _ k). rewrite nth_error_map, H. reflexivity.
Qed.

(** ** Rows of key columns *)

Lemma zip_rows_1 (n : nat) (c : list cell) :
  length c = n -> zip_rows n [c] = map (fun x => [x]) c.
Proof.
  intros <-. cbn [zip_rows].
  induction c as [|x c IH]; simpl; [reflexivity | now rewrite IH].
Qed.

Lemma zip_rows_2 (n : nat) (a b : list cell) :
  length a = n -> length b = n ->
  zip_rows n [a; b] = map2 (fun x y => [x; y]) a b.
Proof.
  intros <- Hb. cbn [zip_rows].
  revert b Hb. induction a as [|x a IH]; intros [|y b] Hb; simpl in *;
    try discriminate; [reflexivity|].
  f_equal. apply IH. lia.
Qed.

(** ** The groups of a frame *)

Lemma series_Series (df : DataFrame) (l : string) (cells : list cell) :
  getitem df (LStr l) = Ok (Series cells) -> series df l = Ok cells.
Proof. intro H. unfold series. now rewrite H. Qed.

Lemma wf_length (df : DataFrame) (l : label) (cells : list cell) :
  wf df -> getitem df l = Ok (Series cells) -> length cells = nrows df.
Proof.
  intros Hwf H. apply getitem_Series in H. unfold columns_named in H.
  unfold wf in Hwf. rewrite Forall_forall in Hwf.
  assert (Hin : In cells (map snd (filter (fun c => label_eqb (fst c) l)
                                          (data df))))
    by (rewrite H; now left).
  apply in_map_iff in Hin. destruct Hin as (c & <- & Hc).
  apply filter_In in Hc. now apply Hwf.
Qed.

Lemma not_empty (df : DataFrame) (l : label) (cells : list cell) (k : nat)
    (c : cell) :
  wf df -> getitem df l = Ok (Series cells) -> nth_error cells k = Some c ->
  empty df = false /\ 0 < nrows df.
Proof.
  intros Hwf H Hk. pose proof (wf_length _ _ _ Hwf H) as Hlen.
  assert (Hpos : 0 < nrows df).
  { rewrite <- Hlen. destruct cells; [destruct k; discriminate | simpl; lia]. }
  split; [|assumption]. unfold empty, len.
  apply getitem_Series in H. unfold columns_named in H. unfold columns.
  destruct (data df); [discriminate|]. simpl.
  destruct (nrows df); [lia | reflexivity].
Qed.

Lemma groupby_spec (df : DataFrame) (by_ : list string)
    (key_columns : list (list cell)) :
  mapM (series df) by_ = Ok key_columns ->
  groupby df by_ =
    Ok (map (fun k => (k, map (fun rk => key_eqb rk k)
                              (zip_rows (nrows df) key_columns)))
            (group_keys (zip_rows (nrows df) key_columns))).
Proof. intro H. unfold groupby. rewrite H. reflexivity. Qed.

(** With a row whose key is missing, the group sizes add up to less than
    the number of rows. *)
Lemma group_masks_sum_lt (row_keys : list (list cell)) (k : nat)
    (rk : list cell) :
  nth_error row_keys k = Some rk -> forallb notnull rk = false ->
  list_sum (map (fun key => count_true (map (fun rk => key_eqb rk key)
                                            row_keys))
                (group_keys row_keys)) < length row_keys.
Proof.
  intros Hk Hnull.
  rewrite group_masks_sum by (intros; now apply group_keys_representatives).
  rewrite <- (length_map (forallb notnull) row_keys).
  apply (count_true_lt_length _ k). rewrite nth_error_map, Hk. cbn.
  now rewrite Hnull.
Qed.

Lemma length_select_eq {A : Type} (mask : list bool) (l : list A) :
  length mask = length l -> length (select mask l) = count_true mask.
Proof.
  unfold count_true. revert l.
  induction mask as [|b mask IH]; intros [|a l] H; simpl in *;
    try discriminate; [reflexivity|].
  destruct b; simpl; rewrite IH by lia; reflexivity.
Qed.

Lemma count_true_keys_1 (cells : list cell) :
  count_true (map (forallb notnull) (map (fun x => [x]) cells)) =
  series_count cells.
Proof.
  unfold series_count. rewrite map_map, count_true_map.
  f_equal. apply filter_ext. intro c. simpl. now rewrite andb_true_r.
Qed.

(** [groupby(l).size()]: no group for the missing key, and sizes that add
    up to the number of rows that have one. *)
Lemma group_sizes_spec (df : DataFrame) (l : string) (cells : list cell) :
  getitem df (LStr l) = Ok (Series cells) -> length cells = nrows df ->
  exists t,
    group_sizes df l = Ok t /\
    Forall (fun r => fst r <> Null) t /\
    list_sum (map snd t) = series_count cells.
Proof.
  intros H Hlen. unfold group_sizes.
  rewrite (groupby_spec df [l] [cells])
    by (cbn [mapM]; now rewrite (series_Series _ _ _ H)).
  cbn [bind]. eexists. split; [reflexivity|].
  rewrite (zip_rows_1 _ _ Hlen). split.
  - apply Forall_forall. intros r Hr.
    apply in_map_iff in Hr. destruct Hr as (g & <- & Hg).
    apply in_map_iff in Hg. destruct Hg as (key & <- & Hkey).
    cbn [fst]. apply group_keys_In in Hkey. destruct Hkey as (Hin & Hnn).
    apply in_map_iff in Hin. destruct Hin as (x & <- & _).
    simpl in *. destruct x; [discriminate | discriminate ..].
  - rewrite !map_map. cbn [snd].
    rewrite group_masks_sum
      by (intros; now apply group_keys_representatives).
    apply count_true_keys_1.
Qed.

Lemma Forall2_sum_le {A B : Type} (f : A -> nat) (g : B -> nat)
    (R : A -> B -> Prop) (la : list A) (lb : list B) :
  Forall2 R la lb -> (forall a b, R a b -> g b <= f a) ->
  list_sum (map g lb) <= list_sum (map f la).
Proof.
  intros H HR. induction H as [|a b la lb Hab _ IH]; simpl; [lia|].
  specialize (HR _ _ Hab). lia.
Qed.

(* ================================================================== *)
(** * Month-grouped aggregates *)

Lemma series_sum_total (cells : list cell) :
  forallb numeric_or_null cells = true -> exists v, series_sum cells = Ok v.
Proof.
  intro H. unfold series_sum. destruct (numbers_total _ H) as (qs & ->).
  simpl. eauto.
Qed.

Lemma nth_error_Some_lt {A : Type} (l : list A) (k : nat) :
  k < length l -> exists a, nth_error l k = Some a.
Proof.
  intro H. destruct (nth_error l k) eqn:E; [eauto|].
  apply nth_error_None in E. lia.
Qed.

Section MonthGroups.

Variable df : DataFrame.
Variables teams ms ids rts ov titles : list cell.
Variable k : nat.
Hypothesis Hwf : wf df.
Hypothesis Hteams : getitem df (LStr "assigned_team") = Ok (Series teams).
Hypothesis Hms : getitem df (LStr "month_year") = Ok (Series ms).
Hypothesis Hids : getitem df (LStr "incident_id") = Ok (Series ids).
Hypothesis Hrts : getitem df (LStr "resolution_time") = Ok (Series rts).
Hypothesis Hov : getitem df (LStr "is_overdue") = Ok (Series ov).
Hypothesis Htitles : getitem df (LStr "title") = Ok (Series titles).
Hypothesis Htext : existsb is_text titles = true.
Hypothesis Hnum_rts : forallb numeric_or_null rts = true.
Hypothesis Hnum_ov : forallb numeric_or_null ov = true.
Hypothesis Hnull : nth_error ms k = Some Null.

Lemma month_groups_not_empty : empty df = false /\ 0 < nrows df.
Proof. exact (not_empty _ _ _ _ _ Hwf Hms Hnull). Qed.

Lemma team_trends_drop_null_months :
  exists t,
    TeamAnalyzer.analyze_team_trends (Some df) = Ok (Some t) /\
    Forall (fun r => TeamAnalyzer.month_year r <> Null) t /\
    list_sum (map TeamAnalyzer.total_incidents t) < nrows df.
Proof.
  destruct month_groups_not_empty as (He & _).
  pose proof (wf_length _ _ _ Hwf Hteams) as Lteams.
  pose proof (wf_length _ _ _ Hwf Hms) as Lms.
  unfold TeamAnalyzer.analyze_team_trends. rewrite He.
  rewrite (groupby_spec df _ [teams; ms])
    by (cbn [mapM]; now rewrite (series_Series _ _ _ Hteams),
                                (series_Series _ _ _ Hms)).
  cbn [bind].
  rewrite (series_Series _ _ _ Hids), (series_Series _ _ _ Hrts),
    (series_Series _ _ _ Hov). cbn [bind].
  rewrite (zip_rows_2 _ _ _ Lteams Lms).
  set (row_keys := map2 (fun x y => [x; y]) teams ms).
  set (groups := map (fun key => (key, map (fun rk => key_eqb rk key)
                                           row_keys))
                     (group_keys row_keys)).
  assert (Hagg : forall g, exists row,
            TeamAnalyzer.aggregate ids rts ov g = Ok row /\
            TeamAnalyzer.month_year row = nth 1 (fst g) Null /\
            TeamAnalyzer.total_incidents row =
              series_count (select (snd g) ids)).
  { intros [key members]. unfold TeamAnalyzer.aggregate.
    destruct (series_mean_total (select members rts)) as (mean & ->);
      [now apply forallb_select|].
    destruct (series_sum_total (select members ov)) as (overdue & ->);
      [now apply forallb_select|].
    cbn [bind]. eexists. split; [reflexivity|]. split; reflexivity. }
  destruct (mapM_total (TeamAnalyzer.aggregate ids rts ov) groups)
    as (t & Ht).
  { apply Forall_forall. intros g _. destruct (Hagg g) as (row & Hrow & _).
    eauto. }
  rewrite Ht. cbn [bind]. exists t. split; [reflexivity|].
  apply mapM_Forall2 in Ht.
  assert (Hrk : length row_keys = nrows df).
  { unfold row_keys. rewrite length_map2; congruence. }
  split.
  - assert (Hkeys : Forall (fun g => nth 1 (fst g) Null <> Null) groups).
    { apply Forall_forall. intros g Hg. unfold groups in Hg.
      apply in_map_iff in Hg. destruct Hg as (key & <- & Hkey). cbn [fst].
      apply group_keys_In in Hkey. destruct Hkey as (Hin & Hnn).
      assert (Hshape : forall la lb key',
                In key' (map2 (fun x y : cell => [x; y]) la lb) ->
                exists x y, key' = [x; y]).
      { induction la as [|x la IH]; intros [|y lb] key' Hk'; simpl in Hk';
          try contradiction.
        destruct Hk' as [<- | Hk']; eauto. }
      destruct (Hshape _ _ _ Hin) as (x & y & ->).
      simpl in Hnn |- *. apply andb_prop in Hnn. destruct Hnn as (_ & Hy).
      destruct y; simpl in Hy; discriminate. }
    clear - Ht Hkeys Hagg.
    induction Ht as [|g row groups t Hg _ IH]; [constructor|].
    inversion Hkeys; subst. constructor; [|now apply IH].
    destruct (Hagg g) as (row' & Hrow' & Hm & _).
    rewrite Hg in Hrow'. inversion Hrow'; subst row'. now rewrite Hm.
  - apply Nat.le_lt_trans with
      (list_sum (map (fun g => count_true (snd g)) groups)).
    + apply (Forall2_sum_le _ _ _ _ _ Ht). intros g row Hg.
      destruct (Hagg g) as (row' & Hrow' & _ & Htot).
      rewrite Hg in Hrow'. inversion Hrow'; subst row'. rewrite Htot.
      apply series_count_select.
    + unfold groups. rewrite map_map. cbn [snd]. rewrite <- Hrk.
      destruct (nth_error_Some_lt teams k) as (team & Hteam).
      { rewrite Lteams, <- Lms. apply nth_error_Some. congruence. }
      apply (group_masks_sum_lt row_keys k [team; Null]).
      * unfold row_keys.
        now apply (nth_error_map2 (fun x y => [x; y]) teams ms k team Null).
      * simpl. now rewrite andb_false_r.
Qed.

Lemma monthly_trends_drop_null_months :
  exists t,
    TrendAnalyzer.get_monthly_trends (Some df) = Ok (Some t) /\
    Forall (fun r => fst r <> Null) t /\
    list_sum (map snd t) < nrows df.
Proof.
  destruct month_groups_not_empty as (He & _).
  pose proof (wf_length _ _ _ Hwf Hms) as Lms.
  destruct (group_sizes_spec df "month_year" ms Hms Lms)
    as (t & Ht & Hkeys & Hsum).
  unfold TrendAnalyzer.get_monthly_trends. rewrite He, Ht. cbn [bind].
  exists t. split; [reflexivity|]. split; [assumption|].
  rewrite Hsum, <- Lms. now apply (series_count_lt ms k).
Qed.

Lemma tech_debt_trend_drops_null_months :
  exists ind,
    TechDebtAnalyzer.calculate_tech_debt_indicators (Some df) = Ok ind /\
    Forall (fun r => fst r <> Null) (TechDebtAnalyzer.debt_trend ind) /\
    list_sum (map snd (TechDebtAnalyzer.debt_trend ind)) < nrows df.
Proof.
  destruct month_groups_not_empty as (He & Hpos).
  pose proof (wf_length _ _ _ Hwf Hms) as Lms.
  pose proof (wf_length _ _ _ Hwf Hteams) as Lteams.
  pose proof (wf_length _ _ _ Hwf Htitles) as Ltitles.
  unfold TechDebtAnalyzer.calculate_tech_debt_indicators,
    TechDebtAnalyzer.identify_tech_debt_incidents.
  rewrite He, Htitles. cbn [bind str_accessor]. rewrite Htext.
  cbn [bind TechDebtAnalyzer.len_data].
  set (mask := map (str_contains_any TechDebtAnalyzer.tech_debt_keywords)
                   titles).
  set (tech := boolean_index df mask).
  assert (Lmask : length mask = nrows df)
    by (unfold mask; now rewrite length_map).
  destruct (empty tech) eqn:Etech; cbn [negb bind].
  - eexists. split; [reflexivity|]. cbn. split; [constructor | exact Hpos].
  - assert (Hsel : forall l cells, getitem df (LStr l) = Ok (Series cells) ->
              getitem tech (LStr l) = Ok (Series (select mask cells))).
    { intros l cells H. apply getitem_Series. unfold tech.
      rewrite named_boolean_index. apply getitem_Series in H.
      now rewrite H. }
    assert (Hlen : forall cells : list cell, length cells = nrows df ->
              length (select mask cells) = nrows tech).
    { intros cells H. unfold tech, boolean_index; cbn [nrows].
      apply length_select_eq. congruence. }
    destruct (group_sizes_spec tech "assigned_team" _ (Hsel _ _ Hteams)
                (Hlen _ Lteams)) as (by_team & -> & _ & _).
    destruct (group_sizes_spec tech "month_year" _ (Hsel _ _ Hms)
                (Hlen _ Lms)) as (trend & -> & Hkeys & Hsum).
    cbn [bind]. eexists. split; [reflexivity|].
    cbn [TechDebtAnalyzer.debt_trend]. split; [assumption|].
    rewrite Hsum. apply Nat.le_lt_trans with (series_count ms).
    + apply series_count_select_le.
    + rewrite <- Lms. now apply (series_count_lt ms k).
Qed.

End MonthGroups.

Lemma numeric_of_compared (k : Q) (cells : list cell) (bs : list bool) :
  mapM (cell_gt k) cells = Ok bs -> forallb numeric_or_null cells = true.
Proof.
  intro H. apply mapM_Forall2 in H.
  induction H as [|c b cells bs Hc _ IH]; simpl; [reflexivity|].
  rewrite IH, andb_true_r. destruct c; simpl in Hc; try discriminate;
    reflexivity.
Qed.

Lemma numeric_Bool (bs : list bool) :
  forallb numeric_or_null (map Bool bs) = true.
Proof. induction bs; simpl; auto. Qed.

Lemma repeat_S_singleton {A : Type} (x y : A) (n : nat) :
  repeat x (S n) = [y] -> x = y.
Proof. simpl. congruence. Qed.

(** C10: in a normalized dataset a record whose [created_date] is null has
    a null [month_year], and the month-grouped aggregates leave it out: the
    team trends, the monthly trends and the tech-debt trend have no group
    for the null month, and their incident counts add up to strictly less
    than the number of records. *)
Theorem null_created_date_excluded_from_month_groups (now : Z)
    (parse_datetime : list cell -> cell -> option Z) (p p' : DataProcessor)
    (df : DataFrame) (created teams ids titles ms ov : list cell) (k : nat) :
  preprocess_data now parse_datetime p = (true, p') ->
  processed_data p' = Some df -> wf df ->
  getitem df (LStr "created_date") = Ok (Series created) ->
  nth_error created k = Some Null ->
  getitem df (LStr "assigned_team") = Ok (Series teams) ->
  getitem df (LStr "incident_id") = Ok (Series ids) ->
  getitem df (LStr "title") = Ok (Series titles) ->
  existsb is_text titles = true ->
  getitem df (LStr "month_year") = Ok (Series ms) ->
  getitem df (LStr "is_overdue") = Ok (Series ov) ->
  nth_error ms k = Some Null /\
  (exists t,
     TeamAnalyzer.analyze_team_trends (Some df) = Ok (Some t) /\
     Forall (fun r => TeamAnalyzer.month_year r <> Null) t /\
     list_sum (map TeamAnalyzer.total_incidents t) < nrows df) /\
  (exists t,
     TrendAnalyzer.get_monthly_trends (Some df) = Ok (Some t) /\
     Forall (fun r => fst r <> Null) t /\
     list_sum (map snd t) < nrows df) /\
  (exists ind,
     TechDebtAnalyzer.calculate_tech_debt_indicators (Some df) = Ok ind /\
     Forall (fun r => fst r <> Null) (TechDebtAnalyzer.debt_trend ind) /\
     list_sum (map snd (TechDebtAnalyzer.debt_trend ind)) < nrows df).
Proof.
  intros H Hdf Hwf Hcreated Hk Hteams Hids Htitles Htext Hms Hov.
  apply preprocess_data_inv in H.
  destruct H as (raw & std & df1 & df2 & df' & Hraw & Hstd & Hadd & Hconv
                 & Hder & ->).
  cbn [processed_data] in Hdf. inversion Hdf; subst df'; clear Hdf.
  destruct (calculate_derived_fields_inv _ _ Hder)
    as (created2 & cs & rt & bs & Hn & Hother & Hcr & Hcs & Hrt & Hlrt & _
        & _ & (n & Hmonth) & Hbs & (n' & Hover)).
  apply getitem_Series in Hcreated, Hms, Hov.
  rewrite Hother, Hcr in Hcreated by discriminate.
  inversion Hcreated; subst created2.
  rewrite Hms in Hmonth. symmetry in Hmonth.
  apply repeat_S_singleton in Hmonth. subst ms.
  rewrite Hov in Hover. symmetry in Hover.
  apply repeat_S_singleton in Hover. subst ov.
  assert (Hnull : nth_error (map (dt_strftime strftime_Y_m) cs) k = Some Null).
  { apply mapM_Forall2 in Hcs.
    destruct (Forall2_nth_error _ _ _ _ _ Hcs Hk) as (d & Hd & E).
    simpl in E. inversion E; subst d. now rewrite nth_error_map, Hd. }
  apply getitem_Series in Hms, Hov, Hrt.
  pose proof (numeric_of_compared _ _ _ Hbs) as Hnum.
  split; [exact Hnull|]. split; [|split].
  - exact (team_trends_drop_null_months df teams _ ids rt _ k Hwf Hteams Hms
             Hids Hrt Hov Hnum (numeric_Bool bs) Hnull).
  - exact (monthly_trends_drop_null_months df _ k Hwf Hms Hnull).
  - exact (tech_debt_trend_drops_null_months df teams _ titles k Hwf Hteams
             Hms Htitles Htext Hnull).
Qed.

Lemma null_created_date_excluded_from_month_groups_witness :
  exists df t,
    processed_data
      (snd (preprocess_data 0 (fun _ _ => None)
         (mkProcessor
            (Some (mkDF 2 [(LStr "title",
                            [Str "Apply hotfix for legacy module";
                             Str "Login failure"]);
                           (LStr "created", [Null; Date 0])]))
            None))) = Some df /\
    TrendAnalyzer.get_monthly_trends (Some df) = Ok (Some t) /\
    list_sum (map snd t) < 2.
Proof.
  edestruct (null_created_date_excluded_from_month_groups 0 (fun _ _ => None)
      (mkProcessor
         (Some (mkDF 2 [(LStr "title",
                         [Str "Apply hotfix for legacy module";
                          Str "Login failure"]);
                        (LStr "created", [Null; Date 0])]))
         None))
    as (_ & _ & (t & Ht & _ & Hsum) & _);
    [ vm_compute; reflexivity | vm_compute; reflexivity
    | vm_compute; repeat constructor
    | vm_compute; reflexivity | instantiate (1 := 0); reflexivity
    | vm_compute; reflexivity | vm_compute; reflexivity
    | vm_compute; reflexivity | reflexivity
    | vm_compute; reflexivity | vm_compute; reflexivity | ].
  eexists. exists t. split; [vm_compute; reflexivity|].
  split; [exact Ht | exact Hsum].
Defined.

(* ================================================================== *)
(** * The order on cells *)

Lemma ascii_compare_Lt_trans (a b c : ascii) :
  Ascii.compare a b = Lt -> Ascii.compare b c = Lt -> Ascii.compare a c = Lt.
Proof.
  unfold Ascii.compare. rewrite !N.compare_lt_iff. apply N.lt_trans.
Qed.

Lemma string_leb_trans (s t u : string) :
  String.leb s t = true -> String.leb t u = true -> String.leb s u = true.
Proof.
  unfold String.leb. revert t u.
  induction s as [|a s IH]; intros [|b t] [|c u]; simpl; try discriminate;
    try reflexivity.
  destruct (Ascii.compare a b) eqn:Eab; try discriminate.
  - apply Ascii.compare_eq_iff in Eab. subst b.
    destruct (Ascii.compare a c) eqn:Eac; try discriminate; try reflexivity.
    apply IH.
  - destruct (Ascii.compare b c) eqn:Ebc; try discriminate.
    + apply Ascii.compare_eq_iff in Ebc. subst c. now rewrite Eab.
    + now rewrite (ascii_compare_Lt_trans _ _ _ Eab Ebc).
Qed.

Lemma Qle_bool_total (p q : Q) : Qle_bool p q = true \/ Qle_bool q p = true.
Proof.
  rewrite !Qle_bool_iff. destruct (Qlt_le_dec p q) as [H | H]; [left | right];
    [now apply Qlt_le_weak | assumption].
Qed.

Lemma Qle_bool_trans (p q r : Q) :
  Qle_bool p q = true -> Qle_bool q r = true -> Qle_bool p r = true.
Proof. rewrite !Qle_bool_iff. apply Qle_trans. Qed.

Lemma cell_leb_total (a b : cell) :
  cell_leb a b = true \/ cell_leb b a = true.
Proof.
  destruct a as [|s|q|t|x], b as [|s'|q'|t'|y]; simpl; auto;
    try apply String.leb_total; try apply Qle_bool_total.
  destruct (Z.leb_spec t t'); [now left|].
  right. apply Z.leb_le. lia.
Qed.

Lemma cell_leb_trans (a b c : cell) :
  cell_leb a b = true -> cell_leb b c = true -> cell_leb a c = true.
Proof.
  destruct a as [|s|q|t|x], b as [|s'|q'|t'|y], c as [|s''|q''|t''|z]; simpl;
    try discriminate; try reflexivity;
    try apply string_leb_trans; try apply Qle_bool_trans.
  rewrite !Z.leb_le. lia.
Qed.

Lemma cell_eqb_Str (s : string) (b : cell) :
  cell_eqb (Str s) b = true -> b = Str s.
Proof.
  destruct b; simpl; try discriminate.
  intro H. apply String.eqb_eq in H. now subst.
Qed.

(** The head of a sorted list is its least element. *)
Lemma sort_by_head_least {A : Type} (leb : A -> A -> bool) (l : list A)
    (x : A) (rest : list A) :
  (forall a b, leb a b = true \/ leb b a = true) ->
  (forall a b c, leb a b = true -> leb b c = true -> leb a c = true) ->
  sort_by leb l = x :: rest ->
  In x l /\ forall y, In y l -> leb x y = true.
Proof.
  intros Htot Htrans E.
  pose proof (sort_by_sorted leb l Htot Htrans) as Hs.
  pose proof (sort_by_perm leb l) as Hp. rewrite E in Hs, Hp.
  split.
  - apply (Permutation_in _ Hp). now left.
  - intros y Hy. apply (Permutation_in _ (Permutation_sym Hp)) in Hy.
    destruct Hy as [<- | Hy].
    + destruct (Htot x x); assumption.
    + inversion Hs as [|? ? _ Hall]; subst.
      rewrite Forall_forall in Hall. now apply Hall.
Qed.

(* ================================================================== *)
(** * The most frequent value *)

Lemma unique_incl (l : list cell) (v : cell) : In v (unique l) -> In v l.
Proof.
  induction l as [|c l IH]; simpl; [tauto|].
  intros [<- | H]; [now left|]. apply filter_In in H. right. tauto.
Qed.

Lemma unique_representative (l : list cell) (v : cell) :
  In v l -> exists v', In v' (unique l) /\ cell_eqb v v' = true.
Proof.
  induction l as [|c l IH]; simpl; [tauto|].
  intros [<- | H].
  - exists c. split; [now left | apply cell_eqb_refl].
  - destruct (IH H) as (v' & Hv' & E).
    destruct (cell_eqb v' c) eqn:Ec.
    + exists c. split; [now left | now apply (cell_eqb_trans _ _ _ E)].
    + exists v'. split; [|assumption]. right. apply filter_In.
      split; [assumption | now rewrite Ec].
Qed.

Lemma unique_text (l : list cell) (v : cell) :
  text_cell v -> In v l -> In v (unique l).
Proof.
  intros (s & ->) H. destruct (unique_representative _ _ H) as (v' & Hv' & E).
  apply cell_eqb_Str in E. now subst.
Qed.

Lemma filter_notnull_text (l : list cell) :
  Forall text_cell l -> filter notnull l = l.
Proof.
  induction 1 as [|c l (s & ->) _ IH]; simpl; [reflexivity | now rewrite IH].
Qed.

Lemma max_bound {A : Type} (f : A -> nat) (l : list A) (a : A) :
  In a l -> f a <= fold_right Nat.max 0 (map f l).
Proof.
  induction l as [|b l IH]; simpl; [tauto|].
  intros [<- | H]; [lia | specialize (IH H); lia].
Qed.

Lemma max_attained {A : Type} (f : A -> nat) (l : list A) :
  l <> [] -> exists a, In a l /\ f a = fold_right Nat.max 0 (map f l).
Proof.
  induction l as [|b l IH]; [congruence|]. intros _. simpl.
  destruct l as [|c l].
  - exists b. split; [now left | simpl; lia].
  - destruct IH as (a & Ha & E); [discriminate|].
    destruct (Nat.le_gt_cases (f b) (fold_right Nat.max 0 (map f (c :: l)))).
    + exists a. split; [now right | lia].
    + exists b. split; [now left | lia].
Qed.

Lemma Forall_select {A : Type} (P : A -> Prop) (mask : list bool)
    (l : list A) :
  Forall P l -> Forall P (select mask l).
Proof.
  intro H. revert mask. induction H as [|a l Ha _ IH]; intros [|b mask];
    simpl; try constructor.
  destruct b; [constructor|]; auto.
Qed.

(** The team of a group: a most frequent value, and the least of them in
    sorted order when several tie. *)
Lemma top_team_spec (x : list cell) :
  x <> [] -> Forall text_cell x ->
  exists team,
    RecurringIssuesAnalyzer.top_team x = Ok team /\
    In team x /\
    (forall v, In v x -> occurrences v x <= occurrences team x) /\
    (forall v, In v x -> occurrences v x = occurrences team x ->
               cell_leb team v = true).
Proof.
  intros Hne Htext.
  unfold RecurringIssuesAnalyzer.top_team, series_mode.
  rewrite (filter_notnull_text _ Htext).
  set (top := fold_right Nat.max 0
                (map (fun v => occurrences v x) (unique x))).
  set (modes := filter (fun v => occurrences v x =? top) (unique x)).
  assert (Hcand : unique x <> []).
  { destruct x as [|c x]; [congruence | discriminate]. }
  destruct (max_attained (fun v => occurrences v x) (unique x) Hcand)
    as (m & Hm & Em). fold top in Em.
  assert (Hmodes : In m modes).
  { unfold modes. apply filter_In. split; [assumption|].
    now apply Nat.eqb_eq. }
  destruct (sort_by cell_leb modes) as [|team rest] eqn:Es.
  { exfalso. apply (Permutation_in _ (Permutation_sym (sort_by_perm cell_leb modes)))
      in Hmodes. rewrite Es in Hmodes. contradiction. }
  destruct (sort_by_head_least cell_leb modes team rest cell_leb_total
              cell_leb_trans Es) as (Hteam & Hleast).
  unfold modes in Hteam. apply filter_In in Hteam.
  destruct Hteam as (Hteam & Etop). apply Nat.eqb_eq in Etop.
  exists team. split; [destruct x; [congruence | reflexivity]|].
  split; [now apply unique_incl|].
  rewrite Forall_forall in Htext. split.
  - intros v Hv. rewrite Etop.
    apply (max_bound (fun v => occurrences v x)).
    apply unique_text; auto.
  - intros v Hv E. apply Hleast. unfold modes. apply filter_In.
    split; [apply unique_text; auto|]. apply Nat.eqb_eq. congruence.
Qed.

(* ================================================================== *)
(** * Recurring issues *)

Lemma map2_keys_In (la lb : list cell) (key : list cell) :
  In key (map2 (fun x y => [x; y]) la lb) ->
  exists i x y, key = [x; y] /\ nth_error la i = Some x /\
                nth_error lb i = Some y.
Proof.
  revert lb. induction la as [|a la IH]; intros [|b lb] H; simpl in H;
    try contradiction.
  destruct H as [<- | H].
  - exists 0, a, b. auto.
  - destruct (IH _ H) as (i & x & y & E & Hx & Hy).
    exists (S i), x, y. auto.
Qed.

Lemma mask_members (cs ts : list cell) (c t : cell) :
  map (fun rk => key_eqb rk [c; t]) (map2 (fun x y => [x; y]) cs ts) =
  members cs ts c t.
Proof.
  unfold members, same_issue. revert ts.
  induction cs as [|x cs IH]; intros [|y ts]; simpl; try reflexivity.
  now rewrite IH, andb_true_r.
Qed.

Lemma count_true_pos (mask : list bool) (i : nat) :
  nth_error mask i = Some true -> 0 < count_true mask.
Proof.
  unfold count_true. revert i.
  induction mask as [|b mask IH]; intros [|i] H; simpl in *; try discriminate.
  - inversion H; subst. simpl. lia.
  - specialize (IH _ H). destruct b; simpl; lia.
Qed.

Lemma Forall2_map_l {A B C : Type} (f : A -> B) (R : B -> C -> Prop)
    (l : list A) (l' : list C) :
  Forall2 R (map f l) l' -> Forall2 (fun a c => R (f a) c) l l'.
Proof.
  revert l'. induction l as [|a l IH]; intros l' H; inversion H; subst;
    constructor; auto.
Qed.

Lemma Forall2_In_l {A B : Type} (R : A -> B -> Prop) (l : list A)
    (l' : list B) (a : A) :
  Forall2 R l l' -> In a l -> exists b, In b l' /\ R a b.
Proof.
  induction 1 as [|x y l l' Hxy _ IH]; simpl; [tauto|].
  intros [<- | H]; [eauto|]. destruct (IH H) as (b & Hb & Hr). eauto.
Qed.

Lemma Forall2_In_r {A B : Type} (R : A -> B -> Prop) (l : list A)
    (l' : list B) (b : B) :
  Forall2 R l l' -> In b l' -> exists a, In a l /\ R a b.
Proof.
  induction 1 as [|x y l l' Hxy _ IH]; simpl; [tauto|].
  intros [<- | H]; [eauto|]. destruct (IH H) as (a & Ha & Hr). eauto.
Qed.

Lemma Forall2_filter_length {A B : Type} (R : A -> B -> Prop)
    (f : A -> bool) (g : B -> bool) (l : list A) (l' : list B) :
  Forall2 R l l' -> (forall a b, In a l -> R a b -> f a = g b) ->
  length (filter f l) = length (filter g l').
Proof.
  intros H Hfg. induction H as [|x y l l' Hxy _ IH]; simpl; [reflexivity|].
  rewrite (Hfg _ _ (or_introl eq_refl) Hxy).
  assert (E : length (filter f l) = length (filter g l'))
    by (apply IH; intros a b Ha; apply Hfg; now right).
  destruct (g y); simpl; now rewrite E.
Qed.

Lemma StronglySorted_weaken {A : Type} (R S : A -> A -> Prop) (l : list A) :
  (forall a b, R a b -> S a b) -> StronglySorted R l -> StronglySorted S l.
Proof.
  intros HRS. induction 1 as [|a l _ IH Ha]; constructor; auto.
  eapply Forall_impl; [|exact Ha]. auto.
Qed.

Section RecurringIssues.

Variable df : DataFrame.
Variables cs ts ids rts teams : list cell.
Hypothesis Hwf : wf df.
Hypothesis Hcs : getitem df (LStr "category") = Ok (Series cs).
Hypothesis Hts : getitem df (LStr "title") = Ok (Series ts).
Hypothesis Hids : getitem df (LStr "incident_id") = Ok (Series ids).
Hypothesis Hrts : getitem df (LStr "resolution_time") = Ok (Series rts).
Hypothesis Hteams : getitem df (LStr "assigned_team") = Ok (Series teams).
Hypothesis Hnum : forallb numeric_or_null rts = true.
Hypothesis Htext : Forall text_cell teams.

(** What the aggregation makes of the group of one key. *)
Lemma aggregate_group (key : list cell) :
  In key (group_keys (map2 (fun x y => [x; y]) cs ts)) ->
  exists row c t,
    key = [c; t] /\
    RecurringIssuesAnalyzer.aggregate ids rts teams
      (key, map (fun rk => key_eqb rk key)
                (map2 (fun x y => [x; y]) cs ts)) = Ok row /\
    RecurringIssuesAnalyzer.category row = c /\
    RecurringIssuesAnalyzer.title row = t /\
    c <> Null /\ t <> Null /\
    0 < count_true (members cs ts c t) /\
    RecurringIssuesAnalyzer.frequency row =
      series_count (select (members cs ts c t) ids) /\
    series_mean (select (members cs ts c t) rts) =
      Ok (RecurringIssuesAnalyzer.resolution_time row) /\
    In (RecurringIssuesAnalyzer.assigned_team row)
       (select (members cs ts c t) teams) /\
    (forall v, In v (select (members cs ts c t) teams) ->
       occurrences v (select (members cs ts c t) teams) <=
       occurrences (RecurringIssuesAnalyzer.assigned_team row)
                   (select (members cs ts c t) teams)) /\
    (forall v, In v (select (members cs ts c t) teams) ->
       occurrences v (select (members cs ts c t) teams) =
       occurrences (RecurringIssuesAnalyzer.assigned_team row)
                   (select (members cs ts c t) teams) ->
       cell_leb (RecurringIssuesAnalyzer.assigned_team row) v = true).
Proof.
  intro Hkey. apply group_keys_In in Hkey. destruct Hkey as (Hin & Hnn).
  destruct (map2_keys_In _ _ _ Hin) as (i & c & t & -> & Hc & Ht).
  rewrite mask_members. set (m := members cs ts c t).
  pose proof (wf_length _ _ _ Hwf Hcs) as Lcs.
  pose proof (wf_length _ _ _ Hwf Hts) as Lts.
  pose proof (wf_length _ _ _ Hwf Hteams) as Lteams.
  assert (Hmi : nth_error m i = Some true).
  { unfold m, members.
    rewrite (nth_error_map2 (same_issue c t) cs ts i c t Hc Ht).
    unfold same_issue. now rewrite !cell_eqb_refl. }
  pose proof (count_true_pos _ _ Hmi) as Hpos.
  assert (Lm : length m = nrows df).
  { unfold m, members. rewrite length_map2; congruence. }
  destruct (series_mean_total (select m rts)) as (mean & Hmean);
    [now apply forallb_select|].
  destruct (top_team_spec (select m teams)) as (team & Hteam & Hprops).
  { intro E. pose proof (length_select_eq m teams) as Hl.
    rewrite E in Hl. simpl in Hl. lia. }
  { now apply Forall_select. }
  unfold RecurringIssuesAnalyzer.aggregate. rewrite Hmean, Hteam.
  cbn [bind]. eexists. exists c, t. split; [reflexivity|].
  split; [reflexivity|]. cbn.
  simpl in Hnn. apply andb_prop in Hnn. destruct Hnn as (Hcn & Htn).
  apply andb_prop in Htn. destruct Htn as (Htn & _).
  repeat split; try tauto.
  - intro E; subst c; discriminate.
  - intro E; subst t; discriminate.
Qed.

End RecurringIssues.

(** C4, as the code has it: on a non-empty dataset (one column each for
    [category], [title], [incident_id], [resolution_time], [assigned_team];
    numeric resolution times; text teams) [get_top_recurring_issues]
    returns the first [top_n] rows of a table sorted by descending
    [frequency] that has one row for each pair (category, title) occurring
    in a record without null in either; each row gives the count, the mean
    resolution time and the most frequent team of its group, a tie between
    teams going to the least of them in sorted order ([mode()] returns the
    modes sorted), not to the first met. *)
Theorem get_top_recurring_issues_spec (df : DataFrame)
    (cs ts ids rts teams : list cell) (top_n : Z) :
  wf df -> empty df = false ->
  getitem df (LStr "category") = Ok (Series cs) ->
  getitem df (LStr "title") = Ok (Series ts) ->
  getitem df (LStr "incident_id") = Ok (Series ids) ->
  getitem df (LStr "resolution_time") = Ok (Series rts) ->
  getitem df (LStr "assigned_team") = Ok (Series teams) ->
  forallb numeric_or_null rts = true ->
  Forall text_cell teams ->
  exists table,
    RecurringIssuesAnalyzer.get_top_recurring_issues (Some df) top_n =
      Some (head top_n table) /\
    StronglySorted
      (fun a b => RecurringIssuesAnalyzer.frequency b <=
                  RecurringIssuesAnalyzer.frequency a) table /\
    (forall i c t,
       nth_error cs i = Some c -> nth_error ts i = Some t ->
       c <> Null -> t <> Null ->
       exists row, In row table /\
         same_issue (RecurringIssuesAnalyzer.category row)
                    (RecurringIssuesAnalyzer.title row) c t = true) /\
    (forall c t,
       length (filter (fun row =>
                 same_issue c t (RecurringIssuesAnalyzer.category row)
                            (RecurringIssuesAnalyzer.title row)) table) <= 1) /\
    (forall row, In row table -> issue_group cs ts ids rts teams row).
Proof.
  intros Hwf Hne Hcs Hts Hids Hrts Hteams Hnum Htext.
  pose proof (wf_length _ _ _ Hwf Hcs) as Lcs.
  pose proof (wf_length _ _ _ Hwf Hts) as Lts.
  unfold RecurringIssuesAnalyzer.get_top_recurring_issues. rewrite Hne.
  rewrite (groupby_spec df _ [cs; ts])
    by (cbn [mapM]; now rewrite (series_Series _ _ _ Hcs),
                                (series_Series _ _ _ Hts)).
  cbn [bind].
  rewrite (series_Series _ _ _ Hids), (series_Series _ _ _ Hrts),
    (series_Series _ _ _ Hteams). cbn [bind].
  rewrite (zip_rows_2 _ _ _ Lcs Lts).
  set (row_keys := map2 (fun x y => [x; y]) cs ts).
  set (mk := fun key : list cell =>
               (key, map (fun rk => key_eqb rk key) row_keys)).
  pose proof (aggregate_group df cs ts ids rts teams Hwf Hcs Hts Hteams Hnum
                Htext) as Hagg. fold row_keys in Hagg.
  destruct (mapM_total (RecurringIssuesAnalyzer.aggregate ids rts teams)
              (map mk (group_keys row_keys))) as (rows0 & Hrows0).
  { apply Forall_forall. intros g Hg. apply in_map_iff in Hg.
    destruct Hg as (key & <- & Hkey).
    destruct (Hagg key Hkey) as (row & c & t & _ & Hrow & _). eauto. }
  rewrite Hrows0. cbn [bind try_except].
  set (table := sort_by RecurringIssuesAnalyzer.by_frequency_desc rows0).
  exists table. split; [reflexivity|].
  apply mapM_Forall2, Forall2_map_l in Hrows0.
  assert (Hperm : Permutation table rows0) by apply sort_by_perm.
  (* each row with its key *)
  assert (Hrow_key : forall key row, In key (group_keys row_keys) ->
            RecurringIssuesAnalyzer.aggregate ids rts teams (mk key) = Ok row ->
            key = [RecurringIssuesAnalyzer.category row;
                   RecurringIssuesAnalyzer.title row] /\
            issue_group cs ts ids rts teams row).
  { intros key row Hkey Hrow.
    destruct (Hagg key Hkey) as (row' & c & t & -> & Hrow' & Hc & Ht & Hprops).
    unfold mk in Hrow. rewrite Hrow in Hrow'. inversion Hrow'; subst row'.
    subst c t. split; [reflexivity|]. exact Hprops. }
  split; [|split; [|split]].
  - apply (StronglySorted_weaken
             (fun a b => RecurringIssuesAnalyzer.by_frequency_desc a b = true)).
    + intros a b H. now apply Nat.leb_le in H.
    + apply sort_by_sorted.
      * intros a b. unfold RecurringIssuesAnalyzer.by_frequency_desc.
        rewrite !Nat.leb_le. lia.
      * intros a b c. unfold RecurringIssuesAnalyzer.by_frequency_desc.
        rewrite !Nat.leb_le. lia.
  - intros i c t Hc Ht Hcn Htn.
    assert (Hin : In [c; t] row_keys).
    { unfold row_keys. eapply nth_error_In.
      now apply (nth_error_map2 (fun x y => [x; y]) cs ts i c t). }
    assert (Hnn : forallb notnull [c; t] = true).
    { simpl. destruct c, t; simpl; congruence. }
    pose proof (group_keys_representatives row_keys _ Hin) as Hrep.
    rewrite Hnn in Hrep. unfold representatives in Hrep.
    destruct (filter (key_eqb [c; t]) (group_keys row_keys)) as [|key l] eqn:Ef;
      [discriminate|].
    assert (Hkey : In key (filter (key_eqb [c; t]) (group_keys row_keys)))
      by (rewrite Ef; now left).
    apply filter_In in Hkey. destruct Hkey as (Hkey & Eq).
    destruct (Forall2_In_l _ _ _ _ Hrows0 Hkey) as (row & Hrow & Hok).
    destruct (Hrow_key key row Hkey Hok) as (-> & _).
    exists row. split; [now apply (Permutation_in _ (Permutation_sym Hperm))|].
    unfold same_issue. simpl in Eq. now rewrite andb_true_r in Eq.
  - intros c t. rewrite (filter_length_perm _ _ _ Hperm).
    rewrite <- (Forall2_filter_length _ (key_eqb [c; t]) _ _ _ Hrows0).
    + apply group_keys_distinct.
    + intros key row Hkey Hok.
      destruct (Hrow_key key row Hkey Hok) as (-> & _).
      unfold same_issue. simpl. rewrite andb_true_r.
      now rewrite (cell_eqb_sym c), (cell_eqb_sym t).
  - intros row Hrow. apply (Permutation_in _ Hperm) in Hrow.
    destruct (Forall2_In_r _ _ _ _ Hrows0 Hrow) as (key & Hkey & Hok).
    now destruct (Hrow_key key row Hkey Hok).
Qed.

Lemma get_top_recurring_issues_spec_witness :
  exists table,
    RecurringIssuesAnalyzer.get_top_recurring_issues
      (Some (mkDF 3
         [(LStr "category", [Str "Database"; Str "Database"; Str "Access"]);
          (LStr "title",
           [Str "Database outage"; Str "Database outage"; Str "Login failure"]);
          (LStr "incident_id", [Num 1; Num 2; Num 3]);
          (LStr "resolution_time", [Num 3; Num 5; Null]);
          (LStr "assigned_team", [Str "Zeta"; Str "Alpha"; Str "Alpha"])]))
      10 = Some (head 10 table) /\
    exists row, In row table /\
      RecurringIssuesAnalyzer.title row = Str "Database outage" /\
      RecurringIssuesAnalyzer.frequency row = 2.
Proof.
  destruct (get_top_recurring_issues_spec
      (mkDF 3
         [(LStr "category", [Str "Database"; Str "Database"; Str "Access"]);
          (LStr "title",
           [Str "Database outage"; Str "Database outage"; Str "Login failure"]);
          (LStr "incident_id", [Num 1; Num 2; Num 3]);
          (LStr "resolution_time", [Num 3; Num 5; Null]);
          (LStr "assigned_team", [Str "Zeta"; Str "Alpha"; Str "Alpha"])])
      [Str "Database"; Str "Database"; Str "Access"]
      [Str "Database outage"; Str "Database outage"; Str "Login failure"]
      [Num 1; Num 2; Num 3] [Num 3; Num 5; Null]
      [Str "Zeta"; Str "Alpha"; Str "Alpha"] 10)
    as (table & Htable & _ & Hcover & _ & Hgroups).
  - repeat constructor.
  - reflexivity.
  - reflexivity.
  - reflexivity.
  - reflexivity.
  - reflexivity.
  - reflexivity.
  - reflexivity.
  - repeat constructor; eexists; reflexivity.
  - exists table. split; [exact Htable|].
    destruct (Hcover 0 (Str "Database") (Str "Database outage") eq_refl eq_refl)
      as (row & Hrow & Hsame); try discriminate.
    exists row. split; [exact Hrow|].
    destruct (Hgroups row Hrow) as (_ & _ & _ & Hfreq & _).
    unfold same_issue in Hsame. apply andb_prop in Hsame.
    destruct Hsame as (Hc & Ht).
    apply cell_eqb_Str in Hc, Ht.
    split; [exact Ht|]. rewrite Hfreq, Hc, Ht. reflexivity.
Defined.

(** C4 as the claim words it fails: two records of one issue, the first
    with team "Zeta", the second with team "Alpha", tie at one occurrence
    each; the first mode value met in row order is "Zeta", the row reports
    "Alpha". *)
Lemma recurring_issue_tie_counterexample :
  let teams := [Str "Zeta"; Str "Alpha"] in
  let df :=
    mkDF 2 [(LStr "category", [Str "Database"; Str "Database"]);
            (LStr "title", [Str "Outage"; Str "Outage"]);
            (LStr "incident_id", [Num 1; Num 2]);
            (LStr "resolution_time", [Num 3; Num 5]);
            (LStr "assigned_team", teams)] in
  exists row,
    RecurringIssuesAnalyzer.get_top_recurring_issues (Some df) 10 = Some [row]
    /\ RecurringIssuesAnalyzer.frequency row = 2
    /\ first_mode_encountered teams = Some (Str "Zeta")
    /\ RecurringIssuesAnalyzer.assigned_team row = Str "Alpha"
    /\ Some (RecurringIssuesAnalyzer.assigned_team row)
       <> first_mode_encountered teams.
Proof.
  cbv zeta. eexists. split; [vm_compute; reflexivity|].
  split; [reflexivity|]. split; [reflexivity|]. split; [reflexivity|].
  vm_compute. discriminate.
Qed.

(* ================================================================== *)
(** * Schema mapping, continued *)

(** Every canonical name is among its own synonyms. *)
Lemma own_alias (std : string) (vars : list string) :
  In (std, vars) get_column_mappings -> alias vars std = true.
Proof.
  intro Hm. simpl in Hm.
  repeat (destruct Hm as [Hm|Hm]; [inversion Hm; subst; reflexivity|]);
    contradiction.
Qed.

Lemma mappings_functional (std : string) (v1 v2 : list string) :
  In (std, v1) get_column_mappings -> In (std, v2) get_column_mappings ->
  v1 = v2.
Proof.
  intros H1 H2.
  pose proof (aliases_disjoint (std, v1) (std, v2) std H1 H2
                (own_alias _ _ H1) (own_alias _ _ H2)) as E.
  now inversion E.
Qed.

Lemma first_match_None (variations : list string) (cols : list label) :
  first_match variations cols = Ok None ->
  Forall (fun c => exists s', c = LStr s' /\ alias variations s' = false) cols.
Proof.
  induction cols as [|c cols IH]; simpl; intro H; [constructor|].
  destruct c as [s|z]; simpl in H; [|discriminate].
  fold (alias variations s) in H.
  destruct (alias variations s) eqn:Ea; [discriminate|].
  constructor; eauto.
Qed.

Lemma first_match_none_intro (variations : list string) (cols : list label) :
  Forall (fun c => exists s', c = LStr s' /\ alias variations s' = false) cols ->
  first_match variations cols = Ok None.
Proof.
  induction 1 as [|c cols (s' & -> & Hs') _ IH]; simpl; [reflexivity|].
  fold (alias variations s'). now rewrite Hs'.
Qed.

(** An entry of the dict that [standardize_columns] builds: the key is the
    first column that matches the synonyms of the value. *)
Lemma build_mapping_entry (cols : list label) (d : list (label * string))
    (k : label) (s : string) :
  build_mapping get_column_mappings cols [] = Ok d ->
  dict_get d k = Some s ->
  exists vars, In (s, vars) get_column_mappings /\
               first_match vars cols = Ok (Some k).
Proof.
  intros Hd Hg.
  destruct (build_mapping_sound _ _ _ _ _ _ Hd Hg) as [Hnil|H];
    [discriminate | exact H].
Qed.

Lemma build_mapping_first (cols : list label) (d : list (label * string))
    (k : label) (std : string) (vars : list string) :
  build_mapping get_column_mappings cols [] = Ok d ->
  In (std, vars) get_column_mappings ->
  first_match vars cols = Ok (Some k) ->
  dict_get d k = Some std.
Proof.
  intros Hd Hm Hf.
  destruct (build_mapping_complete _ _ _ _ _ _ _ Hd Hm Hf) as (s & Hg).
  destruct (build_mapping_entry _ _ _ _ Hd Hg) as (vars' & Hm' & Hf').
  apply first_match_Some in Hf. destruct Hf as (_ & _ & s0 & _ & -> & Ha & _).
  apply first_match_Some in Hf'.
  destruct Hf' as (_ & _ & s1 & _ & E1 & Ha' & _). inversion E1; subst s1.
  pose proof (aliases_disjoint (s, vars') (std, vars) s0 Hm' Hm Ha' Ha) as E.
  inversion E; subst. exact Hg.
Qed.

Lemma columns_rename (df : DataFrame) (d : list (label * string)) :
  columns (rename df d) = map (rename_label d) (columns df).
Proof. unfold rename, columns; cbn [data]. now rewrite !map_map. Qed.

(** A column that is no synonym of a field is none after the renaming
    either. *)
Lemma rename_keeps_non_alias (cols : list label) (d : list (label * string))
    (std s : string) (vars : list string) :
  build_mapping get_column_mappings cols [] = Ok d ->
  In (std, vars) get_column_mappings ->
  alias vars s = false ->
  exists s', rename_label d (LStr s) = LStr s' /\ alias vars s' = false.
Proof.
  intros Hd Hm Hs. unfold rename_label.
  destruct (dict_get d (LStr s)) as [std'|] eqn:Hg; [|eauto].
  exists std'; split; [reflexivity|].
  destruct (alias vars std') eqn:Ha; [|reflexivity].
  destruct (build_mapping_entry _ _ _ _ Hd Hg) as (vars' & Hm' & Hf).
  assert (Hcan : In std' canonical_fields).
  { unfold canonical_fields. apply in_map_iff. now exists (std', vars'). }
  pose proof (canonical_alias std std' vars Hm Hcan Ha) as E; subst std'.
  rewrite (mappings_functional std vars' vars Hm' Hm) in Hf.
  apply first_match_Some in Hf.
  destruct Hf as (_ & _ & s0 & _ & E0 & Ha0 & _). inversion E0; subst s0.
  congruence.
Qed.

(** The first match of a field in the renamed columns: the canonical name
    where there was a match, none where there was none. *)
Lemma first_match_renamed (cols : list label) (d : list (label * string))
    (std : string) (vars : list string) :
  Forall text_label cols ->
  build_mapping get_column_mappings cols [] = Ok d ->
  In (std, vars) get_column_mappings ->
  first_match vars (map (rename_label d) cols) = Ok (Some (LStr std)) \/
  first_match vars (map (rename_label d) cols) = Ok None.
Proof.
  intros Htext Hd Hm.
  assert (Hpre : forall pre,
    Forall (fun c => exists s', c = LStr s' /\ alias vars s' = false) pre ->
    Forall (fun c => exists s', c = LStr s' /\ alias vars s' = false)
           (map (rename_label d) pre)).
  { induction 1 as [|c pre (s' & -> & Hs') _ IH]; simpl; constructor; auto.
    exact (rename_keeps_non_alias cols d std s' vars Hd Hm Hs'). }
  destruct (first_match_total vars cols Htext) as ([k|] & Hf).
  - left. pose proof (build_mapping_first _ _ _ _ _ Hd Hm Hf) as Hg.
    apply first_match_Some in Hf.
    destruct Hf as (pre & post & s & -> & -> & Ha & Hp).
    rewrite map_app; simpl. unfold rename_label at 2. rewrite Hg.
    apply first_match_prefix; [now apply Hpre | now apply own_alias with (1 := Hm)].
  - right. apply first_match_none_intro, Hpre. now apply first_match_None.
Qed.

Lemma rename_label_text (d : list (label * string)) (c : label) :
  text_label c -> text_label (rename_label d c).
Proof.
  intros (s & ->). unfold rename_label.
  destruct (dict_get d (LStr s)) as [s'|]; eexists; reflexivity.
Qed.

(** X1: [standardize_columns] changes labels only, and a label only to the
    canonical name of a field it is a synonym of: the number of rows, the
    cells and the number of columns stay, and each column either keeps its
    label or, being a synonym of a field, takes that field's name.  So a
    column that is a synonym of no field always keeps its label. *)
Theorem standardize_columns_renames_only_aliases (df df' : DataFrame) :
  standardize_columns df = Ok df' ->
  nrows df' = nrows df /\
  map snd (data df') = map snd (data df) /\
  length (columns df') = length (columns df) /\
  forall j l, nth_error (columns df) j = Some l ->
    nth_error (columns df') j = Some l \/
    exists s std vars,
      l = LStr s /\ In (std, vars) get_column_mappings /\
      alias vars s = true /\ nth_error (columns df') j = Some (LStr std).
Proof.
  unfold standardize_columns. intro H. inv_bind H. inversion H; subst df'.
  rename x into d.
  split; [reflexivity|].
  split; [unfold rename; cbn [data]; now rewrite map_map|].
  rewrite columns_rename. split; [apply length_map|].
  intros j l Hj. rewrite nth_error_map, Hj; cbn [option_map].
  unfold rename_label. destruct (dict_get d l) as [std|] eqn:Hg; [|now left].
  right. destruct (build_mapping_entry _ _ _ _ E Hg) as (vars & Hm & Hf).
  apply first_match_Some in Hf. destruct Hf as (_ & _ & s & _ & -> & Ha & _).
  now exists s, std, vars.
Qed.

Lemma standardize_columns_renames_only_aliases_witness :
  exists df',
    standardize_columns
      (mkDF 1 [(LStr "Ticket_ID", [Num 7]); (LStr "owner", [Str "ann"]);
               (LStr "Severity", [Str "High"])]) = Ok df' /\
    nrows df' = 1 /\
    map snd (data df') = [[Num 7]; [Str "ann"]; [Str "High"]] /\
    nth_error (columns df') 1 = Some (LStr "owner").
Proof.
  eexists. split; [reflexivity|].
  destruct (standardize_columns_renames_only_aliases
              (mkDF 1 [(LStr "Ticket_ID", [Num 7]); (LStr "owner", [Str "ann"]);
                       (LStr "Severity", [Str "High"])]) _ eq_refl)
    as (Hn & Hd & _ & Hl).
  split; [exact Hn|]. split; [exact Hd|].
  destruct (Hl 1 (LStr "owner") eq_refl)
    as [H | (s & std & vars & Es & Hm & Ha & _)]; [exact H|].
  inversion Es; subst s. simpl in Hm.
  repeat (destruct Hm as [Hm|Hm];
          [inversion Hm; subst; vm_compute in Ha; discriminate Ha|]).
  contradiction.
Defined.

(** X2: [standardize_columns] is idempotent on a table whose labels are
    all text: mapping the mapped table again gives the mapped table. *)
Theorem standardize_columns_idempotent (df df' : DataFrame) :
  Forall text_label (columns df) ->
  standardize_columns df = Ok df' ->
  standardize_columns df' = Ok df'.
Proof.
  intros Htext H. unfold standardize_columns in H. inv_bind H.
  inversion H; subst df'. rename x into d. clear H.
  unfold standardize_columns. rewrite columns_rename.
  assert (Htext' : Forall text_label (map (rename_label d) (columns df))).
  { rewrite Forall_map. eapply Forall_impl; [|exact Htext].
    intros c Hc. now apply rename_label_text. }
  destruct (build_mapping_total get_column_mappings _ [] Htext') as (d2 & Hd2).
  rewrite Hd2; cbn [bind]. f_equal.
  assert (Hid : forall k s, dict_get d2 k = Some s -> k = LStr s).
  { intros k s Hg.
    destruct (build_mapping_entry _ _ _ _ Hd2 Hg) as (vars & Hm & Hf).
    destruct (first_match_renamed _ d s vars Htext E Hm) as [H|H];
      rewrite H in Hf; now inversion Hf. }
  assert (Hdata : map (fun c => (rename_label d2 (fst c), snd c))
                      (data (rename df d)) = data (rename df d)).
  { rewrite <- (map_id (data (rename df d))) at 2. apply map_ext.
    intros [c cells]; cbn [fst snd]. f_equal.
    unfold rename_label.
    destruct (dict_get d2 c) as [s|] eqn:Hg; [|reflexivity].
    symmetry. exact (Hid _ _ Hg). }
  unfold rename at 1. rewrite Hdata. reflexivity.
Qed.

Lemma standardize_columns_idempotent_witness :
  standardize_columns
    (mkDF 1 [(LStr "incident_id", [Num 1]); (LStr "ticket_id", [Num 2]);
             (LStr "title", [Str "Disk full"])]) =
  Ok (mkDF 1 [(LStr "incident_id", [Num 1]); (LStr "ticket_id", [Num 2]);
              (LStr "title", [Str "Disk full"])]).
Proof.
  apply (standardize_columns_idempotent
           (mkDF 1 [(LStr "ID", [Num 1]); (LStr "ticket_id", [Num 2]);
                    (LStr "Summary", [Str "Disk full"])])).
  - repeat constructor; eexists; reflexivity.
  - reflexivity.
Defined.

(* ================================================================== *)
(** * The steps of the normalization, continued *)

Lemma length_range_cells (lo : Z) (n : nat) : length (range_cells lo n) = n.
Proof. revert lo. induction n; intro lo; simpl; auto. Qed.


(** [df[l] = values] where the one column labelled [l] holds [values]
    already changes nothing. *)
Lemma setitem_same (df : DataFrame) (l : label) (values : list cell) :
  columns_named df l = [values] -> length values = nrows df ->
  setitem df l values = Ok df.
Proof.
  intros Hc Hl. unfold setitem, len. rewrite Hl, Nat.eqb_refl; cbn [negb].
  rewrite has_column_named, Hc; cbn [length Nat.eqb negb].
  destruct df as [n d]; cbn [nrows data] in *. do 2 f_equal.
  rewrite <- (map_id d) at 2. apply map_ext_in. intros [c cells] Hin.
  cbn [fst]. destruct (label_eqb c l) eqn:E; [|reflexivity].
  f_equal. unfold columns_named in Hc; cbn [data] in Hc.
  assert (Hin' : In cells (map snd (filter (fun c => label_eqb (fst c) l) d))).
  { apply in_map_iff. exists (c, cells). split; [reflexivity|].
    apply filter_In. now split. }
  rewrite Hc in Hin'. destruct Hin' as [<- | []]. reflexivity.
Qed.

Section NormalizationSteps.

Variable now : Z.
Variable parse_datetime : list cell -> cell -> option Z.

Lemma add_missing_column_total (df : DataFrame) (col : string) :
  exists df', add_missing_column now df col = Ok df'.
Proof.
  unfold add_missing_column.
  destruct (has_column df (LStr col)); cbn [negb]; [eauto|].
  destruct (String.eqb col "incident_id").
  - apply setitem_total, length_range_cells.
  - destruct (mem_string col text_fields); [apply setitem_scalar_total|].
    destruct (mem_string col _); [apply setitem_scalar_total | eauto].
Qed.

Lemma add_missing_fold_total (cols : list string) (df : DataFrame) :
  exists df', foldM (add_missing_column now) cols df = Ok df'.
Proof.
  revert df. induction cols as [|c cols IH]; intro df; cbn [foldM]; eauto.
  destruct (add_missing_column_total df c) as (df1 & ->); cbn [bind].
  apply IH.
Qed.



Lemma to_datetime_cell_shape (column : list cell) (c : cell) :
  timestamp_or_null (to_datetime_cell parse_datetime column c) = true /\
  (timestamp_or_null c = true ->
   to_datetime_cell parse_datetime column c = c).
Proof.
  destruct c; simpl; try (destruct (parse_datetime column _)); auto;
    split; auto; discriminate.
Qed.

Lemma to_datetime_fixed (cells : list cell) :
  forallb timestamp_or_null cells = true ->
  map (to_datetime_cell parse_datetime cells) cells = cells.
Proof.
  intro H. rewrite <- (map_id cells) at 3. apply map_ext_in.
  intros c Hc. rewrite forallb_forall in H.
  now apply to_datetime_cell_shape, H.
Qed.

(** Converting a column of timestamps changes nothing. *)
Lemma convert_date_column_fixed (df : DataFrame) (col : string) :
  (has_column df (LStr col) = true ->
   exists cells,
     columns_named df (LStr col) = [cells] /\ length cells = nrows df /\
     forallb timestamp_or_null cells = true) ->
  convert_date_column parse_datetime df col = Ok df.
Proof.
  intro H. unfold convert_date_column.
  destruct (has_column df (LStr col)); [|reflexivity].
  destruct (H eq_refl) as (cells & Hc & Hl & Hts).
  apply getitem_Series in Hc. rewrite Hc; cbn [bind to_datetime].
  rewrite (to_datetime_fixed _ Hts). apply getitem_Series in Hc.
  now apply setitem_same.
Qed.

End NormalizationSteps.

Lemma add_missing_columns_ok (now : Z) (df : DataFrame) :
  exists df',
    add_missing_columns now df = Ok df' /\
    nrows df' = nrows df /\
    (forall c, In c required_columns -> has_column df' (LStr c) = true) /\
    (forall l, has_column df l = true ->
       columns_named df' l = columns_named df l) /\
    (forall l, has_column df' l = true ->
       has_column df l = true \/
       exists c, In c required_columns /\ l = LStr c).
Proof.
  unfold add_missing_columns.
  destruct (add_missing_fold_total now required_columns df) as (df' & H).
  exists df'. split; [exact H|].
  destruct (add_missing_fold_inv now _ _ _ H required_columns_NoDup
              (fun c Hc => Hc)) as (Hn & Hother & Hcols).
  assert (Hdec : forall l, (exists c, In c required_columns /\ l = LStr c) \/
                           (forall c, In c required_columns -> l <> LStr c)).
  { intros [s|z].
    - destruct (in_dec string_dec s required_columns) as [Hin|Hout].
      + left; eauto.
      + right; intros c Hc E; inversion E; subst; contradiction.
    - right; intros c _ E; discriminate. }
  split; [exact Hn|]. split; [intros c Hc; apply Hcols, Hc|]. split.
  - intros l Hl. destruct (Hdec l) as [(c & Hc & ->) | Hno].
    + now apply Hcols.
    + now apply Hother.
  - intros l Hl. destruct (Hdec l) as [Hreq | Hno]; [now right|].
    left. now rewrite <- (has_column_congr _ _ _ (Hother l Hno)).
Qed.

(** X3: [add_missing_columns] never fails and completes the table: all
    eight required columns are present afterwards, the number of rows is
    the same, every column the table had keeps its cells, and the only
    columns added are required ones. *)
Theorem add_missing_columns_complete (now : Z) (df : DataFrame) :
  exists df',
    add_missing_columns now df = Ok df' /\
    nrows df' = nrows df /\
    (forall c, In c required_columns -> has_column df' (LStr c) = true) /\
    (forall l, has_column df l = true ->
       columns_named df' l = columns_named df l) /\
    (forall l, has_column df' l = true ->
       has_column df l = true \/
       exists c, In c required_columns /\ l = LStr c).
Proof. exact (add_missing_columns_ok now df). Qed.



(** X5: [convert_date_columns] turns the two date columns into columns of
    timestamps: every cell of [created_date] and [resolved_date] is a
    timestamp or missing afterwards, a cell that was one already is left as
    it was, and nothing else in the table changes; a date column that is
    absent is not created. *)
Theorem convert_date_columns_timestamps
    (parse_datetime : list cell -> cell -> option Z) (df df' : DataFrame) :
  convert_date_columns parse_datetime df = Ok df' ->
  nrows df' = nrows df /\
  (forall l, l <> LStr "created_date" -> l <> LStr "resolved_date" ->
     columns_named df' l = columns_named df l) /\
  forall d, In d ["created_date"; "resolved_date"] ->
    (has_column df (LStr d) = false -> has_column df' (LStr d) = false) /\
    (has_column df (LStr d) = true ->
     exists cells cells',
       getitem df (LStr d) = Ok (Series cells) /\
       getitem df' (LStr d) = Ok (Series cells') /\
       length cells' = length cells /\
       forallb timestamp_or_null cells' = true /\
       forall k c, nth_error cells k = Some c -> timestamp_or_null c = true ->
                   nth_error cells' k = Some c).
Proof.
  unfold convert_date_columns. cbn [foldM]. intro H.
  inv_bind H. rename x into df1, E into H1. inv_bind H. rename x into df2.
  inversion H; subst df'; clear H.
  destruct (convert_date_column_inv parse_datetime _ _ _ H1)
    as (Hn1 & Ho1 & Hc1).
  destruct (convert_date_column_inv parse_datetime _ _ _ E)
    as (Hn2 & Ho2 & Hc2).
  assert (Hshape : forall cells : list cell,
    forallb timestamp_or_null
      (map (to_datetime_cell parse_datetime cells) cells) = true /\
    forall k c, nth_error cells k = Some c -> timestamp_or_null c = true ->
      nth_error (map (to_datetime_cell parse_datetime cells) cells) k = Some c).
  { intro cells. split.
    - apply forallb_forall. intros c Hc. apply in_map_iff in Hc.
      destruct Hc as (c0 & <- & _). apply to_datetime_cell_shape.
    - intros k c Hk Hts. rewrite nth_error_map, Hk; cbn [option_map].
      f_equal. now apply to_datetime_cell_shape. }
  split; [congruence|]. split.
  { intros l N1 N2. now rewrite Ho2, Ho1. }
  intros d [<- | [<- | []]].
  - rewrite (has_column_congr df1 df2) by (apply Ho2; discriminate).
    rewrite (getitem_congr df1 df2) by (apply Ho2; discriminate).
    split.
    + intro Eh. destruct (has_column df1 (LStr "created_date")) eqn:Eh1;
        [|reflexivity].
      unfold convert_date_column in H1. rewrite Eh in H1.
      inversion H1; subst df1. congruence.
    + intro Eh. destruct (Hc1 Eh) as (cells & Hcells & _ & Hcells').
      exists cells, (map (to_datetime_cell parse_datetime cells) cells).
      split; [now apply getitem_Series|].
      split; [now apply getitem_Series|].
      split; [apply length_map|]. apply Hshape.
  - rewrite <- (has_column_congr df df1 (LStr "resolved_date"))
      by (apply Ho1; discriminate).
    rewrite <- (getitem_congr df df1 (LStr "resolved_date"))
      by (apply Ho1; discriminate).
    split.
    + intro Eh. unfold convert_date_column in E. rewrite Eh in E.
      inversion E; subst df2. exact Eh.
    + intro Eh. destruct (Hc2 Eh) as (cells & Hcells & _ & Hcells').
      exists cells, (map (to_datetime_cell parse_datetime cells) cells).
      split; [now apply getitem_Series|].
      split; [now apply getitem_Series|].
      split; [apply length_map|]. apply Hshape.
Qed.

Lemma convert_date_columns_timestamps_witness :
  exists df' cells',
    convert_date_columns (fun _ _ => None)
      (mkDF 3 [(LStr "created_date", [Date 5; Str "soon"; Null]);
               (LStr "title", [Str "a"; Str "b"; Str "c"])]) = Ok df' /\
    getitem df' (LStr "created_date") = Ok (Series cells') /\
    forallb timestamp_or_null cells' = true /\
    nth_error cells' 0 = Some (Date 5) /\
    has_column df' (LStr "resolved_date") = false.
Proof.
  edestruct (convert_date_columns_timestamps (fun _ _ => None)
               (mkDF 3 [(LStr "created_date", [Date 5; Str "soon"; Null]);
                        (LStr "title", [Str "a"; Str "b"; Str "c"])]))
    as (_ & _ & Hd); [vm_compute; reflexivity|].
  destruct (Hd "created_date") as (_ & Hc); [simpl; tauto|].
  destruct (Hc eq_refl) as (cells & cells' & Hg & Hg' & _ & Hts & Hkeep).
  vm_compute in Hg; inversion Hg; subst cells.
  destruct (Hd "resolved_date") as (Hr & _); [simpl; tauto|].
  eexists; exists cells'. split; [reflexivity|]. split; [exact Hg'|].
  split; [exact Hts|]. split; [apply (Hkeep 0); reflexivity|].
  apply Hr. reflexivity.
Defined.

(** X6: [convert_date_columns] is idempotent: converting the converted
    table again gives the same table. *)
Theorem convert_date_columns_idempotent
    (parse_datetime : list cell -> cell -> option Z) (df df' : DataFrame) :
  convert_date_columns parse_datetime df = Ok df' ->
  convert_date_columns parse_datetime df' = Ok df'.
Proof.
  intro H. pose proof H as H0.
  unfold convert_date_columns in H. cbn [foldM] in H.
  inv_bind H. rename x into df1, E into H1. inv_bind H. rename x into df2.
  inversion H; subst df'; clear H.
  destruct (convert_date_column_inv parse_datetime _ _ _ H1)
    as (Hn1 & Ho1 & Hc1).
  destruct (convert_date_column_inv parse_datetime _ _ _ E)
    as (Hn2 & Ho2 & Hc2).
  assert (Hts : forall cells : list cell,
            forallb timestamp_or_null
              (map (to_datetime_cell parse_datetime cells) cells) = true).
  { intro cells. apply forallb_forall. intros c Hc. apply in_map_iff in Hc.
    destruct Hc as (c0 & <- & _). apply to_datetime_cell_shape. }
  unfold convert_date_columns. cbn [foldM].
  rewrite convert_date_column_fixed; cbn [bind].
  - rewrite convert_date_column_fixed; [reflexivity|].
    intro Eh. destruct (has_column df1 (LStr "resolved_date")) eqn:Eh1.
    + destruct (Hc2 eq_refl) as (cells & _ & Hl & Hcells').
      eexists. split; [exact Hcells'|]. rewrite length_map.
      split; [congruence | apply Hts].
    + unfold convert_date_column in E. rewrite Eh1 in E.
      inversion E; subst df2. congruence.
  - intro Eh.
    rewrite (has_column_congr df1 df2) in Eh by (apply Ho2; discriminate).
    destruct (has_column df (LStr "created_date")) eqn:Eh0.
    + destruct (Hc1 eq_refl) as (cells & _ & Hl & Hcells').
      eexists. rewrite Ho2 by discriminate. split; [exact Hcells'|].
      rewrite length_map. split; [congruence | apply Hts].
    + unfold convert_date_column in H1. rewrite Eh0 in H1.
      inversion H1; subst df1. congruence.
Qed.

Lemma convert_date_columns_idempotent_witness :
  convert_date_columns (fun _ _ => None)
    (mkDF 2 [(LStr "created_date", [Date 5; Null]);
             (LStr "resolved_date", [Null; Null])]) =
  Ok (mkDF 2 [(LStr "created_date", [Date 5; Null]);
              (LStr "resolved_date", [Null; Null])]).
Proof.
  apply (convert_date_columns_idempotent (fun _ _ => None)
           (mkDF 2 [(LStr "created_date", [Date 5; Str "soon"]);
                    (LStr "resolved_date", [Num 3; Null])])).
  vm_compute; reflexivity.
Defined.

(* ================================================================== *)
(** * Tables made by column assignments *)

Lemma assigned_trans (a b c : DataFrame) :
  assigned a b -> assigned b c -> assigned a c.
Proof.
  induction 1 as [|a a1 b l v Hs _ IH]; intro H; [exact H|].
  eapply assigned_step; [exact Hs | now apply IH].
Qed.

Lemma assigned_one (df df' : DataFrame) (l : label) (values : list cell) :
  setitem df l values = Ok df' -> assigned df df'.
Proof. intro H. eapply assigned_step; [exact H | constructor]. Qed.


Lemma assigned_nrows (df df' : DataFrame) :
  assigned df df' -> nrows df' = nrows df.
Proof.
  induction 1 as [|df df1 df' l v Hs _ IH]; [reflexivity|].
  destruct (setitem_inv _ _ _ _ Hs) as (_ & Hn & _). congruence.
Qed.






Section Assignments.

Variable now : Z.
Variable parse_datetime : list cell -> cell -> option Z.

Lemma add_missing_column_assigned (df df' : DataFrame) (col : string) :
  add_missing_column now df col = Ok df' -> assigned df df'.
Proof.
  unfold add_missing_column.
  destruct (has_column df (LStr col)); cbn [negb];
    [intro H; inversion H; constructor|].
  destruct (String.eqb col "incident_id"); [apply assigned_one|].
  destruct (mem_string col text_fields); [apply assigned_one|].
  destruct (mem_string col _); [apply assigned_one|].
  intro H; inversion H; constructor.
Qed.

Lemma foldM_assigned {B : Type} (f : DataFrame -> B -> result DataFrame)
    (l : list B) (df df' : DataFrame) :
  (forall a b a', f a b = Ok a' -> assigned a a') ->
  foldM f l df = Ok df' -> assigned df df'.
Proof.
  intro Hf. revert df. induction l as [|b l IH]; intros df H; cbn [foldM] in H.
  - inversion H; constructor.
  - inv_bind H. eapply assigned_trans; [eapply Hf; exact E | now apply IH].
Qed.

Lemma convert_date_column_assigned (df df' : DataFrame) (col : string) :
  convert_date_column parse_datetime df col = Ok df' -> assigned df df'.
Proof.
  unfold convert_date_column.
  destruct (has_column df (LStr col));
    [|intro H; inversion H; constructor].
  intro H. inv_bind H. inv_bind H. exact (assigned_one _ _ _ _ H).
Qed.

Lemma setitem_sel_assigned (df df' : DataFrame) (l : label) (s : selection) :
  setitem_sel df l s = Ok df' -> assigned df df'.
Proof.
  destruct s as [v | [|v [|]]]; cbn [setitem_sel]; try discriminate;
    apply assigned_one.
Qed.

Lemma calculate_derived_fields_assigned (df df' : DataFrame) :
  calculate_derived_fields df = Ok df' -> assigned df df'.
Proof.
  unfold calculate_derived_fields. intro H.
  inv_bind H. rename x into df1, E into H1.
  inv_bind H. inv_bind H. inv_bind H. rename x1 into df2, E1 into H2.
  inv_bind H. inv_bind H. inv_bind H. rename x3 into df3, E3 into H3.
  inv_bind H. inv_bind H.
  assert (A1 : assigned df df1).
  { destruct (has_column df (LStr "resolution_time")); cbn [negb] in H1.
    - inversion H1; constructor.
    - do 4 inv_bind H1. exact (assigned_one _ _ _ _ H1). }
  eapply assigned_trans; [exact A1|].
  eapply assigned_trans; [exact (assigned_one _ _ _ _ H2)|].
  eapply assigned_trans; [exact (assigned_one _ _ _ _ H3)|].
  exact (setitem_sel_assigned _ _ _ _ H).
Qed.

Lemma preprocess_data_assigned (std df1 df2 df : DataFrame) :
  add_missing_columns now std = Ok df1 ->
  convert_date_columns parse_datetime df1 = Ok df2 ->
  calculate_derived_fields df2 = Ok df ->
  assigned std df.
Proof.
  intros H1 H2 H3.
  eapply assigned_trans;
    [exact (foldM_assigned _ _ _ _
              (fun a b a' => add_missing_column_assigned a a' b) H1)|].
  eapply assigned_trans;
    [exact (foldM_assigned _ _ _ _
              (fun a b a' => convert_date_column_assigned a a' b) H2)|].
  now apply calculate_derived_fields_assigned.
Qed.

End Assignments.

(* ================================================================== *)
(** * The normalized dataset, continued *)

Lemma setitem_sel_inv (df df' : DataFrame) (l : label) (s : selection) :
  setitem_sel df l s = Ok df' -> exists v, setitem df l v = Ok df'.
Proof.
  destruct s as [v | [|v [|]]]; cbn [setitem_sel]; try discriminate; eauto.
Qed.

(** The week labels that [calculate_derived_fields] leaves behind. *)
Lemma calculate_derived_fields_week (df df' : DataFrame) :
  calculate_derived_fields df = Ok df' ->
  exists created cs n,
    columns_named df' (LStr "created_date") = [created] /\
    mapM datetime_cell created = Ok cs /\
    columns_named df' (LStr "week_year") =
      repeat (map (dt_strftime strftime_Y_W_U) cs) (S n).
Proof.
  unfold calculate_derived_fields. intro H.
  inv_bind H. rename x into df1, E into H1.
  inv_bind H. rename x into sel_c, E into Hc.
  inv_bind H. rename x into cs, E into Hcs.
  inv_bind H. rename x into df2, E into H2.
  inv_bind H. rename x into sel_c', E into Hc'.
  inv_bind H. rename x into cs', E into Hcs'.
  inv_bind H. rename x into df3, E into H3.
  inv_bind H. rename x into sel_rt, E into Hrt.
  inv_bind H. rename x into ov, E into Hov.
  apply datetime_series_inv in Hcs'. destruct Hcs' as (created & -> & Hcs').
  apply getitem_Series in Hc'.
  destruct (setitem_inv _ _ _ _ H3) as (_ & _ & Ho3 & Hs3).
  destruct (setitem_sel_inv _ _ _ _ H) as (v & H4).
  destruct (setitem_inv _ _ _ _ H4) as (_ & _ & Ho4 & _).
  exists created, cs', (pred (length (columns_named df2 (LStr "week_year")))).
  split; [rewrite Ho4, Ho3 by discriminate; exact Hc'|].
  split; [exact Hcs'|].
  rewrite Ho4 by discriminate. exact Hs3.
Qed.

Lemma convert_date_column_frame_raises
    (parse_datetime : list cell -> cell -> option Z) (df : DataFrame)
    (col : string) :
  2 <= length (columns_named df (LStr col)) ->
  convert_date_column parse_datetime df col = Raise ValueError.
Proof.
  intro Hlen. unfold convert_date_column.
  rewrite has_column_named. unfold getitem.
  destruct (columns_named df (LStr col)) as [|a [|b cs]];
    simpl in Hlen; try lia. reflexivity.
Qed.

(** X7: a resolution time that the source supplies is kept as it is:
    when the schema-mapped table has a [resolution_time] column,
    [preprocess_data] does not compute one from the dates. *)
Theorem preprocess_data_keeps_supplied_resolution_time (now : Z)
    (parse_datetime : list cell -> cell -> option Z) (p p' : DataProcessor)
    (raw std : DataFrame) :
  raw_data p = Some raw -> standardize_columns raw = Ok std ->
  has_column std (LStr "resolution_time") = true ->
  preprocess_data now parse_datetime p = (true, p') ->
  exists df rt,
    processed_data p' = Some df /\
    getitem std (LStr "resolution_time") = Ok (Series rt) /\
    getitem df (LStr "resolution_time") = Ok (Series rt).
Proof.
  intros Hraw Hstd Hh H.
  destruct (preprocess_data_inv now parse_datetime _ _ H)
    as (raw' & std' & df1 & df2 & df & Hraw' & Hstd' & H1 & H2 & H3 & ->).
  rewrite Hraw in Hraw'; inversion Hraw'; subst raw'.
  rewrite Hstd in Hstd'; inversion Hstd'; subst std'.
  destruct (before_derived_fields now parse_datetime _ _ _ H1 H2)
    as (_ & _ & Hrt & _).
  destruct (calculate_derived_fields_inv _ _ H3)
    as (created & cs & rt & bs & _ & _ & _ & _ & Hrt' & _ & Hsame & _).
  rewrite <- (has_column_congr _ _ _ Hrt) in Hh.
  exists df, rt. split; [reflexivity|].
  split; apply getitem_Series; [|exact Hrt'].
  rewrite <- Hrt. now apply Hsame.
Qed.

Lemma preprocess_data_keeps_supplied_resolution_time_witness :
  exists df,
    processed_data
      (snd (preprocess_data 0 (fun _ _ => None)
         (mkProcessor
            (Some (mkDF 1 [(LStr "created", [Date 0]);
                           (LStr "closed_date", [Date (5 * ns_per_hour)]);
                           (LStr "SLA_Time", [Num 48])]))
            None))) = Some df /\
    getitem df (LStr "resolution_time") = Ok (Series [Num 48]).
Proof.
  edestruct (preprocess_data_keeps_supplied_resolution_time 0 (fun _ _ => None)
               (mkProcessor
                  (Some (mkDF 1 [(LStr "created", [Date 0]);
                                 (LStr "closed_date", [Date (5 * ns_per_hour)]);
                                 (LStr "SLA_Time", [Num 48])]))
                  None))
    as (df & rt & Hp & Hs & Hd);
    [reflexivity | vm_compute; reflexivity | reflexivity
     | vm_compute; reflexivity |].
  vm_compute in Hs; inversion Hs; subst rt.
  exists df. split; [|exact Hd].
  vm_compute in Hp. inversion Hp. vm_compute. reflexivity.
Defined.

(** X8: the period labels follow the creation date, record by record:
    after [preprocess_data] every [created_date] cell is a timestamp or
    missing; [month_year] and [week_year] are the timestamp formatted as
    [%Y-%m] and [%Y-W%U], and both are missing where the date is. *)
Theorem preprocess_data_period_fields (now : Z)
    (parse_datetime : list cell -> cell -> option Z) (p p' : DataProcessor) :
  preprocess_data now parse_datetime p = (true, p') ->
  exists df created months weeks n m,
    processed_data p' = Some df /\
    getitem df (LStr "created_date") = Ok (Series created) /\
    columns_named df (LStr "month_year") = repeat months (S n) /\
    columns_named df (LStr "week_year") = repeat weeks (S m) /\
    length months = length created /\ length weeks = length created /\
    forall k c, nth_error created k = Some c ->
      (c = Null /\ nth_error months k = Some Null /\
       nth_error weeks k = Some Null) \/
      (exists t, c = Date t /\
         nth_error months k = Some (Str (strftime_Y_m t)) /\
         nth_error weeks k = Some (Str (strftime_Y_W_U t))).
Proof.
  intro H.
  destruct (preprocess_data_inv now parse_datetime _ _ H)
    as (raw & std & df1 & df2 & df & Hraw & Hstd & H1 & H2 & H3 & ->).
  destruct (calculate_derived_fields_inv _ _ H3)
    as (created & cs & rt & bs & _ & Hother & Hcr & Hcs & _ & _ & _ & _
        & (n & Hmonth) & _).
  destruct (calculate_derived_fields_week _ _ H3)
    as (created' & cs' & m & Hcr' & Hcs' & Hweek).
  rewrite Hother, Hcr in Hcr' by discriminate.
  inversion Hcr'; subst created'; clear Hcr'.
  rewrite Hcs in Hcs'; inversion Hcs'; subst cs'; clear Hcs'.
  exists df, created, (map (dt_strftime strftime_Y_m) cs),
    (map (dt_strftime strftime_Y_W_U) cs), n, m.
  split; [reflexivity|].
  split; [apply getitem_Series; rewrite Hother by discriminate; exact Hcr|].
  split; [exact Hmonth|]. split; [exact Hweek|].
  pose proof (mapM_length _ _ _ Hcs) as Hlen.
  split; [now rewrite length_map|]. split; [now rewrite length_map|].
  intros k c Hk.
  destruct (Forall2_nth_error _ _ _ _ _ (mapM_Forall2 _ _ _ Hcs) Hk)
    as (d & Hd & Hdc).
  rewrite !nth_error_map, Hd; cbn [option_map].
  destruct c; simpl in Hdc; try discriminate; inversion Hdc; subst d.
  - left. auto.
  - right. exists t. auto.
Qed.

Lemma preprocess_data_period_fields_witness :
  exists df months weeks,
    processed_data
      (snd (preprocess_data 0 (fun _ _ => None)
         (mkProcessor
            (Some (mkDF 2 [(LStr "created",
                            [Date (19737 * ns_per_day); Str "n/a"])]))
            None))) = Some df /\
    getitem df (LStr "month_year") = Ok (Series months) /\
    getitem df (LStr "week_year") = Ok (Series weeks) /\
    months = [Str "2024-01"; Null] /\ weeks = [Str "2024-W02"; Null].
Proof.
  edestruct (preprocess_data_period_fields 0 (fun _ _ => None)
               (mkProcessor
                  (Some (mkDF 2 [(LStr "created",
                                  [Date (19737 * ns_per_day); Str "n/a"])]))
                  None))
    as (df & created & months & weeks & n & m & Hp & Hc & Hm & Hw & _ & _ & _);
    [vm_compute; reflexivity|].
  clear Hm Hw Hc. exists df, [Str "2024-01"; Null], [Str "2024-W02"; Null].
  split; [exact Hp|].
  vm_compute in Hp. inversion Hp; subst df; clear Hp.
  split; [vm_compute; reflexivity|]. split; [vm_compute; reflexivity|].
  split; reflexivity.
Defined.

(** X9: a date field that two columns carry makes normalization fail:
    when the schema-mapped table has two or more columns labelled
    [created_date] (or [resolved_date]), as when a sheet has an alias of
    the field before the field's own column, [preprocess_data] returns
    False and leaves the processor as it was. *)
Theorem preprocess_data_duplicate_date_fails (now : Z)
    (parse_datetime : list cell -> cell -> option Z) (p : DataProcessor)
    (raw std : DataFrame) (col : string) :
  raw_data p = Some raw -> standardize_columns raw = Ok std ->
  In col ["created_date"; "resolved_date"] ->
  2 <= length (columns_named std (LStr col)) ->
  preprocess_data now parse_datetime p = (false, p).
Proof.
  intros Hraw Hstd Hcol Hlen. unfold preprocess_data.
  rewrite Hraw, Hstd; cbn [bind].
  destruct (add_missing_columns_ok now std) as (df1 & -> & _ & _ & Hkeep & _).
  cbn [bind].
  assert (Hlen1 : 2 <= length (columns_named df1 (LStr col))).
  { rewrite Hkeep; [exact Hlen|]. rewrite has_column_named.
    destruct (columns_named std (LStr col)); simpl in *; [lia | reflexivity]. }
  assert (Hfail : exists e, convert_date_columns parse_datetime df1 = Raise e).
  { unfold convert_date_columns. cbn [foldM].
    destruct Hcol as [<- | [<- | []]].
    - rewrite convert_date_column_frame_raises by exact Hlen1.
      cbn [bind]. eauto.
    - destruct (convert_date_column parse_datetime df1 "created_date")
        as [df1'|e] eqn:E; cbn [bind]; [|eauto].
      destruct (convert_date_column_inv parse_datetime _ _ _ E)
        as (_ & Hother & _).
      rewrite convert_date_column_frame_raises; cbn [bind]; [eauto|].
      rewrite Hother by discriminate. exact Hlen1. }
  destruct Hfail as (e & ->). reflexivity.
Qed.

Lemma preprocess_data_duplicate_date_fails_witness :
  let p := mkProcessor
             (Some (mkDF 1 [(LStr "created", [Date 0]);
                            (LStr "created_date", [Date 5])]))
             (Some empty_frame) in
  preprocess_data 0 (fun _ _ => None) p = (false, p).
Proof.
  intro p.
  apply (preprocess_data_duplicate_date_fails 0 (fun _ _ => None) p
           (mkDF 1 [(LStr "created", [Date 0]); (LStr "created_date", [Date 5])])
           (mkDF 1 [(LStr "created_date", [Date 0]);
                    (LStr "created_date", [Date 5])])
           "created_date").
  - reflexivity.
  - vm_compute; reflexivity.
  - simpl; tauto.
  - vm_compute; lia.
Defined.

(* ------------------------------------------------------------------ *)
(** ** When the normalization succeeds *)




Section NormalizationSucceeds.

Variable now : Z.
Variable parse_datetime : list cell -> cell -> option Z.





End NormalizationSucceeds.




(* ================================================================== *)
(** * The summary, continued *)

Lemma series_min_date_spec (cells : list cell) (lo : cell) :
  series_min_date cells = Ok lo ->
  (lo = Null \/ exists a, lo = Date a) /\
  (forall t, In (Date t) cells -> exists a, lo = Date a /\ (a <= t)%Z) /\
  (forall a, lo = Date a -> In (Date a) cells).
Proof.
  unfold series_min_date. intro H. inv_bind H. inversion H; subst lo; clear H.
  apply mapM_Forall2 in E.
  induction E as [|c d cells ds Hcd _ IH]; cbn [fold_right].
  - split; [now left|]. split; [intros t []|discriminate].
  - destruct IH as (Hshape & Hlow & Hin).
    set (acc := fold_right _ Null ds) in *.
    destruct c; simpl in Hcd; try discriminate; inversion Hcd; subst d.
    + split; [exact Hshape|]. split.
      * intros t [E'|Ht]; [discriminate | now apply Hlow].
      * intros a Ha. right. now apply Hin.
    + destruct Hshape as [Hn | (u & Hu)].
      * rewrite Hn in *. split; [right; eauto|]. split.
        -- intros t' [E'|Ht].
           ++ inversion E'; subst. exists t'. split; [reflexivity | lia].
           ++ destruct (Hlow _ Ht) as (a & Ha & _). discriminate.
        -- intros a Ha. inversion Ha; subst. now left.
      * rewrite Hu in *. split; [right; eauto|]. split.
        -- intros t' [E'|Ht].
           ++ inversion E'; subst. eexists. split; [reflexivity | lia].
           ++ destruct (Hlow _ Ht) as (a & Ha & Hle). inversion Ha; subst a.
              eexists. split; [reflexivity | lia].
        -- intros a Ha. inversion Ha; subst a.
           destruct (Z.min_spec t u) as [(_ & ->) | (_ & ->)];
             [now left | right; now apply Hin].
Qed.

Lemma series_max_date_spec (cells : list cell) (hi : cell) :
  series_max_date cells = Ok hi ->
  (hi = Null \/ exists b, hi = Date b) /\
  (forall t, In (Date t) cells -> exists b, hi = Date b /\ (t <= b)%Z) /\
  (forall b, hi = Date b -> In (Date b) cells).
Proof.
  unfold series_max_date. intro H. inv_bind H. inversion H; subst hi; clear H.
  apply mapM_Forall2 in E.
  induction E as [|c d cells ds Hcd _ IH]; cbn [fold_right].
  - split; [now left|]. split; [intros t []|discriminate].
  - destruct IH as (Hshape & Hup & Hin).
    set (acc := fold_right _ Null ds) in *.
    destruct c; simpl in Hcd; try discriminate; inversion Hcd; subst d.
    + split; [exact Hshape|]. split.
      * intros t [E'|Ht]; [discriminate | now apply Hup].
      * intros a Ha. right. now apply Hin.
    + destruct Hshape as [Hn | (u & Hu)].
      * rewrite Hn in *. split; [right; eauto|]. split.
        -- intros t' [E'|Ht].
           ++ inversion E'; subst. exists t'. split; [reflexivity | lia].
           ++ destruct (Hup _ Ht) as (a & Ha & _). discriminate.
        -- intros a Ha. inversion Ha; subst. now left.
      * rewrite Hu in *. split; [right; eauto|]. split.
        -- intros t' [E'|Ht].
           ++ inversion E'; subst. eexists. split; [reflexivity | lia].
           ++ destruct (Hup _ Ht) as (a & Ha & Hle). inversion Ha; subst a.
              eexists. split; [reflexivity | lia].
        -- intros a Ha. inversion Ha; subst a.
           destruct (Z.max_spec t u) as [(_ & ->) | (_ & ->)];
             [right; now apply Hin | now left].
Qed.

(** X11: the date range of [get_data_summary] spans the creation dates:
    [start] is the earliest and [end] the latest timestamp of the
    [created_date] column, each one a date of some record, and both are
    missing when no record has a creation date; [total_incidents] is the
    number of rows. *)
Theorem get_data_summary_date_range (p : DataProcessor) (df : DataFrame)
    (created : list cell) (s : DataSummary) :
  processed_data p = Some df ->
  getitem df (LStr "created_date") = Ok (Series created) ->
  get_data_summary p = Ok (Some s) ->
  total_incidents s = nrows df /\
  exists lo hi,
    date_range_start s = Scalar lo /\ date_range_end s = Scalar hi /\
    (forall t, In (Date t) created ->
       exists a b, lo = Date a /\ hi = Date b /\ (a <= t <= b)%Z) /\
    (forall a, lo = Date a -> In (Date a) created) /\
    (forall b, hi = Date b -> In (Date b) created) /\
    ((forall t, ~ In (Date t) created) -> lo = Null /\ hi = Null).
Proof.
  intros Hp Hc H. unfold get_data_summary in H. rewrite Hp in H.
  do 6 inv_bind H. rewrite Hc in H. cbn [bind reduce] in H.
  inv_bind H. rename x5 into r_lo, E5 into Hrlo.
  inv_bind Hrlo. rename x5 into lo, E5 into Hlo.
  inversion Hrlo; subst r_lo; clear Hrlo.
  cbn [bind reduce] in H.
  inv_bind H. rename x5 into r_hi, E5 into Hrhi.
  inv_bind Hrhi. rename x5 into hi, E5 into Hhi.
  inversion Hrhi; subst r_hi; clear Hrhi.
  inversion H; subst s; clear H. cbn [total_incidents date_range_start
                                       date_range_end].
  split; [reflexivity|]. exists lo, hi.
  destruct (series_min_date_spec _ _ Hlo) as (Hslo & Hlow & Hinlo).
  destruct (series_max_date_spec _ _ Hhi) as (Hshi & Hup & Hinhi).
  split; [reflexivity|]. split; [reflexivity|]. split.
  { intros t Ht. destruct (Hlow t Ht) as (a & Ha & Hle).
    destruct (Hup t Ht) as (b & Hb & Hge). exists a, b. auto. }
  split; [exact Hinlo|]. split; [exact Hinhi|].
  intro Hnone. split.
  - destruct Hslo as [|(a & Ha)]; [assumption|].
    elim (Hnone a). now apply Hinlo.
  - destruct Hshi as [|(b & Hb)]; [assumption|].
    elim (Hnone b). now apply Hinhi.
Qed.

Lemma get_data_summary_date_range_witness :
  exists s,
    get_data_summary
      (mkProcessor None
         (Some (mkDF 3 [(LStr "resolution_time", [Num 1; Num 2; Null]);
                        (LStr "is_overdue",
                         [Bool false; Bool false; Bool false]);
                        (LStr "assigned_team", [Str "a"; Str "b"; Str "a"]);
                        (LStr "created_date", [Date 7; Null; Date 3])])))
      = Ok (Some s) /\
    total_incidents s = 3 /\
    date_range_start s = Scalar (Date 3) /\
    date_range_end s = Scalar (Date 7).
Proof.
  eexists. split; [vm_compute; reflexivity|].
  edestruct (get_data_summary_date_range
               (mkProcessor None
                  (Some (mkDF 3 [(LStr "resolution_time",
                                  [Num 1; Num 2; Null]);
                                 (LStr "is_overdue",
                                  [Bool false; Bool false; Bool false]);
                                 (LStr "assigned_team",
                                  [Str "a"; Str "b"; Str "a"]);
                                 (LStr "created_date",
                                  [Date 7; Null; Date 3])]))))
    as (Hn & lo & hi & Hlo & Hhi & _);
    [reflexivity | vm_compute; reflexivity | vm_compute; reflexivity |].
  split; [exact Hn|]. split; reflexivity.
Defined.

(* ================================================================== *)
(** * SLA analysis, continued *)

Lemma count_true_le_length (mask : list bool) : count_true mask <= length mask.
Proof. unfold count_true. apply filter_length_le. Qed.

Lemma percentage_bounds (m t : nat) :
  m <= t -> 0 < t ->
  (0 <= Qred (inject_Z (Z.of_nat m) / inject_Z (Z.of_nat t) * 100))%Q /\
  (Qred (inject_Z (Z.of_nat m) / inject_Z (Z.of_nat t) * 100) <= 100)%Q.
Proof.
  intros Hle Hpos. rewrite Qred_correct.
  assert (Hm : (Z.of_nat m <= Z.of_nat t)%Z) by lia.
  destruct (Z.of_nat t) as [|q|q] eqn:Et; try lia.
  unfold Qle, Qdiv, Qmult, Qinv, inject_Z. cbn [Qnum Qden].
  split; lia.
Qed.

(** The incidents within the threshold are among those of the priority. *)
Lemma met_count_le (df : DataFrame) (m : list bool) (threshold : Z)
    (met : nat) :
  SLAAnalyzer.met_count (boolean_index df m) threshold = Ok met ->
  met <= len (boolean_index df m).
Proof.
  unfold SLAAnalyzer.met_count. intro H. inv_bind H.
  destruct x as [cells | cols].
  - inv_bind H. inversion H; subst met; clear H.
    apply getitem_Series in E. rewrite named_boolean_index in E.
    unfold len, boolean_index; cbn [nrows].
    pose proof (mapM_length _ _ _ E0) as Hl.
    pose proof (count_true_le_length x) as Hc.
    assert (Hcells : length cells <= count_true m).
    { destruct (columns_named df (LStr "resolution_time")) as [|c cs];
        [discriminate|].
      inversion E; subst. apply length_select. }
    lia.
  - inv_bind H. inversion H; subst met. apply Nat.le_refl.
Qed.

Lemma analyze_priority_row (df : DataFrame) (acc acc' : list SLAAnalyzer.row)
    (priority : string) (threshold : Z) :
  SLAAnalyzer.analyze_priority df acc (priority, threshold) = Ok acc' ->
  acc' = acc \/
  exists r,
    acc' = acc ++ [r] /\
    SLAAnalyzer.Priority r = priority /\
    SLAAnalyzer.SLA_Threshold r = threshold /\
    0 < SLAAnalyzer.Total_Incidents r /\
    SLAAnalyzer.SLA_Met r <= SLAAnalyzer.Total_Incidents r /\
    (0 <= SLAAnalyzer.SLA_Percentage r)%Q /\
    (SLAAnalyzer.SLA_Percentage r <= 100)%Q.
Proof.
  unfold SLAAnalyzer.analyze_priority. intro H.
  inv_bind H. rename x into col. inv_bind H. rename x into cells.
  set (m := map (str_contains priority) cells) in *.
  destruct (0 <? len (boolean_index df m)) eqn:Epos.
  - apply Nat.ltb_lt in Epos. inv_bind H. rename x into met, E1 into Hmet.
    inv_bind H. inv_bind H. inversion H; subst acc'; clear H.
    pose proof (met_count_le _ _ _ _ Hmet) as Hle.
    destruct (percentage_bounds _ _ Hle Epos) as (Hlo & Hhi).
    right. eexists. split; [reflexivity|]. cbn.
    repeat split; auto.
  - left. now inversion H.
Qed.

Lemma foldM_analyze_priority (df : DataFrame) (entries : list (string * Z))
    (acc acc' : list SLAAnalyzer.row) :
  foldM (SLAAnalyzer.analyze_priority df) entries acc = Ok acc' ->
  exists rows keep,
    acc' = acc ++ rows /\
    map (fun r => (SLAAnalyzer.Priority r, SLAAnalyzer.SLA_Threshold r)) rows
      = select keep entries /\
    Forall (fun r =>
              0 < SLAAnalyzer.Total_Incidents r /\
              SLAAnalyzer.SLA_Met r <= SLAAnalyzer.Total_Incidents r /\
              (0 <= SLAAnalyzer.SLA_Percentage r)%Q /\
              (SLAAnalyzer.SLA_Percentage r <= 100)%Q) rows.
Proof.
  revert acc. induction entries as [|[p th] entries IH]; intros acc H;
    cbn [foldM] in H.
  - inversion H; subst. exists [], []. rewrite app_nil_r. repeat split.
    constructor.
  - inv_bind H. rename x into acc1.
    destruct (IH _ H) as (rows & keep & -> & Hkeys & Hrows).
    destruct (analyze_priority_row _ _ _ _ _ E)
      as [-> | (r & -> & Hp & Ht & Hr)].
    + exists rows, (false :: keep). repeat split; auto.
    + exists (r :: rows), (true :: keep). rewrite <- app_assoc.
      split; [reflexivity|]. split.
      * cbn [map select]. now rewrite Hp, Ht, Hkeys.
      * constructor; assumption.
Qed.

(** X12: every row of the SLA table is consistent: whenever
    [analyze_sla_performance] returns a table, its rows are priorities of
    the threshold table with their thresholds, in the table's order
    (Critical, High, Medium, Low) and each at most once; each row has at
    least one incident, no more incidents within the threshold than
    incidents, and a percentage between 0 and 100. *)
Theorem analyze_sla_performance_rows (data : option DataFrame)
    (table : list SLAAnalyzer.row) :
  SLAAnalyzer.analyze_sla_performance data = Ok (Some table) ->
  (exists keep,
     map (fun r => (SLAAnalyzer.Priority r, SLAAnalyzer.SLA_Threshold r))
         table = select keep SLAAnalyzer.sla_thresholds) /\
  Forall (fun r =>
            0 < SLAAnalyzer.Total_Incidents r /\
            SLAAnalyzer.SLA_Met r <= SLAAnalyzer.Total_Incidents r /\
            (0 <= SLAAnalyzer.SLA_Percentage r)%Q /\
            (SLAAnalyzer.SLA_Percentage r <= 100)%Q) table.
Proof.
  unfold SLAAnalyzer.analyze_sla_performance.
  destruct data as [df|]; [|discriminate].
  destruct (empty df); [discriminate|]. intro H. inv_bind H.
  inversion H; subst x; clear H.
  destruct (foldM_analyze_priority _ _ _ _ E) as (rows & keep & -> & Hk & Hr).
  cbn [app]. split; [now exists keep | exact Hr].
Qed.

Lemma analyze_sla_performance_rows_witness :
  exists table,
    SLAAnalyzer.analyze_sla_performance
      (Some (mkDF 3 [(LStr "priority",
                      [Str "High"; Str "low"; Str "P2 - high"]);
                     (LStr "resolution_time", [Num 5; Num 100; Null])]))
      = Ok (Some table) /\
    map (fun r => (SLAAnalyzer.Priority r, SLAAnalyzer.SLA_Threshold r)) table
      = [("High", 8%Z); ("Low", 72%Z)] /\
    Forall (fun r => SLAAnalyzer.SLA_Met r <= SLAAnalyzer.Total_Incidents r)
           table.
Proof.
  eexists. split; [vm_compute; reflexivity|].
  edestruct (analyze_sla_performance_rows
               (Some (mkDF 3 [(LStr "priority",
                               [Str "High"; Str "low"; Str "P2 - high"]);
                              (LStr "resolution_time",
                               [Num 5; Num 100; Null])])))
    as (_ & Hrows); [vm_compute; reflexivity|].
  split; [reflexivity|].
  eapply Forall_impl; [|exact Hrows]. intros r (_ & Hle & _). exact Hle.
Defined.

(* ================================================================== *)
(** * Groups of one key column *)

Lemma cell_eqb_leb (a b : cell) : cell_eqb a b = true -> cell_leb a b = true.
Proof.
  intro H. destruct (cell_leb_total a b) as [Hab | Hba]; [exact Hab|].
  destruct a, b; simpl in *; try discriminate; auto.
  - apply String.eqb_eq in H. now subst.
  - apply Qeq_bool_iff in H. apply Qle_bool_iff. rewrite H. apply Qle_refl.
  - apply Qeq_bool_iff in H. apply Qle_bool_iff. rewrite H. apply Qle_refl.
  - apply Z.eqb_eq in H. subst. apply Z.leb_refl.
  - apply Qeq_bool_iff in H. apply Qle_bool_iff. rewrite H. apply Qle_refl.
  - apply Qeq_bool_iff in H. apply Qle_bool_iff. rewrite H. apply Qle_refl.
Qed.

Lemma key_leb_single (x y : cell) : key_leb [x] [y] = cell_leb x y.
Proof.
  simpl. destruct (cell_eqb x y) eqn:E; [|reflexivity].
  symmetry. now apply cell_eqb_leb.
Qed.

Lemma insert_by_single (x : cell) (l : list cell) :
  insert_by key_leb [x] (map (fun v => [v]) l) =
  map (fun v => [v]) (insert_by cell_leb x l).
Proof.
  induction l as [|y l IH]; [reflexivity|].
  cbn [map insert_by]. rewrite key_leb_single.
  destruct (cell_leb x y); cbn [map]; [reflexivity | now rewrite IH].
Qed.

Lemma sort_by_single (l : list cell) :
  sort_by key_leb (map (fun v => [v]) l) =
  map (fun v => [v]) (sort_by cell_leb l).
Proof.
  induction l as [|x l IH]; [reflexivity|].
  cbn [map sort_by]. now rewrite IH, insert_by_single.
Qed.

Lemma unique_keys_single (l : list cell) :
  unique_keys (map (fun v => [v]) l) = map (fun v => [v]) (unique l).
Proof.
  induction l as [|x l IH]; [reflexivity|].
  cbn [map unique_keys unique]. rewrite IH, filter_map_swap. do 2 f_equal.
  apply filter_ext. intro v. simpl. now rewrite andb_true_r.
Qed.

Lemma group_keys_single (cells : list cell) :
  group_keys (map (fun v => [v]) cells) =
  map (fun v => [v]) (sort_by cell_leb (unique (filter notnull cells))).
Proof.
  unfold group_keys. rewrite filter_map_swap.
  rewrite (filter_ext (fun a => forallb notnull [a]) notnull)
    by (intro a; simpl; now rewrite andb_true_r).
  now rewrite unique_keys_single, sort_by_single.
Qed.

Lemma mask_occurrences (v : cell) (cells : list cell) :
  count_true (map (fun rk => key_eqb rk [v]) (map (fun x => [x]) cells)) =
  occurrences v cells.
Proof.
  rewrite map_map, count_true_map. unfold occurrences. f_equal.
  apply filter_ext. intro x. simpl. now rewrite andb_true_r, cell_eqb_sym.
Qed.

(** [groupby(l).size()] in closed form: the distinct values that are not
    missing, in sorted order, each with the number of its rows. *)
Lemma group_sizes_eq (df : DataFrame) (l : string) (cells : list cell) :
  getitem df (LStr l) = Ok (Series cells) -> length cells = nrows df ->
  group_sizes df l =
    Ok (map (fun v => (v, occurrences v cells))
            (sort_by cell_leb (unique (filter notnull cells)))).
Proof.
  intros H Hlen. unfold group_sizes.
  rewrite (groupby_spec df [l] [cells])
    by (cbn [mapM]; now rewrite (series_Series _ _ _ H)).
  cbn [bind]. rewrite (zip_rows_1 _ _ Hlen), group_keys_single, !map_map.
  f_equal. apply map_ext. intro v. cbn [fst snd nth].
  now rewrite mask_occurrences.
Qed.

Lemma unique_NoDup (l : list cell) : NoDup (unique l).
Proof.
  induction l as [|c l IH]; cbn [unique]; constructor.
  - intro Hin. apply filter_In in Hin. destruct Hin as (_ & Hc).
    now rewrite cell_eqb_refl in Hc.
  - now apply NoDup_filter.
Qed.

Lemma list_sum_perm (l l' : list nat) :
  Permutation l l' -> list_sum l = list_sum l'.
Proof. induction 1; simpl; lia. Qed.

Lemma StronglySorted_map {A B : Type} (g : A -> B) (S : A -> A -> Prop)
    (R : B -> B -> Prop) (l : list A) :
  (forall a b, S a b -> R (g a) (g b)) ->
  StronglySorted S l -> StronglySorted R (map g l).
Proof.
  intros HSR H. induction H as [|a l Hl IH Ha]; cbn [map]; constructor; auto.
  rewrite Forall_map. eapply Forall_impl; [|exact Ha]. intros b. apply HSR.
Qed.

Lemma occurrences_pos (v : cell) (cells : list cell) :
  In v cells -> 0 < occurrences v cells.
Proof.
  intro H. unfold occurrences.
  assert (Hin : In v (filter (cell_eqb v) cells))
    by (apply filter_In; split; [exact H | apply cell_eqb_refl]).
  destruct (filter (cell_eqb v) cells); [contradiction | simpl; lia].
Qed.

Lemma occurrences_notnull (v : cell) (cells : list cell) :
  notnull v = true ->
  occurrences v (filter notnull cells) = occurrences v cells.
Proof.
  intro Hv. unfold occurrences. rewrite filter_filter. f_equal.
  apply filter_ext. intro x. destruct (cell_eqb v x) eqn:E.
  - rewrite <- (cell_eqb_notnull _ _ E), Hv. reflexivity.
  - apply andb_false_r.
Qed.

(** The numbers of occurrences of the distinct values add up to the number
    of values. *)
Lemma occurrences_unique_sum (cells : list cell) :
  list_sum (map (fun v => occurrences v cells)
                (unique (filter notnull cells))) = series_count cells.
Proof.
  rewrite <- count_true_keys_1.
  rewrite <- (group_masks_sum (group_keys (map (fun x => [x]) cells)))
    by (intros; now apply group_keys_representatives).
  rewrite group_keys_single, map_map. symmetry.
  transitivity
    (list_sum (map (fun v => occurrences v cells)
                   (sort_by cell_leb (unique (filter notnull cells))))).
  - f_equal. apply map_ext. intro v. apply mask_occurrences.
  - apply list_sum_perm, Permutation_map, sort_by_perm.
Qed.

Lemma group_sizes_full (df : DataFrame) (l : string) (cells : list cell) :
  getitem df (LStr l) = Ok (Series cells) -> length cells = nrows df ->
  exists t,
    group_sizes df l = Ok t /\
    StronglySorted (fun a b => cell_leb (fst a) (fst b) = true) t /\
    NoDup (map fst t) /\
    (forall v n, In (v, n) t ->
       v <> Null /\ In v cells /\ 0 < n /\ n = occurrences v cells) /\
    (forall v, In v cells -> v <> Null ->
       exists v', In (v', occurrences v' cells) t /\ cell_eqb v v' = true) /\
    list_sum (map snd t) = series_count cells.
Proof.
  intros H Hlen. rewrite (group_sizes_eq _ _ _ H Hlen).
  set (keys := sort_by cell_leb (unique (filter notnull cells))).
  assert (Hkeys : forall v, In v keys <-> In v (unique (filter notnull cells))).
  { intro v. split; apply Permutation_in;
      [|apply Permutation_sym]; apply sort_by_perm. }
  eexists. split; [reflexivity|]. split.
  { apply (StronglySorted_map _ (fun a b => cell_leb a b = true));
      [auto|].
    apply sort_by_sorted; [apply cell_leb_total | apply cell_leb_trans]. }
  split.
  { rewrite map_map. cbn [fst]. rewrite map_id.
    apply (Permutation_NoDup (Permutation_sym (sort_by_perm _ _))).
    apply unique_NoDup. }
  split.
  { intros v n Hin. apply in_map_iff in Hin.
    destruct Hin as (v0 & E & Hv0). inversion E; subst v0 n; clear E.
    apply Hkeys, unique_incl, filter_In in Hv0. destruct Hv0 as (Hv & Hnn).
    split; [intros ->; discriminate|]. split; [exact Hv|].
    split; [now apply occurrences_pos | reflexivity]. }
  split.
  { intros v Hv Hnn.
    assert (Hin : In v (filter notnull cells)).
    { apply filter_In. split; [exact Hv|]. now destruct v. }
    destruct (unique_representative _ _ Hin) as (v' & Hv' & E).
    exists v'. split; [|exact E].
    apply in_map_iff. exists v'. split; [reflexivity | now apply Hkeys]. }
  rewrite map_map. cbn [snd].
  rewrite <- occurrences_unique_sum.
  apply list_sum_perm, Permutation_map, sort_by_perm.
Qed.

(** X13: the monthly trend lists each month once, in ascending order, with
    the number of its incidents: for a dataset with one [month_year]
    column, [get_monthly_trends] returns the months that occur, sorted and
    without repetition, none of them missing; each count is the (positive)
    number of records of that month, and the counts add up to the number
    of records that have a month. *)
Theorem get_monthly_trends_spec (df : DataFrame) (months : list cell) :
  wf df -> empty df = false ->
  getitem df (LStr "month_year") = Ok (Series months) ->
  exists t,
    TrendAnalyzer.get_monthly_trends (Some df) = Ok (Some t) /\
    StronglySorted (fun a b => cell_leb (fst a) (fst b) = true) t /\
    NoDup (map fst t) /\
    (forall v n, In (v, n) t ->
       v <> Null /\ In v months /\ 0 < n /\ n = occurrences v months) /\
    (forall v, In v months -> v <> Null ->
       exists v', In (v', occurrences v' months) t /\ cell_eqb v v' = true) /\
    list_sum (map snd t) = series_count months.
Proof.
  intros Hwf He Hm. unfold TrendAnalyzer.get_monthly_trends. rewrite He.
  destruct (group_sizes_full _ _ _ Hm (wf_length _ _ _ Hwf Hm))
    as (t & -> & Ht).
  cbn [bind]. exists t. split; [reflexivity | exact Ht].
Qed.

Lemma get_monthly_trends_spec_witness :
  TrendAnalyzer.get_monthly_trends
    (Some (mkDF 4 [(LStr "month_year",
                    [Str "2024-02"; Str "2024-01"; Null; Str "2024-02"])]))
  = Ok (Some [(Str "2024-01", 1); (Str "2024-02", 2)]).
Proof.
  edestruct (get_monthly_trends_spec
               (mkDF 4 [(LStr "month_year",
                         [Str "2024-02"; Str "2024-01"; Null;
                          Str "2024-02"])]))
    as (t & Ht & _);
    [repeat constructor | reflexivity | reflexivity |].
  rewrite Ht. vm_compute in Ht. inversion Ht. reflexivity.
Defined.

(** X14: the category distribution lists each category once with the
    number of its incidents, the most frequent first: for a dataset with
    one [category] column, [get_category_distribution] returns the
    categories that occur, none of them missing, in non-increasing order
    of count; each count is the (positive) number of records of that
    category, and the counts add up to the number of records that have
    one. *)
Theorem get_category_distribution_spec (df : DataFrame) (cats : list cell) :
  empty df = false ->
  getitem df (LStr "category") = Ok (Series cats) ->
  exists t,
    TrendAnalyzer.get_category_distribution (Some df) = Ok (Some t) /\
    StronglySorted (fun a b => snd b <= snd a) t /\
    NoDup (map fst t) /\
    (forall v n, In (v, n) t ->
       v <> Null /\ In v cats /\ 0 < n /\ n = occurrences v cats) /\
    (forall v, In v cats -> v <> Null ->
       exists v', In (v', occurrences v' cats) t /\ cell_eqb v v' = true) /\
    list_sum (map snd t) = series_count cats.
Proof.
  intros He Hc. unfold TrendAnalyzer.get_category_distribution.
  rewrite He, Hc. cbn [bind]. eexists. split; [reflexivity|].
  unfold TrendAnalyzer.value_counts.
  set (vals := filter notnull cats).
  set (base := map (fun v => (v, occurrences v vals)) (unique vals)).
  set (desc := fun a b : cell * nat => snd b <=? snd a).
  pose proof (sort_by_perm desc base) as Hperm.
  assert (Hbase : forall v n, In (v, n) base <->
            In v (unique vals) /\ n = occurrences v cats).
  { intros v n. unfold base. rewrite in_map_iff. split.
    - intros (v0 & E & Hv0). inversion E; subst v0 n; clear E.
      split; [exact Hv0|]. apply occurrences_notnull.
      apply unique_incl, filter_In in Hv0. tauto.
    - intros (Hv & ->). exists v. split; [|exact Hv]. f_equal.
      apply occurrences_notnull. apply unique_incl, filter_In in Hv. tauto. }
  split.
  { apply (StronglySorted_weaken (fun a b => desc a b = true)).
    - intros a b H. now apply Nat.leb_le.
    - apply sort_by_sorted; unfold desc.
      + intros a b. destruct (Nat.le_ge_cases (snd a) (snd b));
          [right | left]; now apply Nat.leb_le.
      + intros a b c H1 H2. apply Nat.leb_le in H1, H2. apply Nat.leb_le.
        lia. }
  split.
  { apply (Permutation_NoDup (Permutation_sym (Permutation_map fst Hperm))).
    unfold base. rewrite map_map. cbn [fst]. rewrite map_id.
    apply unique_NoDup. }
  split.
  { intros v n Hin. apply (Permutation_in _ Hperm), Hbase in Hin.
    destruct Hin as (Hv & ->). apply unique_incl, filter_In in Hv.
    destruct Hv as (Hv & Hnn).
    split; [intros ->; discriminate|]. split; [exact Hv|].
    split; [now apply occurrences_pos | reflexivity]. }
  split.
  { intros v Hv Hnn.
    assert (Hin : In v vals).
    { apply filter_In. split; [exact Hv|]. now destruct v. }
    destruct (unique_representative _ _ Hin) as (v' & Hv' & E).
    exists v'. split; [|exact E].
    apply (Permutation_in _ (Permutation_sym Hperm)), Hbase. now split. }
  rewrite (list_sum_perm _ _ (Permutation_map snd Hperm)).
  unfold base. rewrite map_map. cbn [snd].
  rewrite <- occurrences_unique_sum. fold vals. f_equal.
  apply map_ext_in. intros v Hv. apply occurrences_notnull.
  apply unique_incl, filter_In in Hv. tauto.
Qed.

Lemma get_category_distribution_spec_witness :
  TrendAnalyzer.get_category_distribution
    (Some (mkDF 4 [(LStr "category",
                    [Str "Access"; Str "Database"; Null; Str "Database"])]))
  = Ok (Some [(Str "Database", 2); (Str "Access", 1)]).
Proof.
  edestruct (get_category_distribution_spec
               (mkDF 4 [(LStr "category",
                         [Str "Access"; Str "Database"; Null;
                          Str "Database"])]))
    as (t & Ht & _); [reflexivity | reflexivity |].
  rewrite Ht. vm_compute in Ht. inversion Ht. reflexivity.
Defined.

(* ================================================================== *)
(** * Technical debt *)

Lemma boolean_index_wf (df : DataFrame) (mask : list bool) :
  wf df -> length mask = nrows df -> wf (boolean_index df mask).
Proof.
  unfold wf, boolean_index; cbn [nrows data]. intros Hwf Hl.
  rewrite Forall_map. eapply Forall_impl; [|exact Hwf].
  intros [c cells] Hc; cbn [fst snd] in *. apply length_select_eq. congruence.
Qed.

Lemma boolean_index_Series (df : DataFrame) (mask : list bool) (l : label)
    (cells : list cell) :
  getitem df l = Ok (Series cells) ->
  getitem (boolean_index df mask) l = Ok (Series (select mask cells)).
Proof.
  intro H. apply getitem_Series. rewrite named_boolean_index.
  apply getitem_Series in H. now rewrite H.
Qed.

Lemma empty_false (df : DataFrame) : empty df = false -> 0 < nrows df.
Proof.
  unfold empty, len. intro H. apply orb_false_iff in H.
  destruct H as (H & _). apply Nat.eqb_neq in H. lia.
Qed.

(** X15: the incidents that [identify_tech_debt_incidents] returns are the
    records whose title contains one of the ten keywords, case ignored:
    for a dataset with one [title] column that holds text, the result has
    the same columns, one row for each such record and no other, in the
    order of the dataset, each column keeping the cells of those rows. *)
Theorem identify_tech_debt_incidents_spec (df : DataFrame)
    (titles : list cell) :
  wf df -> empty df = false ->
  getitem df (LStr "title") = Ok (Series titles) ->
  existsb is_text titles = true ->
  exists debt,
    TechDebtAnalyzer.identify_tech_debt_incidents (Some df) = Ok debt /\
    columns debt = columns df /\
    nrows debt =
      length (filter (str_contains_any TechDebtAnalyzer.tech_debt_keywords)
                     titles) /\
    nrows debt <= nrows df /\
    wf debt /\
    forall l cells, getitem df l = Ok (Series cells) ->
      getitem debt l =
        Ok (Series
              (map snd
                 (filter (fun r => str_contains_any
                                     TechDebtAnalyzer.tech_debt_keywords
                                     (fst r))
                         (combine titles cells)))).
Proof.
  intros Hwf He Ht Htext.
  unfold TechDebtAnalyzer.identify_tech_debt_incidents.
  rewrite He, Ht. cbn [bind str_accessor]. rewrite Htext. cbn [bind].
  pose proof (wf_length _ _ _ Hwf Ht) as Lt.
  eexists. split; [reflexivity|]. split.
  { unfold columns, boolean_index; cbn [data]. rewrite map_map.
    reflexivity. }
  split; [unfold boolean_index; cbn [nrows]; apply count_true_map|].
  split.
  { unfold boolean_index; cbn [nrows]. rewrite <- Lt.
    rewrite <- (length_map (str_contains_any
                              TechDebtAnalyzer.tech_debt_keywords) titles).
    apply count_true_le_length. }
  split; [apply boolean_index_wf; [exact Hwf | now rewrite length_map]|].
  intros l cells Hl. rewrite (boolean_index_Series _ _ _ _ Hl).
  rewrite select_map_combine; [reflexivity|].
  rewrite Lt. symmetry. exact (wf_length _ _ _ Hwf Hl).
Qed.

Lemma identify_tech_debt_incidents_spec_witness :
  TechDebtAnalyzer.identify_tech_debt_incidents
    (Some (mkDF 3 [(LStr "title",
                    [Str "Apply HOTFIX to billing"; Str "Login failure";
                     Str "Refactor legacy module"]);
                   (LStr "incident_id", [Num 1; Num 2; Num 3])]))
  = Ok (mkDF 2 [(LStr "title",
                 [Str "Apply HOTFIX to billing";
                  Str "Refactor legacy module"]);
                (LStr "incident_id", [Num 1; Num 3])]).
Proof.
  edestruct (identify_tech_debt_incidents_spec
               (mkDF 3 [(LStr "title",
                         [Str "Apply HOTFIX to billing"; Str "Login failure";
                          Str "Refactor legacy module"]);
                        (LStr "incident_id", [Num 1; Num 2; Num 3])]))
    as (debt & Hd & _);
    [repeat constructor | reflexivity | reflexivity | reflexivity |].
  rewrite Hd. vm_compute in Hd. inversion Hd. reflexivity.
Defined.

(** X16: the technical-debt indicators are consistent with the dataset:
    for a non-empty dataset with one [title] column that holds text and
    one [assigned_team] and one [month_year] column,
    [calculate_tech_debt_indicators] returns the records whose title has
    a keyword, their share of all records as a percentage between 0 and
    100, and per-team and per-month counts of those records, each count
    positive and the number of the debt records of that team or month;
    the team counts add up to the debt records that have a team, the
    month counts to those that have a month, never more than the debt
    records. *)
Theorem calculate_tech_debt_indicators_spec (df : DataFrame)
    (titles teams months : list cell) :
  wf df -> empty df = false ->
  getitem df (LStr "title") = Ok (Series titles) ->
  existsb is_text titles = true ->
  getitem df (LStr "assigned_team") = Ok (Series teams) ->
  getitem df (LStr "month_year") = Ok (Series months) ->
  let mask :=
    map (str_contains_any TechDebtAnalyzer.tech_debt_keywords) titles in
  exists ind,
    TechDebtAnalyzer.calculate_tech_debt_indicators (Some df) = Ok ind /\
    TechDebtAnalyzer.debt_incidents ind = boolean_index df mask /\
    count_true mask <= nrows df /\
    (TechDebtAnalyzer.total_debt_percentage ind ==
       inject_Z (Z.of_nat (count_true mask)) / inject_Z (Z.of_nat (nrows df))
       * 100)%Q /\
    (0 <= TechDebtAnalyzer.total_debt_percentage ind)%Q /\
    (TechDebtAnalyzer.total_debt_percentage ind <= 100)%Q /\
    (forall v n, In (v, n) (TechDebtAnalyzer.debt_by_team ind) ->
       0 < n /\ n = occurrences v (select mask teams)) /\
    (forall v n, In (v, n) (TechDebtAnalyzer.debt_trend ind) ->
       0 < n /\ n = occurrences v (select mask months)) /\
    list_sum (map snd (TechDebtAnalyzer.debt_by_team ind)) =
      series_count (select mask teams) /\
    list_sum (map snd (TechDebtAnalyzer.debt_trend ind)) =
      series_count (select mask months) /\
    series_count (select mask teams) <= count_true mask /\
    series_count (select mask months) <= count_true mask.
Proof.
  intros Hwf He Ht Htext Hteams Hms mask.
  pose proof (empty_false _ He) as Hpos.
  pose proof (wf_length _ _ _ Hwf Ht) as Lt.
  pose proof (wf_length _ _ _ Hwf Hteams) as Lteams.
  pose proof (wf_length _ _ _ Hwf Hms) as Lms.
  assert (Lmask : length mask = nrows df)
    by (unfold mask; now rewrite length_map).
  assert (Hle : count_true mask <= nrows df)
    by (rewrite <- Lmask; apply count_true_le_length).
  unfold TechDebtAnalyzer.calculate_tech_debt_indicators,
    TechDebtAnalyzer.identify_tech_debt_incidents.
  rewrite He, Ht. cbn [bind str_accessor]. rewrite Htext.
  cbn [bind TechDebtAnalyzer.len_data]. fold mask.
  set (tech := boolean_index df mask).
  assert (Hn : len tech = count_true mask) by reflexivity.
  assert (Hltb : (0 <? len df) = true) by (now apply Nat.ltb_lt).
  rewrite Hltb, Hn.
  destruct (percentage_bounds _ _ Hle Hpos) as (Hlo & Hhi).
  assert (Hgroups : exists by_team trend,
    (if negb (empty tech) then group_sizes tech "assigned_team" else Ok [])
      = Ok by_team /\
    (if negb (empty tech) then group_sizes tech "month_year" else Ok [])
      = Ok trend /\
    (forall v n, In (v, n) by_team ->
       0 < n /\ n = occurrences v (select mask teams)) /\
    (forall v n, In (v, n) trend ->
       0 < n /\ n = occurrences v (select mask months)) /\
    list_sum (map snd by_team) = series_count (select mask teams) /\
    list_sum (map snd trend) = series_count (select mask months)).
  { destruct (empty tech) eqn:Etech; cbn [negb].
    - exists [], []. split; [reflexivity|]. split; [reflexivity|].
      split; [intros v n []|]. split; [intros v n []|].
      assert (Hz : count_true mask = 0).
      { unfold empty, len in Etech. apply orb_true_iff in Etech.
        destruct Etech as [E|E]; apply Nat.eqb_eq in E; [exact E|].
        unfold tech, columns, boolean_index in E; cbn [data] in E.
        rewrite !length_map in E. apply getitem_Series in Ht.
        unfold columns_named in Ht. destruct (data df); [discriminate|].
        discriminate. }
      pose proof (series_count_select mask teams).
      pose proof (series_count_select mask months).
      simpl. lia.
    - assert (Hlen : forall cells : list cell, length cells = nrows df ->
                length (select mask cells) = nrows tech).
      { intros cells H. unfold tech, boolean_index; cbn [nrows].
        apply length_select_eq. congruence. }
      destruct (group_sizes_full tech "assigned_team" _
                  (boolean_index_Series _ mask _ _ Hteams) (Hlen _ Lteams))
        as (by_team & -> & _ & _ & Hbt & _ & Hsum1).
      destruct (group_sizes_full tech "month_year" _
                  (boolean_index_Series _ mask _ _ Hms) (Hlen _ Lms))
        as (trend & -> & _ & _ & Htr & _ & Hsum2).
      exists by_team, trend. split; [reflexivity|]. split; [reflexivity|].
      split; [intros v n Hin; destruct (Hbt v n Hin); tauto|].
      split; [intros v n Hin; destruct (Htr v n Hin); tauto|].
      split; assumption. }
  destruct Hgroups as (by_team & trend & -> & -> & Hbt & Htr & Hs1 & Hs2).
  cbn [bind]. eexists. split; [reflexivity|].
  cbn [TechDebtAnalyzer.debt_incidents TechDebtAnalyzer.total_debt_percentage
       TechDebtAnalyzer.debt_by_team TechDebtAnalyzer.debt_trend].
  split; [reflexivity|]. split; [exact Hle|].
  split; [apply Qred_correct|]. split; [exact Hlo|]. split; [exact Hhi|].
  split; [exact Hbt|]. split; [exact Htr|]. split; [exact Hs1|].
  split; [exact Hs2|]. split; apply series_count_select.
Qed.

Lemma calculate_tech_debt_indicators_spec_witness :
  exists ind,
    TechDebtAnalyzer.calculate_tech_debt_indicators
      (Some (mkDF 4 [(LStr "title",
                      [Str "Apply hotfix"; Str "Login failure";
                       Str "Legacy API timeout"; Str "Patch the gateway"]);
                     (LStr "assigned_team",
                      [Str "Core"; Str "Web"; Str "Core"; Null]);
                     (LStr "month_year",
                      [Str "2024-01"; Str "2024-01"; Str "2024-02";
                       Str "2024-02"])])) = Ok ind /\
    (TechDebtAnalyzer.total_debt_percentage ind == 75)%Q /\
    TechDebtAnalyzer.debt_by_team ind = [(Str "Core", 2)] /\
    TechDebtAnalyzer.debt_trend ind = [(Str "2024-01", 1); (Str "2024-02", 2)].
Proof.
  edestruct (calculate_tech_debt_indicators_spec
               (mkDF 4 [(LStr "title",
                         [Str "Apply hotfix"; Str "Login failure";
                          Str "Legacy API timeout"; Str "Patch the gateway"]);
                        (LStr "assigned_team",
                         [Str "Core"; Str "Web"; Str "Core"; Null]);
                        (LStr "month_year",
                         [Str "2024-01"; Str "2024-01"; Str "2024-02";
                          Str "2024-02"])]))
    as (ind & Hind & _ & _ & Hpct & _);
    [repeat constructor | reflexivity | reflexivity | reflexivity
     | reflexivity | reflexivity |].
  exists ind. split; [exact Hind|].
  split; [rewrite Hpct; vm_compute; reflexivity|].
  vm_compute in Hind. inversion Hind. split; reflexivity.
Defined.

(* ================================================================== *)
(** * Team aggregates *)

Lemma select_map {A B : Type} (f : A -> B) (mask : list bool) (l : list A) :
  select mask (map f l) = map f (select mask l).
Proof.
  revert l. induction mask as [|b mask IH]; intros [|a l]; simpl; auto.
  destruct b; simpl; now rewrite IH.
Qed.

Lemma series_count_full (cells : list cell) :
  Forall (fun c => c <> Null) cells -> series_count cells = length cells.
Proof.
  unfold series_count. induction 1 as [|c cells Hc _ IH]; simpl; auto.
  destruct c; simpl; try congruence.
Qed.

Lemma zip_rows_length (n : nat) (cols : list (list cell)) :
  Forall (fun c => length c = n) cols -> length (zip_rows n cols) = n.
Proof.
  induction 1 as [|c cols Hc _ IH]; cbn [zip_rows].
  - apply repeat_length.
  - rewrite length_map2; congruence.
Qed.

Lemma series_inv (df : DataFrame) (l : string) (cells : list cell) :
  series df l = Ok cells -> getitem df (LStr l) = Ok (Series cells).
Proof.
  unfold series. intro H. inv_bind H. destruct x; [|discriminate].
  now inversion H; subst.
Qed.

(** The groups of [groupby]: a mask with a flag for each row, at least one
    of them set. *)
Lemma groupby_groups (df : DataFrame) (by_ : list string)
    (groups : list (list cell * list bool)) :
  wf df -> groupby df by_ = Ok groups ->
  Forall (fun g => length (snd g) = nrows df /\ 0 < count_true (snd g))
         groups.
Proof.
  intros Hwf H. unfold groupby in H. inv_bind H. rename x into key_columns.
  inversion H; subst groups; clear H.
  assert (Hlen : length (zip_rows (nrows df) key_columns) = nrows df).
  { apply zip_rows_length. apply mapM_Forall2 in E. clear - E Hwf.
    induction E as [|l c by_ cols Hl _ IH]; constructor; auto.
    apply series_inv in Hl. exact (wf_length _ _ _ Hwf Hl). }
  apply Forall_forall. intros g Hg. apply in_map_iff in Hg.
  destruct Hg as (key & <- & Hkey). cbn [snd].
  split; [now rewrite length_map|].
  apply group_keys_In in Hkey. destruct Hkey as (Hin & _).
  apply In_nth_error in Hin. destruct Hin as (i & Hi).
  apply (count_true_pos _ i). rewrite nth_error_map, Hi. cbn [option_map].
  now rewrite key_eqb_refl.
Qed.

(** The incidents and the overdue incidents of a group, for identifiers
    that are never missing and flags that are booleans. *)
Lemma group_overdue (members : list bool) (ids : list cell) (bs : list bool) :
  length members = length ids -> Forall (fun c => c <> Null) ids ->
  series_count (select members ids) = count_true members /\
  series_sum (select members (map Bool bs)) =
    Ok (Num (inject_Z (Z.of_nat (count_true (select members bs))))) /\
  count_true (select members bs) <= count_true members.
Proof.
  intros Hl Hids. split.
  - rewrite series_count_full by (now apply Forall_select).
    now apply length_select_eq.
  - split; [rewrite select_map; apply series_sum_Bool|].
    pose proof (count_true_le_length (select members bs)).
    pose proof (length_select members bs). lia.
Qed.

Lemma percentage_Num (k t : nat) :
  0 < t ->
  percentage (Num (inject_Z (Z.of_nat k))) t =
  Num (Qred (inject_Z (Z.of_nat k) / inject_Z (Z.of_nat t) * 100)).
Proof. destruct t; [lia | reflexivity]. Qed.

(** X17: the overdue share of a team and month is a percentage: for a
    dataset whose [incident_id] is never missing and whose [is_overdue]
    column holds booleans, every row that [analyze_team_trends] returns
    has at least one incident, a number of overdue incidents that does
    not exceed it, and an [overdue_percentage] between 0 and 100 that is
    their ratio times 100. *)
Theorem analyze_team_trends_overdue_share (df : DataFrame)
    (ids : list cell) (bs : list bool) (t : list TeamAnalyzer.row) :
  wf df ->
  getitem df (LStr "incident_id") = Ok (Series ids) ->
  Forall (fun c => c <> Null) ids ->
  getitem df (LStr "is_overdue") = Ok (Series (map Bool bs)) ->
  TeamAnalyzer.analyze_team_trends (Some df) = Ok (Some t) ->
  Forall (fun r =>
    0 < TeamAnalyzer.total_incidents r /\
    exists k q,
      TeamAnalyzer.overdue_incidents r = Num (inject_Z (Z.of_nat k)) /\
      k <= TeamAnalyzer.total_incidents r /\
      TeamAnalyzer.overdue_percentage r = Num q /\
      (q == inject_Z (Z.of_nat k)
            / inject_Z (Z.of_nat (TeamAnalyzer.total_incidents r)) * 100)%Q /\
      (0 <= q)%Q /\ (q <= 100)%Q) t.
Proof.
  intros Hwf Hids Hnn Hov H. unfold TeamAnalyzer.analyze_team_trends in H.
  destruct (empty df); [discriminate|].
  inv_bind H. rename x into groups, E into Hg.
  rewrite (series_Series _ _ _ Hids) in H. cbn [bind] in H.
  inv_bind H. rename x into rts.
  rewrite (series_Series _ _ _ Hov) in H. cbn [bind] in H.
  inv_bind H. inversion H; subst x; clear H. rename E0 into Ht.
  pose proof (groupby_groups _ _ _ Hwf Hg) as Hgroups.
  pose proof (wf_length _ _ _ Hwf Hids) as Lids.
  apply mapM_Forall2 in Ht. rewrite Forall_forall in Hgroups.
  apply Forall_forall. intros r Hr.
  destruct (Forall2_In_r _ _ _ _ Ht Hr) as ([key members] & Hin & Hagg).
  destruct (Hgroups _ Hin) as (Hl & Hpos). cbn [snd] in Hl, Hpos.
  destruct (group_overdue members ids bs) as (Htot & Hsum & Hle);
    [congruence | exact Hnn |].
  unfold TeamAnalyzer.aggregate in Hagg. inv_bind Hagg.
  rewrite Hsum in Hagg. cbn [bind] in Hagg. inversion Hagg; subst r; clear Hagg.
  cbn [TeamAnalyzer.total_incidents TeamAnalyzer.overdue_incidents
       TeamAnalyzer.overdue_percentage].
  rewrite Htot. split; [exact Hpos|].
  destruct (percentage_bounds _ _ Hle Hpos) as (Hlo & Hhi).
  eexists; eexists. split; [reflexivity|]. split; [exact Hle|].
  split; [now apply percentage_Num|].
  split; [apply Qred_correct|]. split; assumption.
Qed.

Lemma analyze_team_trends_overdue_share_witness :
  exists t,
    TeamAnalyzer.analyze_team_trends
      (Some (mkDF 3 [(LStr "assigned_team", [Str "Core"; Str "Core"; Str "Web"]);
                     (LStr "month_year",
                      [Str "2024-01"; Str "2024-01"; Str "2024-01"]);
                     (LStr "incident_id", [Num 1; Num 2; Num 3]);
                     (LStr "resolution_time", [Num 30; Num 2; Null]);
                     (LStr "is_overdue",
                      [Bool true; Bool false; Bool false])]))
      = Ok (Some t) /\
    map TeamAnalyzer.overdue_percentage t = [Num 50; Num 0] /\
    Forall (fun r => 0 < TeamAnalyzer.total_incidents r) t.
Proof.
  eexists. split; [vm_compute; reflexivity|]. split; [reflexivity|].
  eapply Forall_impl;
    [|apply (analyze_team_trends_overdue_share
               (mkDF 3 [(LStr "assigned_team",
                         [Str "Core"; Str "Core"; Str "Web"]);
                        (LStr "month_year",
                         [Str "2024-01"; Str "2024-01"; Str "2024-01"]);
                        (LStr "incident_id", [Num 1; Num 2; Num 3]);
                        (LStr "resolution_time", [Num 30; Num 2; Null]);
                        (LStr "is_overdue",
                         [Bool true; Bool false; Bool false])])
               [Num 1; Num 2; Num 3] [true; false; false])].
  - intros r (Hpos & _). exact Hpos.
  - repeat constructor.
  - reflexivity.
  - repeat constructor; discriminate.
  - reflexivity.
  - vm_compute; reflexivity.
Defined.

Lemma Forall2_map_eq {A B C : Type} (f : A -> C) (g : B -> C) (l : list A)
    (l' : list B) :
  Forall2 (fun a b => f a = g b) l l' -> map f l = map g l'.
Proof. induction 1; simpl; congruence. Qed.

Lemma Forall2_weaken {A B : Type} (R S : A -> B -> Prop) (l : list A)
    (l' : list B) :
  (forall a b, R a b -> S a b) -> Forall2 R l l' -> Forall2 S l l'.
Proof. intros H; induction 1; constructor; auto. Qed.

Lemma StronglySorted_map_inv {A B : Type} (f : A -> B) (R : B -> B -> Prop)
    (l : list A) :
  StronglySorted R (map f l) -> StronglySorted (fun a b => R (f a) (f b)) l.
Proof.
  induction l as [|a l IH]; cbn [map]; intro H; [constructor|].
  inversion H as [|? ? Hl Ha]; subst. constructor; [now apply IH|].
  now rewrite Forall_map in Ha.
Qed.

(** X18: the team summary has one row for each team, in sorted order: for
    a dataset with one [assigned_team] column, an [incident_id] that is
    never missing and boolean [is_overdue] flags, every row that
    [get_team_performance_summary] returns is a team of the dataset, not
    missing, with the number of its records and the number of them that
    are overdue; no team comes twice, and the totals add up to the number
    of records that have a team. *)
Theorem get_team_performance_summary_spec (df : DataFrame)
    (teams ids : list cell) (bs : list bool)
    (t : list TeamAnalyzer.summary_row) :
  wf df ->
  getitem df (LStr "assigned_team") = Ok (Series teams) ->
  getitem df (LStr "incident_id") = Ok (Series ids) ->
  Forall (fun c => c <> Null) ids ->
  getitem df (LStr "is_overdue") = Ok (Series (map Bool bs)) ->
  TeamAnalyzer.get_team_performance_summary (Some df) = Ok (Some t) ->
  StronglySorted
    (fun a b => cell_leb (TeamAnalyzer.s_assigned_team a)
                         (TeamAnalyzer.s_assigned_team b) = true) t /\
  NoDup (map TeamAnalyzer.s_assigned_team t) /\
  Forall (fun r =>
    let team := TeamAnalyzer.s_assigned_team r in
    team <> Null /\ In team teams /\
    0 < TeamAnalyzer.s_total_incidents r /\
    TeamAnalyzer.s_total_incidents r = occurrences team teams /\
    TeamAnalyzer.s_overdue_incidents r =
      Num (inject_Z (Z.of_nat
             (count_true (select (map (fun x => cell_eqb x team) teams)
                                 bs))))) t /\
  list_sum (map TeamAnalyzer.s_total_incidents t) = series_count teams.
Proof.
  intros Hwf Hteams Hids Hnn Hov H.
  unfold TeamAnalyzer.get_team_performance_summary in H.
  destruct (empty df); [discriminate|].
  pose proof (wf_length _ _ _ Hwf Hteams) as Lteams.
  pose proof (wf_length _ _ _ Hwf Hids) as Lids.
  rewrite (groupby_spec df _ [teams]) in H
    by (cbn [mapM]; now rewrite (series_Series _ _ _ Hteams)).
  cbn [bind] in H. rewrite (series_Series _ _ _ Hids) in H. cbn [bind] in H.
  inv_bind H. rename x into rts.
  rewrite (series_Series _ _ _ Hov) in H. cbn [bind] in H.
  inv_bind H. inversion H; subst x; clear H. rename E0 into Ht.
  rewrite (zip_rows_1 _ _ Lteams), group_keys_single, map_map in Ht.
  set (keys := sort_by cell_leb (unique (filter notnull teams))) in *.
  apply mapM_Forall2, Forall2_map_l in Ht. cbn beta in Ht.
  assert (Hkeys : forall v, In v keys -> v <> Null /\ In v teams).
  { intros v Hv. apply (Permutation_in _ (sort_by_perm _ _)) in Hv.
    apply unique_incl, filter_In in Hv. destruct Hv as (Hv & Hn).
    split; [intros ->; discriminate | exact Hv]. }
  (* each row is the aggregate of its team *)
  assert (Hrows : Forall2 (fun v r =>
            v = TeamAnalyzer.s_assigned_team r /\
            TeamAnalyzer.s_total_incidents r = occurrences v teams /\
            TeamAnalyzer.s_overdue_incidents r =
              Num (inject_Z (Z.of_nat
                     (count_true (select (map (fun x => cell_eqb x v) teams)
                                         bs))))) keys t).
  { eapply Forall2_weaken; [|exact Ht]. intros v r Hagg.
    assert (Hmask : map (fun rk => key_eqb rk [v]) (map (fun x => [x]) teams)
                    = map (fun x => cell_eqb x v) teams).
    { rewrite map_map. apply map_ext. intro x. simpl.
      now rewrite andb_true_r. }
    cbn beta in Hagg. rewrite Hmask in Hagg.
    destruct (group_overdue (map (fun x => cell_eqb x v) teams) ids bs)
      as (Htot & Hsum & _); [rewrite length_map; congruence | exact Hnn |].
    unfold TeamAnalyzer.summarize in Hagg. inv_bind Hagg.
    rewrite Hsum in Hagg. cbn [bind] in Hagg.
    inversion Hagg; subst r; clear Hagg.
    cbn [TeamAnalyzer.s_assigned_team TeamAnalyzer.s_total_incidents
         TeamAnalyzer.s_overdue_incidents nth].
    split; [reflexivity|]. split; [|reflexivity].
    rewrite Htot, count_true_map. unfold occurrences. f_equal.
    apply filter_ext. intro c. apply cell_eqb_sym. }
  assert (Hteam : map TeamAnalyzer.s_assigned_team t = keys).
  { symmetry. rewrite <- (map_id keys). apply Forall2_map_eq.
    eapply Forall2_weaken; [|exact Hrows]. now intros v r (Ev & _). }
  split.
  { apply (StronglySorted_map_inv TeamAnalyzer.s_assigned_team
             (fun a b => cell_leb a b = true)).
    rewrite Hteam.
    apply sort_by_sorted; [apply cell_leb_total | apply cell_leb_trans]. }
  split.
  { rewrite Hteam.
    apply (Permutation_NoDup (Permutation_sym (sort_by_perm _ _))).
    apply unique_NoDup. }
  split.
  { apply Forall_forall. intros r Hr.
    destruct (Forall2_In_r _ _ _ _ Hrows Hr) as (v & Hv & Ev & Htot & Hovd).
    subst v. destruct (Hkeys _ Hv) as (Hn & Hin). cbn zeta.
    split; [exact Hn|]. split; [exact Hin|].
    split; [rewrite Htot; now apply occurrences_pos|].
    split; assumption. }
  rewrite <- occurrences_unique_sum.
  rewrite <- (list_sum_perm _ _
                (Permutation_map (fun v => occurrences v teams)
                                 (sort_by_perm cell_leb _))).
  fold keys. f_equal. symmetry. apply Forall2_map_eq.
  eapply Forall2_weaken; [|exact Hrows]. intros v r (_ & Ev & _). now symmetry.
Qed.

Lemma get_team_performance_summary_spec_witness :
  exists t,
    TeamAnalyzer.get_team_performance_summary
      (Some (mkDF 4 [(LStr "assigned_team",
                      [Str "Web"; Str "Core"; Null; Str "Web"]);
                     (LStr "incident_id", [Num 1; Num 2; Num 3; Num 4]);
                     (LStr "resolution_time", [Num 30; Num 2; Null; Num 50]);
                     (LStr "is_overdue",
                      [Bool true; Bool false; Bool false; Bool true])]))
      = Ok (Some t) /\
    map TeamAnalyzer.s_assigned_team t = [Str "Core"; Str "Web"] /\
    map TeamAnalyzer.s_total_incidents t = [1; 2] /\
    list_sum (map TeamAnalyzer.s_total_incidents t) = 3.
Proof.
  eexists. split; [vm_compute; reflexivity|]. split; [reflexivity|].
  split; [reflexivity|].
  edestruct (get_team_performance_summary_spec
               (mkDF 4 [(LStr "assigned_team",
                         [Str "Web"; Str "Core"; Null; Str "Web"]);
                        (LStr "incident_id", [Num 1; Num 2; Num 3; Num 4]);
                        (LStr "resolution_time",
                         [Num 30; Num 2; Null; Num 50]);
                        (LStr "is_overdue",
                         [Bool true; Bool false; Bool false; Bool true])])
               [Str "Web"; Str "Core"; Null; Str "Web"]
               [Num 1; Num 2; Num 3; Num 4] [true; false; false; true])
    as (_ & _ & _ & Hsum);
    [repeat constructor | reflexivity | reflexivity
     | repeat constructor; discriminate | reflexivity
     | vm_compute; reflexivity |].
  exact Hsum.
Defined.

(* ================================================================== *)
(** * Recurring issues, continued *)

Lemma mapM_raise {A B : Type} (f : A -> result B) (l : list A) (a : A) :
  In a l -> (exists e, f a = Raise e) -> exists e, mapM f l = Raise e.
Proof.
  intros Hin (e & Hfa). induction l as [|x l IH]; [contradiction|].
  cbn [mapM]. destruct (f x) as [b|e'] eqn:Hx; cbn [bind]; [|eauto].
  destruct Hin as [-> | Hin]; [congruence|].
  destruct (IH Hin) as (e'' & ->). cbn [bind]. eauto.
Qed.

Lemma select_In {A : Type} (mask : list bool) (l : list A) (i : nat) (x : A) :
  nth_error mask i = Some true -> nth_error l i = Some x ->
  In x (select mask l).
Proof.
  revert l i. induction mask as [|b mask IH]; intros [|a l] [|i] Hm Hl;
    simpl in *; try discriminate.
  - inversion Hm; inversion Hl; subst. now left.
  - destruct b; [right|]; eapply IH; eauto.
Qed.

Lemma series_mode_all_null (x : list cell) :
  Forall (fun c => c = Null) x -> series_mode x = [].
Proof.
  intro H. unfold series_mode.
  assert (E : filter notnull x = []).
  { apply filter_none. rewrite Forall_forall in H. intros c Hc.
    now rewrite (H c Hc). }
  rewrite E. reflexivity.
Qed.

(** X19: one issue whose records all lack a team costs the whole table:
    when some record has a category and a title and no record of that
    category and title has an [assigned_team], the most frequent team of
    the group does not exist, the lookup of its first element fails, and
    [get_top_recurring_issues] returns None for the whole dataset. *)
Theorem get_top_recurring_issues_group_without_team (df : DataFrame)
    (cs ts teams : list cell) (i : nat) (c t : cell) (top_n : Z) :
  wf df ->
  getitem df (LStr "category") = Ok (Series cs) ->
  getitem df (LStr "title") = Ok (Series ts) ->
  getitem df (LStr "assigned_team") = Ok (Series teams) ->
  nth_error cs i = Some c -> nth_error ts i = Some t ->
  c <> Null -> t <> Null ->
  Forall (fun x => x = Null) (select (members cs ts c t) teams) ->
  RecurringIssuesAnalyzer.get_top_recurring_issues (Some df) top_n = None.
Proof.
  intros Hwf Hcs Hts Hteams Hc Ht Hcn Htn Hnull.
  pose proof (wf_length _ _ _ Hwf Hcs) as Lcs.
  pose proof (wf_length _ _ _ Hwf Hts) as Lts.
  pose proof (wf_length _ _ _ Hwf Hteams) as Lteams.
  unfold RecurringIssuesAnalyzer.get_top_recurring_issues.
  destruct (empty df); [reflexivity|].
  rewrite (groupby_spec df _ [cs; ts])
    by (cbn [mapM]; now rewrite (series_Series _ _ _ Hcs),
                                (series_Series _ _ _ Hts)).
  cbn [bind].
  destruct (series df "incident_id") as [ids|e]; [|reflexivity].
  cbn [bind].
  destruct (series df "resolution_time") as [rts|e]; [|reflexivity].
  cbn [bind]. rewrite (series_Series _ _ _ Hteams). cbn [bind].
  rewrite (zip_rows_2 _ _ _ Lcs Lts).
  set (row_keys := map2 (fun x y => [x; y]) cs ts).
  (* the group of the record *)
  assert (Hin : In [c; t] row_keys).
  { unfold row_keys. eapply nth_error_In.
    now apply (nth_error_map2 (fun x y => [x; y]) cs ts i c t). }
  assert (Hnn : forallb notnull [c; t] = true).
  { simpl. destruct c, t; simpl; congruence. }
  pose proof (group_keys_representatives row_keys _ Hin) as Hrep.
  rewrite Hnn in Hrep. unfold representatives in Hrep.
  destruct (filter (key_eqb [c; t]) (group_keys row_keys)) as [|key l] eqn:Ef;
    [discriminate|].
  assert (Hkey : In key (filter (key_eqb [c; t]) (group_keys row_keys)))
    by (rewrite Ef; now left).
  apply filter_In in Hkey. destruct Hkey as (Hkey & Eq).
  assert (Hmask : map (fun rk => key_eqb rk key) row_keys = members cs ts c t).
  { rewrite <- mask_members. fold row_keys. apply map_ext. intro rk.
    destruct (key_eqb rk [c; t]) eqn:E1.
    - exact (key_eqb_trans _ _ _ E1 Eq).
    - destruct (key_eqb rk key) eqn:E2; [|reflexivity].
      rewrite key_eqb_sym in Eq.
      now rewrite (key_eqb_trans _ _ _ E2 Eq) in E1. }
  (* its aggregate fails *)
  assert (Hfail : exists e,
            RecurringIssuesAnalyzer.aggregate ids rts teams
              (key, map (fun rk => key_eqb rk key) row_keys) = Raise e).
  { unfold RecurringIssuesAnalyzer.aggregate. rewrite Hmask.
    destruct (series_mean _) as [mean|e]; cbn [bind]; [|eauto].
    unfold RecurringIssuesAnalyzer.top_team.
    assert (Hmem : nth_error (members cs ts c t) i = Some true).
    { unfold members. rewrite (nth_error_map2 _ cs ts i c t Hc Ht).
      unfold same_issue. now rewrite !cell_eqb_refl. }
    destruct (nth_error_Some_lt teams i) as (team & Hteam).
    { rewrite Lteams, <- Lcs. apply nth_error_Some. congruence. }
    pose proof (select_In _ _ _ _ Hmem Hteam) as Hsel.
    destruct (select (members cs ts c t) teams) as [|x xs] eqn:Ex;
      [contradiction|].
    rewrite (series_mode_all_null _ Hnull). cbn [iloc0 bind]. eauto. }
  destruct (mapM_raise (RecurringIssuesAnalyzer.aggregate ids rts teams)
              (map (fun k => (k, map (fun rk => key_eqb rk k) row_keys))
                   (group_keys row_keys))
              (key, map (fun rk => key_eqb rk key) row_keys))
    as (e & ->); [|exact Hfail|reflexivity].
  apply in_map_iff. exists key. split; [reflexivity | exact Hkey].
Qed.

Lemma get_top_recurring_issues_group_without_team_witness :
  RecurringIssuesAnalyzer.get_top_recurring_issues
    (Some (mkDF 3
       [(LStr "category", [Str "Database"; Str "Database"; Str "Access"]);
        (LStr "title",
         [Str "Database outage"; Str "Database outage"; Str "Login failure"]);
        (LStr "incident_id", [Num 1; Num 2; Num 3]);
        (LStr "resolution_time", [Num 3; Num 5; Num 1]);
        (LStr "assigned_team", [Str "Core"; Str "Core"; Null])]))
    10 = None.
Proof.
  apply (get_top_recurring_issues_group_without_team _
           [Str "Database"; Str "Database"; Str "Access"]
           [Str "Database outage"; Str "Database outage"; Str "Login failure"]
           [Str "Core"; Str "Core"; Null] 2 (Str "Access")
           (Str "Login failure")).
  - repeat constructor.
  - reflexivity.
  - reflexivity.
  - reflexivity.
  - reflexivity.
  - reflexivity.
  - discriminate.
  - discriminate.
  - vm_compute. repeat constructor.
Defined.

Lemma zip_rows_key_length (n : nat) (cols : list (list cell))
    (k : list cell) :
  In k (zip_rows n cols) -> length k = length cols.
Proof.
  revert k. induction cols as [|c cols IH]; intros k Hk; cbn [zip_rows] in Hk.
  - apply repeat_spec in Hk. now subst.
  - revert Hk. generalize (zip_rows n cols), IH. clear IH.
    induction c as [|x c IHc]; intros [|r rows] IH Hk; simpl in Hk;
      try contradiction.
    destruct Hk as [<- | Hk].
    + simpl. f_equal. apply IH. now left.
    + apply (IHc rows); [|exact Hk]. intros k' Hk'. apply IH. now right.
Qed.

(** The groups of [groupby] are keyed by tuples without a missing value,
    one cell for each key column, and hold no more rows than the frame. *)
Lemma groupby_keys (df : DataFrame) (by_ : list string)
    (groups : list (list cell * list bool)) :
  wf df -> groupby df by_ = Ok groups ->
  Forall (fun g => forallb notnull (fst g) = true /\
                   length (fst g) = length by_) groups /\
  list_sum (map (fun g => count_true (snd g)) groups) <= nrows df.
Proof.
  intros Hwf H. unfold groupby in H. inv_bind H. rename x into key_columns.
  inversion H; subst groups; clear H. fold (group_keys (zip_rows (nrows df)
                                                         key_columns)).
  assert (Hlen : length (zip_rows (nrows df) key_columns) = nrows df).
  { apply zip_rows_length. apply mapM_Forall2 in E. clear - E Hwf.
    induction E as [|l c by_ cols Hl _ IH]; constructor; auto.
    apply series_inv in Hl. exact (wf_length _ _ _ Hwf Hl). }
  split.
  - apply Forall_forall. intros g Hg. apply in_map_iff in Hg.
    destruct Hg as (key & <- & Hkey). cbn [fst].
    apply group_keys_In in Hkey. destruct Hkey as (Hin & Hnn).
    split; [exact Hnn|]. rewrite (zip_rows_key_length _ _ _ Hin).
    exact (mapM_length _ _ _ E).
  - rewrite map_map. cbn [snd].
    rewrite group_masks_sum
      by (intros; now apply group_keys_representatives).
    rewrite <- Hlen at 2.
    rewrite <- (length_map (forallb notnull)). apply count_true_le_length.
Qed.

Lemma list_sum_firstn (k : nat) (l : list nat) :
  list_sum (firstn k l) <= list_sum l.
Proof.
  revert k. induction l as [|x l IH]; intros [|k]; simpl; try lia.
  specialize (IH k). lia.
Qed.

Lemma StronglySorted_firstn {A : Type} (R : A -> A -> Prop) (k : nat)
    (l : list A) :
  StronglySorted R l -> StronglySorted R (firstn k l).
Proof.
  intro H. revert k. induction H as [|a l Hl IH Ha]; intros [|k];
    cbn [firstn]; constructor; auto.
  rewrite <- (firstn_skipn k l) in Ha. apply Forall_app in Ha. tauto.
Qed.

Lemma head_firstn {A : Type} (n : Z) (l : list A) :
  exists k, head n l = firstn k l /\ (0 <= n -> k = Z.to_nat n)%Z.
Proof.
  unfold head. destruct (0 <=? n)%Z eqn:E.
  - eexists. split; [reflexivity | reflexivity].
  - eexists. split; [reflexivity|]. apply Z.leb_gt in E. lia.
Qed.

(** X20: the bounds of the recurring-issue table: whenever
    [get_top_recurring_issues] returns a table, it holds no more than
    [top_n] rows (for a [top_n] that is not negative), in non-increasing
    order of frequency; every row has a category and a title, and the
    frequencies add up to no more than the number of records. *)
Theorem get_top_recurring_issues_bounds (df : DataFrame) (top_n : Z)
    (rows : list RecurringIssuesAnalyzer.row) :
  wf df ->
  RecurringIssuesAnalyzer.get_top_recurring_issues (Some df) top_n
    = Some rows ->
  ((0 <= top_n)%Z -> length rows <= Z.to_nat top_n) /\
  StronglySorted (fun a b => RecurringIssuesAnalyzer.frequency b <=
                             RecurringIssuesAnalyzer.frequency a) rows /\
  Forall (fun r => RecurringIssuesAnalyzer.category r <> Null /\
                   RecurringIssuesAnalyzer.title r <> Null) rows /\
  list_sum (map RecurringIssuesAnalyzer.frequency rows) <= nrows df.
Proof.
  intros Hwf H. unfold RecurringIssuesAnalyzer.get_top_recurring_issues in H.
  destruct (empty df); [discriminate|]. unfold try_except in H.
  match type of H with
  | match ?m with _ => _ end = _ => destruct m as [r|e] eqn:E
  end; [|discriminate].
  subst r. inv_bind E. rename x into groups, E0 into Hg.
  inv_bind E. rename x into ids. inv_bind E. rename x into rts.
  inv_bind E. rename x into teams. inv_bind E. rename x into rows0.
  inversion E; subst rows; clear E. rename E3 into Hrows0.
  destruct (groupby_keys _ _ _ Hwf Hg) as (Hkeys & Hsum).
  apply mapM_Forall2 in Hrows0.
  set (table := sort_by RecurringIssuesAnalyzer.by_frequency_desc rows0).
  assert (Hperm : Permutation table rows0) by apply sort_by_perm.
  destruct (head_firstn top_n table) as (k & -> & Hk).
  (* every aggregated row *)
  assert (Hrow : forall g row,
            In g groups ->
            RecurringIssuesAnalyzer.aggregate ids rts teams g = Ok row ->
            RecurringIssuesAnalyzer.category row <> Null /\
            RecurringIssuesAnalyzer.title row <> Null /\
            RecurringIssuesAnalyzer.frequency row <= count_true (snd g)).
  { intros [key members] row Hin Hagg. rewrite Forall_forall in Hkeys.
    destruct (Hkeys _ Hin) as (Hnn & Hl). cbn [fst snd] in *.
    unfold RecurringIssuesAnalyzer.aggregate in Hagg.
    inv_bind Hagg. inv_bind Hagg. inversion Hagg; subst row; clear Hagg.
    cbn [RecurringIssuesAnalyzer.category RecurringIssuesAnalyzer.title
         RecurringIssuesAnalyzer.frequency].
    destruct key as [|a [|b [|]]]; try discriminate.
    simpl in Hnn. apply andb_prop in Hnn. destruct Hnn as (Ha & Hb).
    rewrite andb_true_r in Hb. cbn [nth].
    split; [intros ->; discriminate|]. split; [intros ->; discriminate|].
    apply series_count_select. }
  split.
  { intro Hpos. rewrite (Hk Hpos). apply firstn_le_length. }
  split.
  { apply StronglySorted_firstn.
    apply (StronglySorted_weaken
             (fun a b => RecurringIssuesAnalyzer.by_frequency_desc a b = true)).
    - intros a b Hab. now apply Nat.leb_le in Hab.
    - apply sort_by_sorted.
      + intros a b. unfold RecurringIssuesAnalyzer.by_frequency_desc.
        rewrite !Nat.leb_le. lia.
      + intros a b c. unfold RecurringIssuesAnalyzer.by_frequency_desc.
        rewrite !Nat.leb_le. lia. }
  split.
  { apply Forall_forall. intros r Hr.
    assert (Hin : In r table).
    { rewrite <- (firstn_skipn k table). apply in_or_app. now left. }
    apply (Permutation_in _ Hperm) in Hin.
    destruct (Forall2_In_r _ _ _ _ Hrows0 Hin) as (g & Hgin & Hagg).
    destruct (Hrow g r Hgin Hagg) as (Hc & Ht & _). now split. }
  rewrite <- firstn_map.
  apply Nat.le_trans with
    (list_sum (map RecurringIssuesAnalyzer.frequency table));
    [apply list_sum_firstn|].
  rewrite (list_sum_perm _ _ (Permutation_map _ Hperm)).
  apply Nat.le_trans with (list_sum (map (fun g => count_true (snd g)) groups));
    [|exact Hsum].
  clear - Hrows0 Hrow.
  induction Hrows0 as [|g row groups rows0 Hagg _ IH]; [simpl; lia|].
  cbn [map list_sum].
  destruct (Hrow g row (or_introl eq_refl) Hagg) as (_ & _ & Hle).
  assert (IH' : list_sum (map RecurringIssuesAnalyzer.frequency rows0) <=
                list_sum (map (fun g => count_true (snd g)) groups)).
  { apply IH. intros g' row' Hin. apply Hrow. now right. }
  simpl. lia.
Qed.

Lemma get_top_recurring_issues_bounds_witness :
  exists rows,
    RecurringIssuesAnalyzer.get_top_recurring_issues
      (Some (mkDF 3
         [(LStr "category", [Str "Database"; Str "Database"; Str "Access"]);
          (LStr "title",
           [Str "Database outage"; Str "Database outage";
            Str "Login failure"]);
          (LStr "incident_id", [Num 1; Num 2; Num 3]);
          (LStr "resolution_time", [Num 3; Num 5; Null]);
          (LStr "assigned_team", [Str "Zeta"; Str "Alpha"; Str "Alpha"])]))
      1 = Some rows /\
    length rows <= 1 /\
    list_sum (map RecurringIssuesAnalyzer.frequency rows) <= 3.
Proof.
  eexists. split; [vm_compute; reflexivity|].
  edestruct (get_top_recurring_issues_bounds
               (mkDF 3
                  [(LStr "category",
                    [Str "Database"; Str "Database"; Str "Access"]);
                   (LStr "title",
                    [Str "Database outage"; Str "Database outage";
                     Str "Login failure"]);
                   (LStr "incident_id", [Num 1; Num 2; Num 3]);
                   (LStr "resolution_time", [Num 3; Num 5; Null]);
                   (LStr "assigned_team",
                    [Str "Zeta"; Str "Alpha"; Str "Alpha"])]) 1)
    as (Hlen & _ & _ & Hsum);
    [repeat constructor | vm_compute; reflexivity |].
  split; [apply Hlen; lia | exact Hsum].
Defined.

(* ================================================================== *)
(** * The processing of an upload *)

Lemma nrows_tagged_sum (sheets : list (string * DataFrame)) :
  fold_right (fun df n => nrows df + n) 0
    (map (fun s => tagged (fst s) (snd s)) sheets) =
  list_sum (map (fun s => nrows (snd s)) sheets).
Proof.
  induction sheets as [|s l IH]; [reflexivity|].
  cbn [map fold_right list_sum]. rewrite IH. f_equal. apply tagged_spec.
Qed.

Lemma load_excel_files_inv (self p' : DataProcessor)
    (uploaded_files : list UploadedFile.t) (ok : bool) :
  load_excel_files self uploaded_files = Ok (ok, p') ->
  (ok = false /\ p' = self /\ loaded uploaded_files = []) \/
  (ok = true /\
   exists raw,
     p' = mkProcessor (Some raw) (processed_data self) /\
     nrows raw =
       list_sum (map (fun s => nrows (snd s)) (loaded uploaded_files))).
Proof.
  unfold load_excel_files. rewrite load_loop. cbn [app].
  destruct (loaded uploaded_files) as [|s0 sheets] eqn:El; cbn [map].
  - intro H. inversion H; subst. now left.
  - intro H. inv_bind H. rename x into raw. inversion H; subst ok p'; clear H.
    right. split; [reflexivity|]. exists raw. split; [reflexivity|].
    unfold concat in E.
    destruct (forallb _ _); [|discriminate]. inversion E; subst raw; clear E.
    cbn [nrows]. exact (nrows_tagged_sum (s0 :: sheets)).
Qed.

(** A normalization that fails leaves the processor as it was. *)
Lemma preprocess_data_false (now : Z)
    (parse_datetime : list cell -> cell -> option Z) (p p' : DataProcessor) :
  preprocess_data now parse_datetime p = (false, p') -> p' = p.
Proof.
  unfold preprocess_data. destruct (raw_data p) as [raw|];
    [|intro H; now inversion H].
  unfold try_except.
  match goal with
  | |- match ?m with _ => _ end = _ -> _ => destruct m as [[b q]|e] eqn:E
  end.
  - do 4 inv_bind E. inversion E; subst. discriminate.
  - intro H. now inversion H.
Qed.

(** X21: what processing an upload does to the session: when the handler
    of the "Process Files" button finishes and loading or preprocessing
    has failed, the flag [data_loaded], the processed data and so the
    dataset on the dashboard are those from before the upload; when both
    have succeeded, the flag is up, the raw data has as many rows as the
    sheets that could be read have together, and the processed data has
    as many rows as the raw data. *)
Theorem process_files_outcome (now : Z)
    (parse_datetime : list cell -> cell -> option Z)
    (st st' : App.session_state) (uploaded_files : list UploadedFile.t) :
  App.process_files now parse_datetime st uploaded_files = Ok st' ->
  exists loaded_ok p1,
    load_excel_files (App.data_processor st) uploaded_files
      = Ok (loaded_ok, p1) /\
    let ok := loaded_ok && fst (preprocess_data now parse_datetime p1) in
    (ok = false ->
     App.data_loaded st' = App.data_loaded st /\
     processed_data (App.data_processor st') =
       processed_data (App.data_processor st) /\
     App.dashboard_data st' = App.dashboard_data st) /\
    (ok = true ->
     App.data_loaded st' = true /\
     exists raw df,
       raw_data (App.data_processor st') = Some raw /\
       processed_data (App.data_processor st') = Some df /\
       nrows raw =
         list_sum (map (fun s => nrows (snd s)) (loaded uploaded_files)) /\
       nrows df = nrows raw).
Proof.
  unfold App.process_files. intro H. inv_bind H. destruct x as [ok p1].
  exists ok, p1. split; [exact E|]. cbn zeta.
  destruct (load_excel_files_inv _ _ _ _ E)
    as [(-> & -> & _) | (-> & raw & -> & Hn)]; cbn [andb].
  - inversion H; subst st'. split; [|discriminate].
    intros _. unfold App.dashboard_data. cbn. auto.
  - destruct (preprocess_data now parse_datetime _) as [ok2 p2] eqn:Hp.
    cbn [fst].
    destruct ok2; inversion H; subst st'; clear H; split; try discriminate;
      intros _.
    + split; [reflexivity|].
      destruct (preprocess_data_inv now parse_datetime _ _ Hp)
        as (raw' & std & df1 & df2 & df & Hraw & Hstd & H1 & H2 & H3 & ->).
      cbn [raw_data] in Hraw. inversion Hraw; subst raw'; clear Hraw.
      exists raw, df. cbn. split; [reflexivity|]. split; [reflexivity|].
      split; [exact Hn|].
      rewrite (assigned_nrows _ _
                 (preprocess_data_assigned now parse_datetime _ _ _ _
                    H1 H2 H3)).
      exact (standardize_columns_nrows _ _ Hstd).
    + apply preprocess_data_false in Hp. subst p2.
      unfold App.dashboard_data. cbn. auto.
Qed.

Lemma process_files_outcome_witness :
  exists st' raw,
    App.process_files 0 (fun _ _ => None)
      (App.mkSession
         (mkProcessor (Some (mkDF 1 [(LStr "title", [Str "Disk full"])]))
                      (Some (mkDF 1 [(LStr "title", [Str "Disk full"])])))
         true)
      [UploadedFile.mk "b.xlsx"
         (Ok (mkDF 1 [(LStr "created", [Date 0]);
                      (LStr "created_date", [Date 5])]))] = Ok st' /\
    raw_data (App.data_processor st') = Some raw /\
    getitem raw (LStr "source_file") = Ok (Series [Str "b.xlsx"]) /\
    App.dashboard_data st' =
      Some (mkDF 1 [(LStr "title", [Str "Disk full"])]).
Proof.
  destruct (App.process_files 0 (fun _ _ => None)
              (App.mkSession
                 (mkProcessor
                    (Some (mkDF 1 [(LStr "title", [Str "Disk full"])]))
                    (Some (mkDF 1 [(LStr "title", [Str "Disk full"])])))
                 true)
              [UploadedFile.mk "b.xlsx"
                 (Ok (mkDF 1 [(LStr "created", [Date 0]);
                              (LStr "created_date", [Date 5])]))])
    as [st'|e] eqn:E; [|vm_compute in E; discriminate E].
  destruct (process_files_outcome _ _ _ _ _ E)
    as (ok & p1 & Hload & Hfail & _).
  vm_compute in Hload. inversion Hload; subst ok p1; clear Hload.
  destruct Hfail as (_ & _ & Hd); [vm_compute; reflexivity|].
  vm_compute in E. inversion E; subst st'; clear E.
  eexists; eexists. split; [reflexivity|]. split; [reflexivity|].
  split; [reflexivity|]. exact Hd.
Defined.

(* ================================================================== *)
(** * The series of the charts *)

Lemma cumsum_from_length (acc : nat) (l : list nat) :
  length (ChartGenerator.cumsum_from acc l) = length l.
Proof. revert acc. induction l; intro acc; simpl; auto. Qed.

Lemma cumsum_from_bounds (acc : nat) (l : list nat) :
  Forall (fun c => acc <= c /\ c <= acc + list_sum l)
         (ChartGenerator.cumsum_from acc l).
Proof.
  revert acc. induction l as [|x l IH]; intro acc; simpl; constructor.
  - lia.
  - eapply Forall_impl; [|apply IH]. simpl. intros c Hc. lia.
Qed.

Lemma cumsum_from_sorted (acc : nat) (l : list nat) :
  StronglySorted le (ChartGenerator.cumsum_from acc l).
Proof.
  revert acc. induction l as [|x l IH]; intro acc; simpl; constructor.
  - apply IH.
  - eapply Forall_impl; [|apply cumsum_from_bounds]. simpl. intros c Hc. lia.
Qed.

Lemma cumsum_from_last (acc : nat) (l : list nat) (d : nat) :
  l <> [] -> last (ChartGenerator.cumsum_from acc l) d = acc + list_sum l.
Proof.
  revert acc. induction l as [|x l IH]; intros acc Hne; [congruence|].
  destruct l as [|y l]; [simpl; lia|].
  change (last (ChartGenerator.cumsum_from acc (x :: y :: l)) d)
    with (last (ChartGenerator.cumsum_from (acc + x) (y :: l)) d).
  rewrite IH by discriminate. simpl. lia.
Qed.

Lemma percentage_mono (a b t : nat) :
  a <= b -> 0 < t ->
  (Qred (inject_Z (Z.of_nat a) / inject_Z (Z.of_nat t) * 100) <=
   Qred (inject_Z (Z.of_nat b) / inject_Z (Z.of_nat t) * 100))%Q.
Proof.
  intros Hle Hpos. rewrite !Qred_correct.
  assert (Hab : (Z.of_nat a <= Z.of_nat b)%Z) by lia.
  destruct (Z.of_nat t) as [|q|q] eqn:Et; try lia.
  unfold Qle, Qdiv, Qmult, Qinv, inject_Z. cbn [Qnum Qden]. nia.
Qed.

Lemma percentage_full (t : nat) :
  0 < t ->
  (Qred (inject_Z (Z.of_nat t) / inject_Z (Z.of_nat t) * 100) == 100)%Q.
Proof.
  intro Hpos. rewrite Qred_correct.
  destruct (Z.of_nat t) as [|q|q] eqn:Et; try lia.
  unfold Qeq, Qdiv, Qmult, Qinv, inject_Z. cbn [Qnum Qden]. lia.
Qed.


(** X22: the Pareto chart of a table of issues: the bars are the
    frequencies of the table in non-increasing order; when some frequency
    is positive, the cumulative line never falls, stays between 0 and
    100 and ends at 100 percent; when all frequencies are zero the line
    has no value at all. *)
Theorem create_pareto_chart_spec (rows : list RecurringIssuesAnalyzer.row)
    (chart : ChartGenerator.pareto) :
  ChartGenerator.create_pareto_chart (Some rows) = Some chart ->
  let total := list_sum (map RecurringIssuesAnalyzer.frequency rows) in
  Permutation (ChartGenerator.bar_y chart)
              (map RecurringIssuesAnalyzer.frequency rows) /\
  StronglySorted (fun a b => b <= a) (ChartGenerator.bar_y chart) /\
  length (ChartGenerator.line_y chart) = length rows /\
  (0 < total ->
   exists qs,
     ChartGenerator.line_y chart = map Num qs /\
     StronglySorted Qle qs /\
     Forall (fun q => (0 <= q)%Q /\ (q <= 100)%Q) qs /\
     (last qs 0 == 100)%Q) /\
  (total = 0 -> Forall (fun c => c = Null) (ChartGenerator.line_y chart)).
Proof.
  intro H. unfold ChartGenerator.create_pareto_chart in H.
  destruct rows as [|r0 rows0]; [discriminate|].
  set (rows := r0 :: rows0) in *.
  assert (Hrows : rows <> []) by (unfold rows; discriminate).
  clearbody rows. intro total.
  inversion H; subst chart; clear H.
  cbn [ChartGenerator.bar_y ChartGenerator.line_y].
  set (sorted := sort_by RecurringIssuesAnalyzer.by_frequency_desc rows).
  set (freq := map RecurringIssuesAnalyzer.frequency sorted).
  assert (Hperm : Permutation freq (map RecurringIssuesAnalyzer.frequency rows))
    by (apply Permutation_map, sort_by_perm).
  assert (Htotal : list_sum freq = total) by (now apply list_sum_perm).
  assert (Hlen : length freq = length rows)
    by (now rewrite (Permutation_length Hperm), length_map).
  assert (Hne : freq <> []).
  { intro E. rewrite E in Hlen. destruct rows; [congruence | discriminate]. }
  fold sorted freq. rewrite Htotal.
  split; [exact Hperm|]. split.
  { apply (StronglySorted_map _
             (fun a b => RecurringIssuesAnalyzer.by_frequency_desc a b = true)).
    - intros a b Hab. now apply Nat.leb_le in Hab.
    - apply sort_by_sorted.
      + intros a b. unfold RecurringIssuesAnalyzer.by_frequency_desc.
        rewrite !Nat.leb_le. lia.
      + intros a b c. unfold RecurringIssuesAnalyzer.by_frequency_desc.
        rewrite !Nat.leb_le. lia. }
  split.
  { unfold ChartGenerator.cumsum. now rewrite length_map, cumsum_from_length. }
  split.
  - intro Hpos.
    exists (map (fun c => Qred (inject_Z (Z.of_nat c)
                                / inject_Z (Z.of_nat total) * 100))
                (ChartGenerator.cumsum freq)).
    split.
    { rewrite map_map. apply map_ext. intro c.
      now apply percentage_Num. }
    split.
    { apply (StronglySorted_map _ le).
      - intros a b Hab. now apply percentage_mono.
      - apply cumsum_from_sorted. }
    split.
    { rewrite Forall_map. eapply Forall_impl;
        [|apply (cumsum_from_bounds 0 freq)].
      intros c (_ & Hc). cbn beta. apply percentage_bounds; [|exact Hpos].
      rewrite Htotal in Hc. exact Hc. }
    assert (E0 : (0 == Qred (inject_Z (Z.of_nat 0)
                            / inject_Z (Z.of_nat total) * 100))%Q).
    { rewrite Qred_correct. reflexivity. }
    unfold ChartGenerator.cumsum.
    destruct (ChartGenerator.cumsum_from 0 freq) as [|c0 cs] eqn:Ec.
    { apply (f_equal (@length nat)) in Ec. rewrite cumsum_from_length in Ec.
      destruct freq; [congruence | discriminate]. }
    rewrite <- Ec.
    assert (Hlast : forall (l : list nat) (d : Q), l <> [] ->
              last (map (fun c => Qred (inject_Z (Z.of_nat c)
                                        / inject_Z (Z.of_nat total) * 100)) l)
                   d =
              Qred (inject_Z (Z.of_nat (last l 0))
                    / inject_Z (Z.of_nat total) * 100)).
    { intros l d Hl. induction l as [|a [|b l] IH]; [congruence | reflexivity|].
      change (last (map _ (a :: b :: l)) d)
        with (last (map (fun c => Qred (inject_Z (Z.of_nat c)
                                        / inject_Z (Z.of_nat total) * 100))
                        (b :: l)) d).
      rewrite IH by discriminate. reflexivity. }
    rewrite Hlast by (rewrite Ec; discriminate).
    rewrite (cumsum_from_last 0 freq 0 Hne), Htotal. cbn [Nat.add].
    now apply percentage_full.
  - intro Hz. apply Forall_forall. intros c Hc. apply in_map_iff in Hc.
    destruct Hc as (n & <- & _). rewrite Hz. reflexivity.
Qed.

Lemma create_pareto_chart_spec_witness :
  exists chart,
    ChartGenerator.create_pareto_chart
      (Some [RecurringIssuesAnalyzer.mkRow (Str "Access")
               (Str "Login failure") 1 Null (Str "Web");
             RecurringIssuesAnalyzer.mkRow (Str "Database")
               (Str "Database outage") 3 (Num 4) (Str "Core")])
      = Some chart /\
    ChartGenerator.bar_y chart = [3; 1] /\
    ChartGenerator.line_y chart = [Num 75; Num 100].
Proof.
  eexists. split; [reflexivity|].
  edestruct (create_pareto_chart_spec
               [RecurringIssuesAnalyzer.mkRow (Str "Access")
                  (Str "Login failure") 1 Null (Str "Web");
                RecurringIssuesAnalyzer.mkRow (Str "Database")
                  (Str "Database outage") 3 (Num 4) (Str "Core")])
    as (_ & _ & _ & _); [reflexivity|].
  split; reflexivity.
Defined.

(** X23: the stacked bars of the SLA chart add up to the incidents: for
    every table that [analyze_sla_performance] returns, the chart has one
    bar pair for each row, in the order of the table; the "SLA Missed"
    series ([Total_Incidents - SLA_Met]) is never negative, and "SLA Met"
    plus "SLA Missed" is the number of incidents of the priority. *)
Theorem create_sla_performance_chart_spec (data : option DataFrame)
    (table : list SLAAnalyzer.row) (bars : ChartGenerator.sla_bars) :
  SLAAnalyzer.analyze_sla_performance data = Ok (Some table) ->
  ChartGenerator.create_sla_performance_chart (Some table) = Some bars ->
  ChartGenerator.bar_x bars = map SLAAnalyzer.Priority table /\
  ChartGenerator.sla_met bars =
    map (fun r => Z.of_nat (SLAAnalyzer.SLA_Met r)) table /\
  length (ChartGenerator.sla_missed bars) = length table /\
  Forall (fun z => (0 <= z)%Z) (ChartGenerator.sla_missed bars) /\
  map2 Z.add (ChartGenerator.sla_met bars) (ChartGenerator.sla_missed bars) =
    map (fun r => Z.of_nat (SLAAnalyzer.Total_Incidents r)) table.
Proof.
  intros Ht Hb.
  assert (Hrows : Forall (fun r => SLAAnalyzer.SLA_Met r <=
                                   SLAAnalyzer.Total_Incidents r) table).
  { unfold SLAAnalyzer.analyze_sla_performance in Ht.
    destruct data as [df|]; [|discriminate].
    destruct (empty df); [discriminate|]. inv_bind Ht.
    inversion Ht; subst x; clear Ht.
    destruct (foldM_analyze_priority _ _ _ _ E) as (rows & _ & -> & _ & Hr).
    cbn [app]. eapply Forall_impl; [|exact Hr]. intros r (_ & Hle & _).
    exact Hle. }
  unfold ChartGenerator.create_sla_performance_chart in Hb.
  destruct table as [|r0 table0]; [discriminate|].
  set (table := r0 :: table0) in *. clearbody table.
  inversion Hb; subst bars; clear Hb.
  cbn [ChartGenerator.bar_x ChartGenerator.sla_met ChartGenerator.sla_missed].
  split; [reflexivity|]. split; [reflexivity|].
  split; [apply length_map|]. split.
  - rewrite Forall_map. eapply Forall_impl; [|exact Hrows].
    intros r Hr. cbn beta in *. lia.
  - clear. induction table as [|r table IH]; [reflexivity|].
    cbn [map map2]. rewrite IH. f_equal; lia.
Qed.

Lemma create_sla_performance_chart_spec_witness :
  exists table bars,
    SLAAnalyzer.analyze_sla_performance
      (Some (mkDF 3 [(LStr "priority", [Str "High"; Str "High"; Str "Low"]);
                     (LStr "resolution_time", [Num 5; Num 100; Null])]))
      = Ok (Some table) /\
    ChartGenerator.create_sla_performance_chart (Some table) = Some bars /\
    ChartGenerator.bar_x bars = ["High"; "Low"] /\
    ChartGenerator.sla_met bars = [1%Z; 0%Z] /\
    ChartGenerator.sla_missed bars = [1%Z; 1%Z].
Proof.
  eexists; eexists. split; [vm_compute; reflexivity|].
  split; [reflexivity|].
  edestruct (create_sla_performance_chart_spec
               (Some (mkDF 3 [(LStr "priority",
                               [Str "High"; Str "High"; Str "Low"]);
                              (LStr "resolution_time",
                               [Num 5; Num 100; Null])])))
    as (Hx & Hmet & _); [vm_compute; reflexivity | reflexivity |].
  split; [exact Hx|]. split; [exact Hmet|]. reflexivity.
Defined.

(* ================================================================== *)
(** * The normalization and the analyzers together *)

Lemma add_missing_fold_present (now : Z) (cols : list string)
    (df : DataFrame) :
  (forall c, In c cols -> has_column df (LStr c) = true) ->
  foldM (add_missing_column now) cols df = Ok df.
Proof.
  induction cols as [|c cols IH]; intro H; cbn [foldM]; [reflexivity|].
  unfold add_missing_column at 1. rewrite (H c (or_introl eq_refl)).
  cbn [negb bind]. apply IH. intros c' Hc'. apply H. now right.
Qed.

(** X24: [add_missing_columns] is idempotent, whatever the clock: a table
    that it has completed comes back unchanged when completed again,
    even at a later time. *)
Theorem add_missing_columns_idempotent (now now' : Z) (df df' : DataFrame) :
  add_missing_columns now df = Ok df' ->
  add_missing_columns now' df' = Ok df'.
Proof.
  intro H. unfold add_missing_columns. apply add_missing_fold_present.
  destruct (add_missing_columns_ok now df) as (df0 & H0 & _ & Hreq & _).
  rewrite H in H0. inversion H0; subst df0. exact Hreq.
Qed.

Lemma add_missing_columns_idempotent_witness :
  exists df',
    add_missing_columns 1000 (mkDF 1 [(LStr "title", [Str "Disk full"])])
      = Ok df' /\
    add_missing_columns 2000 df' = Ok df'.
Proof.
  eexists. split; [vm_compute; reflexivity|].
  apply (add_missing_columns_idempotent 1000 2000
           (mkDF 1 [(LStr "title", [Str "Disk full"])])).
  vm_compute; reflexivity.
Defined.





(* ================================================================== *)
(** * Priorities *)

(** X26: the priority analysis has one row for each priority, in sorted
    order: for a dataset with one [priority] column and an [incident_id]
    that is never missing, every row that [get_priority_analysis] returns
    is a priority of the dataset, not missing, with the number of its
    records and the mean and the median of their resolution times; no
    priority comes twice, and the counts add up to the number of records
    that have a priority. *)
Theorem get_priority_analysis_spec (df : DataFrame)
    (prs ids rts : list cell) (t : list TrendAnalyzer.row) :
  wf df ->
  getitem df (LStr "priority") = Ok (Series prs) ->
  getitem df (LStr "incident_id") = Ok (Series ids) ->
  Forall (fun c => c <> Null) ids ->
  getitem df (LStr "resolution_time") = Ok (Series rts) ->
  TrendAnalyzer.get_priority_analysis (Some df) = Ok (Some t) ->
  StronglySorted
    (fun a b => cell_leb (TrendAnalyzer.priority a)
                         (TrendAnalyzer.priority b) = true) t /\
  NoDup (map TrendAnalyzer.priority t) /\
  Forall (fun r =>
    let pr := TrendAnalyzer.priority r in
    let group := select (map (fun x => cell_eqb x pr) prs) rts in
    pr <> Null /\ In pr prs /\
    0 < TrendAnalyzer.incident_id_count r /\
    TrendAnalyzer.incident_id_count r = occurrences pr prs /\
    series_mean group = Ok (TrendAnalyzer.resolution_time_mean r) /\
    series_median group = Ok (TrendAnalyzer.resolution_time_median r)) t /\
  list_sum (map TrendAnalyzer.incident_id_count t) = series_count prs.
Proof.
  intros Hwf Hprs Hids Hnn Hrts H.
  unfold TrendAnalyzer.get_priority_analysis in H.
  destruct (empty df); [discriminate|].
  pose proof (wf_length _ _ _ Hwf Hprs) as Lprs.
  pose proof (wf_length _ _ _ Hwf Hids) as Lids.
  rewrite (groupby_spec df _ [prs]) in H
    by (cbn [mapM]; now rewrite (series_Series _ _ _ Hprs)).
  cbn [bind] in H. rewrite (series_Series _ _ _ Hids) in H. cbn [bind] in H.
  rewrite (series_Series _ _ _ Hrts) in H. cbn [bind] in H.
  inv_bind H. inversion H; subst x; clear H. rename E into Ht.
  rewrite (zip_rows_1 _ _ Lprs), group_keys_single, map_map in Ht.
  set (keys := sort_by cell_leb (unique (filter notnull prs))) in *.
  apply mapM_Forall2, Forall2_map_l in Ht. cbn beta in Ht.
  assert (Hkeys : forall v, In v keys -> v <> Null /\ In v prs).
  { intros v Hv. apply (Permutation_in _ (sort_by_perm _ _)) in Hv.
    apply unique_incl, filter_In in Hv. destruct Hv as (Hv & Hn).
    split; [intros ->; discriminate | exact Hv]. }
  assert (Hrows : Forall2 (fun v r =>
            v = TrendAnalyzer.priority r /\
            TrendAnalyzer.incident_id_count r = occurrences v prs /\
            let group := select (map (fun x => cell_eqb x v) prs) rts in
            series_mean group = Ok (TrendAnalyzer.resolution_time_mean r) /\
            series_median group = Ok (TrendAnalyzer.resolution_time_median r))
            keys t).
  { eapply Forall2_weaken; [|exact Ht]. intros v r Hagg.
    assert (Hmask : map (fun rk => key_eqb rk [v]) (map (fun x => [x]) prs)
                    = map (fun x => cell_eqb x v) prs).
    { rewrite map_map. apply map_ext. intro c. simpl.
      now rewrite andb_true_r. }
    cbn beta in Hagg. rewrite Hmask in Hagg.
    destruct (group_overdue (map (fun x => cell_eqb x v) prs) ids [])
      as (Htot & _ & _); [rewrite length_map; congruence | exact Hnn |].
    unfold TrendAnalyzer.aggregate in Hagg. cbn zeta in Hagg.
    inv_bind Hagg. inv_bind Hagg. inv_bind Hagg.
    inversion Hagg; subst r; clear Hagg.
    cbn [TrendAnalyzer.priority TrendAnalyzer.incident_id_count
         TrendAnalyzer.resolution_time_mean
         TrendAnalyzer.resolution_time_median
         TrendAnalyzer.resolution_time_var nth].
    split; [reflexivity|]. split; [|cbn zeta; auto].
    rewrite Htot, count_true_map. unfold occurrences. f_equal.
    apply filter_ext. intro c. apply cell_eqb_sym. }
  assert (Hpr : map TrendAnalyzer.priority t = keys).
  { symmetry. rewrite <- (map_id keys). apply Forall2_map_eq.
    eapply Forall2_weaken; [|exact Hrows]. now intros v r (Ev & _). }
  split.
  { apply (StronglySorted_map_inv TrendAnalyzer.priority
             (fun a b => cell_leb a b = true)).
    rewrite Hpr.
    apply sort_by_sorted; [apply cell_leb_total | apply cell_leb_trans]. }
  split.
  { rewrite Hpr.
    apply (Permutation_NoDup (Permutation_sym (sort_by_perm _ _))).
    apply unique_NoDup. }
  split.
  { apply Forall_forall. intros r Hr.
    destruct (Forall2_In_r _ _ _ _ Hrows Hr) as (v & Hv & Ev & Htot & Hst).
    subst v. destruct (Hkeys _ Hv) as (Hn & Hin). cbn zeta in *.
    split; [exact Hn|]. split; [exact Hin|].
    split; [rewrite Htot; now apply occurrences_pos|].
    split; assumption. }
  rewrite <- occurrences_unique_sum.
  rewrite <- (list_sum_perm _ _
                (Permutation_map (fun v => occurrences v prs)
                                 (sort_by_perm cell_leb _))).
  fold keys. f_equal. symmetry. apply Forall2_map_eq.
  eapply Forall2_weaken; [|exact Hrows]. intros v r (_ & Ev & _). now symmetry.
Qed.

Lemma get_priority_analysis_spec_witness :
  exists t,
    TrendAnalyzer.get_priority_analysis
      (Some (mkDF 4 [(LStr "priority",
                      [Str "Low"; Str "High"; Null; Str "Low"]);
                     (LStr "incident_id", [Num 1; Num 2; Num 3; Num 4]);
                     (LStr "resolution_time",
                      [Num 30; Num 2; Null; Num 50])]))
      = Ok (Some t) /\
    map TrendAnalyzer.priority t = [Str "High"; Str "Low"] /\
    map TrendAnalyzer.incident_id_count t = [1; 2] /\
    map TrendAnalyzer.resolution_time_mean t = [Num 2; Num 40] /\
    list_sum (map TrendAnalyzer.incident_id_count t) = 3.
Proof.
  eexists. split; [vm_compute; reflexivity|]. split; [reflexivity|].
  split; [reflexivity|]. split; [reflexivity|].
  edestruct (get_priority_analysis_spec
               (mkDF 4 [(LStr "priority",
                         [Str "Low"; Str "High"; Null; Str "Low"]);
                        (LStr "incident_id", [Num 1; Num 2; Num 3; Num 4]);
                        (LStr "resolution_time",
                         [Num 30; Num 2; Null; Num 50])])
               [Str "Low"; Str "High"; Null; Str "Low"]
               [Num 1; Num 2; Num 3; Num 4] [Num 30; Num 2; Null; Num 50])
    as (_ & _ & _ & Hsum);
    [repeat constructor | reflexivity | reflexivity
     | repeat constructor; discriminate | reflexivity
     | vm_compute; reflexivity |].
  exact Hsum.
Defined.

(* ================================================================== *)
(** * The empty dataset *)

(** X27: no analyzer fails on an empty dataset: for a dataset without rows
    or without columns, the recurring-issue, SLA, team, monthly, category
    and priority analyses return None, [identify_tech_debt_incidents]
    returns an empty frame, and [calculate_tech_debt_indicators] returns
    a percentage of zero with no team count, no monthly count and no
    incident. *)
Theorem analyzers_on_empty_dataset (df : DataFrame) (top_n : Z) :
  empty df = true ->
  RecurringIssuesAnalyzer.get_top_recurring_issues (Some df) top_n = None /\
  SLAAnalyzer.analyze_sla_performance (Some df) = Ok None /\
  TeamAnalyzer.analyze_team_trends (Some df) = Ok None /\
  TeamAnalyzer.get_team_performance_summary (Some df) = Ok None /\
  TrendAnalyzer.get_monthly_trends (Some df) = Ok None /\
  TrendAnalyzer.get_category_distribution (Some df) = Ok None /\
  TrendAnalyzer.get_priority_analysis (Some df) = Ok None /\
  TechDebtAnalyzer.identify_tech_debt_incidents (Some df) = Ok empty_frame /\
  exists ind,
    TechDebtAnalyzer.calculate_tech_debt_indicators (Some df) = Ok ind /\
    (TechDebtAnalyzer.total_debt_percentage ind == 0)%Q /\
    TechDebtAnalyzer.debt_by_team ind = [] /\
    TechDebtAnalyzer.debt_trend ind = [] /\
    TechDebtAnalyzer.debt_incidents ind = empty_frame.
Proof.
  intro He.
  unfold RecurringIssuesAnalyzer.get_top_recurring_issues,
    SLAAnalyzer.analyze_sla_performance, TeamAnalyzer.analyze_team_trends,
    TeamAnalyzer.get_team_performance_summary,
    TrendAnalyzer.get_monthly_trends, TrendAnalyzer.get_category_distribution,
    TrendAnalyzer.get_priority_analysis,
    TechDebtAnalyzer.calculate_tech_debt_indicators,
    TechDebtAnalyzer.identify_tech_debt_incidents.
  rewrite He. repeat (split; [reflexivity|]).
  cbn [bind TechDebtAnalyzer.len_data len nrows empty_frame].
  eexists. split; [reflexivity|].
  cbn [TechDebtAnalyzer.total_debt_percentage TechDebtAnalyzer.debt_by_team
       TechDebtAnalyzer.debt_trend TechDebtAnalyzer.debt_incidents].
  split; [|repeat split].
  destruct (0 <? len df); [|reflexivity].
  rewrite Qred_correct. unfold Qdiv. now rewrite !Qmult_0_l.
Qed.

Lemma analyzers_on_empty_dataset_witness :
  SLAAnalyzer.analyze_sla_performance
    (Some (mkDF 0 [(LStr "priority", []); (LStr "resolution_time", [])]))
    = Ok None /\
  exists ind,
    TechDebtAnalyzer.calculate_tech_debt_indicators
      (Some (mkDF 0 [(LStr "priority", []); (LStr "resolution_time", [])]))
      = Ok ind /\
    (TechDebtAnalyzer.total_debt_percentage ind == 0)%Q.
Proof.
  destruct (analyzers_on_empty_dataset
              (mkDF 0 [(LStr "priority", []); (LStr "resolution_time", [])])
              10 eq_refl)
    as (_ & Hsla & _ & _ & _ & _ & _ & _ & ind & Hind & Hpct & _).
  split; [exact Hsla|]. exists ind. split; [exact Hind | exact Hpct].
Defined.
